(** * LinkedIn automation engine: signal pipeline, ledger and review queue

    A shallow embedding of the JavaScript sources
    ([utils/stateStore.js], [triggers/githubTrigger.js],
    [triggers/signalClassifier.js], [services/dataNormalizer.js],
    [services/dataFetcher.js], [services/promptBuilder.js],
    [services/contentGenerator.js], [services/linkedinPublisher.js],
    [services/imagePromptGenerator.js], [workflows/workflowEngine.js])
    together with the properties the specification states about them and
    further properties of the code.

    Conventions of the embedding:
    - a JavaScript string is its sequence of UTF-16 code units ([list N]);
    - a JavaScript number that the code only compares and adds (a
      confidence) is an exact rational; where the code reads a number back
      from a decimal numeral, the double nearest to the numeral is taken;
      counters, lengths and clock readings are integers;
    - an exception is an explicit [Throw] result, and a call that can throw
      after it has changed the state returns the state as well;
    - the clock, the random generator, the file system and the HTTP
      endpoints are inputs;
    - a log line is left out where [logger] is the exported [Logger]
      instance, whose methods return; what a log line evaluates on the way
      (a property of the argument) is kept where it can throw. *)

From Stdlib Require Import ZArith NArith List String Ascii QArith Qminmax Lqa Lia.
From Stdlib Require Import DecimalString DecimalZ Qround Qabs.
From stdpp Require Import base option list gmap.

#[local] Open Scope Z_scope.

(* ================================================================== *)
(** * JavaScript values *)
(* ================================================================== *)

Module JS.

(** Strings are sequences of UTF-16 code units. *)
Abbreviation jstring := (list N) (only parsing).

(** A source literal, character by character. *)
Definition js (s : string) : jstring :=
  List.map N_of_ascii (list_ascii_of_string s).

(** The characters matched by [\s] in a regular expression and removed by
    [String.prototype.trim]: WhiteSpace and LineTerminator. *)
Definition is_space (c : N) : bool :=
  ((9 <=? c) && (c <=? 13) || (c =? 32) || (c =? 160) || (c =? 5760)
   || (8192 <=? c) && (c <=? 8202) || (c =? 8232) || (c =? 8233)
   || (c =? 8239) || (c =? 8287) || (c =? 12288) || (c =? 65279))%N.

Definition SPACE : N := 32%N.
Definition DOT : N := 46%N.

(** [s.replace(/\s+/g, ' ')]: every maximal run of white space becomes one
    space character. A white-space character followed by another one is
    dropped; the last one of the run is replaced. *)
Fixpoint collapseWhitespace (s : jstring) : jstring :=
  match s with
  | [] => []
  | c :: r =>
      if is_space c then
        match r with
        | c' :: _ => if is_space c' then collapseWhitespace r
                     else SPACE :: collapseWhitespace r
        | [] => [SPACE]
        end
      else c :: collapseWhitespace r
  end.

(** [s.replace(/\s+/g, '')]: white space is removed. *)
Definition removeWhitespace (s : jstring) : jstring :=
  List.filter (fun c => negb (is_space c)) s.

Fixpoint trimStart (s : jstring) : jstring :=
  match s with
  | [] => []
  | c :: r => if is_space c then trimStart r else s
  end.

Fixpoint trimEnd (s : jstring) : jstring :=
  match s with
  | [] => []
  | c :: r =>
      match trimEnd r with
      | [] => if is_space c then [] else [c]
      | r' => c :: r'
      end
  end.

(** [s.trim()] *)
Definition trim (s : jstring) : jstring := trimEnd (trimStart s).

(** [s.substring(0, e)]: the end index is clamped to [0, s.length]. *)
Definition substring0 (s : jstring) (e : Z) : jstring := take (Z.to_nat e) s.

(** [s.substr(start, len)] for non-negative arguments. *)
Definition substr (s : jstring) (start len : nat) : jstring :=
  take len (drop start s).

Definition jlength (s : jstring) : Z := Z.of_nat (length s).

(** Decimal rendering of an integer, as [`${n}`] prints it. *)
Definition dec (n : Z) : jstring := js (NilEmpty.string_of_int (Z.to_int n)).

Definition NL : jstring := [10%N].

Fixpoint join (sep : jstring) (parts : list jstring) : jstring :=
  match parts with
  | [] => []
  | [p] => p
  | p :: rest => p ++ sep ++ join sep rest
  end.

Fixpoint startsWith (prefix s : jstring) : bool :=
  match prefix, s with
  | [], _ => true
  | a :: p, b :: r => (a =? b)%N && startsWith p r
  | _ :: _, [] => false
  end.

Definition jstring_eqb (a b : jstring) : bool := bool_decide (a = b).

(** Values, as far as the sources inspect them. The fields of an object are
    kept in a list in which the first binding of a name is the visible one. *)
#[warnings="-register-all"] Inductive value : Type :=
| VUndefined
| VNull
| VBool (b : bool)
| VNum (n : Z)
| VStr (s : jstring)
| VObj (fields : list (string * value))
| VArr (items : list value).

(** [!!v] *)
Definition truthy (v : value) : bool :=
  match v with
  | VUndefined | VNull => false
  | VBool b => b
  | VNum n => negb (n =? 0)
  | VStr s => match s with [] => false | _ => true end
  | VObj _ | VArr _ => true
  end.

(** [a || b] *)
Definition or_else (a b : value) : value := if truthy a then a else b.

Inductive exn : Type :=
| TypeError (access : string)
| Error (message : jstring)
| AxiosError (status : option Z) (message : jstring).

(** [error.message]; the wording of a [TypeError] belongs to the engine and
    is represented by the access that failed. *)
Definition message (e : exn) : jstring :=
  match e with
  | TypeError access => js access
  | Error m => m
  | AxiosError _ m => m
  end.

(** [error.response?.status] *)
Definition response_status (e : exn) : option Z :=
  match e with
  | AxiosError st _ => st
  | _ => None
  end.

Inductive result (A : Type) : Type :=
| Ok (a : A)
| Throw (e : exn).
Arguments Ok {A} a.
Arguments Throw {A} e.

#[export] Instance result_ret : MRet result := fun A a => Ok a.

#[export] Instance result_bind : MBind result := fun A B k r =>
  match r with
  | Ok a => k a
  | Throw e => Throw e
  end.

(** [try { body } catch (error) { handler }] *)
Definition try_catch {A} (body : result A) (handler : exn -> result A) : result A :=
  match body with
  | Ok a => Ok a
  | Throw e => handler e
  end.

Fixpoint field (name : string) (fields : list (string * value)) : value :=
  match fields with
  | [] => VUndefined
  | (k, v) :: rest => if String.eqb k name then v else field name rest
  end.

(** [v.name] and [v[name]] for a literal name. Reading a property of
    [undefined] or [null] throws; strings and arrays have a [length];
    a name that is absent reads as [undefined]. *)
Definition get (v : value) (name : string) : result value :=
  match v with
  | VUndefined | VNull => Throw (TypeError name)
  | VObj fields => Ok (field name fields)
  | VStr s => Ok (if String.eqb name "length" then VNum (jlength s) else VUndefined)
  | VArr l => Ok (if String.eqb name "length" then VNum (Z.of_nat (length l))
                  else VUndefined)
  | VBool _ | VNum _ => Ok VUndefined
  end.

(** [v?.name] *)
Definition get_opt (v : value) (name : string) : value :=
  match get v name with
  | Ok x => x
  | Throw _ => VUndefined
  end.

(** [v[0]] *)
Definition first (v : value) : result value :=
  match v with
  | VUndefined | VNull => Throw (TypeError "0")
  | VArr (x :: _) => Ok x
  | VStr (c :: _) => Ok (VStr [c])
  | VObj fields => Ok (field "0" fields)
  | _ => Ok VUndefined
  end.

(** [`${v}`] *)
Fixpoint to_string (v : value) : jstring :=
  match v with
  | VUndefined => js "undefined"
  | VNull => js "null"
  | VBool true => js "true"
  | VBool false => js "false"
  | VNum n => dec n
  | VStr s => s
  | VObj _ => js "[object Object]"
  | VArr items =>
      join (js ",")
        ((fix each (l : list value) : list jstring :=
            match l with
            | [] => []
            | x :: r =>
                match x with
                | VUndefined | VNull => []
                | _ => to_string x
                end :: each r
            end) items)
  end.

(** [s.split(sep)] for a one-character separator. *)
Fixpoint splitOn (sep : N) (s : jstring) : list (list N) :=
  match s with
  | [] => [[]]
  | c :: r =>
      if (c =? sep)%N then [] :: splitOn sep r
      else match splitOn sep r with
           | p :: ps => (c :: p) :: ps
           | [] => [[c]]
           end
  end.

(** [s.split(/\s+/)]: the pieces between the maximal runs of white space;
    a run at either end leaves an empty piece there. *)
Fixpoint splitWhitespace (s : jstring) : list (list N) :=
  match s with
  | [] => [[]]
  | c :: r =>
      if is_space c then
        match r with
        | c' :: _ => if is_space c' then splitWhitespace r else [] :: splitWhitespace r
        | [] => [[]; []]
        end
      else match splitWhitespace r with
           | p :: ps => (c :: p) :: ps
           | [] => [[c]]
           end
  end.

(** [s.includes(pattern)] *)
Fixpoint contains (pattern s : jstring) : bool :=
  match s with
  | [] => startsWith pattern []
  | _ :: r => startsWith pattern s || contains pattern r
  end.

(** The ASCII capitals lowered. A regular expression with the [i] flag and
    without the [u] flag matches an ASCII letter of its pattern against the
    two ASCII cases of that letter and nothing else, so a pattern made of
    lower-case ASCII letters and punctuation is tested on the lowered
    subject. *)
Definition lowerASCII (s : jstring) : jstring :=
  List.map (fun c => if ((65 <=? c) && (c <=? 90))%N then (c + 32)%N else c) s.

(** [[...new Set(l)]]: the first occurrence of each string, in order;
    [seen] holds the strings met so far. *)
Fixpoint uniqueFrom (seen l : list (list N)) : list (list N) :=
  match l with
  | [] => []
  | x :: r =>
      if existsb (jstring_eqb x) seen then uniqueFrom seen r
      else x :: uniqueFrom (x :: seen) r
  end.

Definition unique (l : list (list N)) : list (list N) := uniqueFrom [] l.

(** [{ ...base, k1: v1, ... }] lists the later bindings first. *)
Definition spread_then (base later : list (string * value)) : list (string * value) :=
  later ++ base.

End JS.

Import JS.


(* ================================================================== *)
(** * utils/stateStore.js *)
(* ================================================================== *)

Module StateStore.

(** The state document [{ processed, executions, metadata }]. An entry of
    [processed] is an object, given by its fields. [processed] itself is
    used as a map from signal ids to entries and is modelled by its own
    keys; the few names an object inherits from [Object.prototype], for
    which the lookup is truthy as well, contain no colon, and every id the
    trigger builds has one. *)
Record State : Type := {
  processed : gmap (list N) (list (string * value));
  executions : list value;
  metadata : gmap (list N) value
}.

Definition empty : State :=
  {| processed := ∅; executions := []; metadata := ∅ |}.

(** [const { logger } = require('./logger')]: the module exports the
    [Logger] instance itself, whose only own property is [level], so the
    binding is [undefined]. *)
Definition logger : value := VUndefined.

(** [logger.debug(...)], [logger.info(...)], [logger.error(...)]: reading
    the method comes first. *)
Definition log (level : string) : result unit :=
  _ ← JS.get logger level; Ok tt.

(** The state file at start-up. *)
Inductive File : Type :=
| Missing
| Unreadable (e : exn)      (* [readFileSync] or [JSON.parse] throws *)
| Parsed (st : State).

(** [load()] *)
Definition load (file : File) : result State :=
  try_catch
    (match file with
     | Missing => _ ← log "info"; Ok empty
     | Unreadable e => Throw e
     | Parsed st => Ok st
     end)
    (fun _ => _ ← log "error"; Ok empty).

(** What one mutating call reads from outside. *)
Record World : Type := {
  now : list N;                (* [new Date().toISOString()] *)
  writeFileSync : result unit  (* how [fs.writeFileSync] ends *)
}.

(** [save()] *)
Definition save (w : World) : result unit :=
  try_catch (_ ← writeFileSync w; log "debug") (fun _ => log "error").

(** [hasProcessed(signalId)]: [!!this.state.processed[signalId]]; an entry
    is an object, and every object is truthy. *)
Definition hasProcessed (st : State) (signalId : jstring) : bool :=
  match processed st !! signalId with
  | Some entry => truthy (VObj entry)
  | None => truthy VUndefined
  end.

(** [markProcessed(signalId, metadata = {})]: how the call ends, and the
    state afterwards. The entry is stored before [save()] is called. *)
Definition markProcessed (st : State) (w : World) (signalId : jstring)
    (meta : list (string * value)) : result unit * State :=
  let st' :=
    {| processed :=
         <[signalId := spread_then [("timestamp"%string, VStr (now w))] meta]>
           (processed st);
       executions := executions st;
       metadata := metadata st |} in
  (_ ← save w; log "info", st').

(** [array.slice(-n)] *)
Definition slice_last {A} (n : nat) (l : list A) : list A :=
  drop (length l - n) l.

(** [recordExecution(workflow, status, details = {})]: how the call ends,
    and the state afterwards. The trail is updated before [save()] is
    called. *)
Definition recordExecution (st : State) (w : World) (workflow status : jstring)
    (details : list (string * value)) : result unit * State :=
  let execution :=
    VObj (spread_then [("workflow"%string, VStr workflow);
                       ("status"%string, VStr status);
                       ("timestamp"%string, VStr (now w))] details) in
  let pushed := executions st ++ [execution] in
  let st' :=
    {| processed := processed st;
       executions := if (100 <? length pushed)%nat then slice_last 100 pushed else pushed;
       metadata := metadata st |} in
  (_ ← save w; log "info", st').

(** [get(key, defaultValue = null)]: the initializer replaces a default
    that is [undefined], given or left out, by [null]. The metadata object is
    modelled by its own keys, as [processed] is: the lookup of a name of
    [Object.prototype] that is not an own key is outside the model. *)
Definition get (st : State) (key : jstring) (defaultValue : value) : value :=
  let defaultValue :=
    match defaultValue with
    | VUndefined => VNull
    | _ => defaultValue
    end in
  or_else (default VUndefined (metadata st !! key)) defaultValue.

(** [set(key, value)] for a key other than [__proto__], whose assignment
    goes to the setter of the prototype. *)
Definition set (st : State) (w : World) (key : jstring) (v : value)
    : result unit * State :=
  let st' :=
    {| processed := processed st;
       executions := executions st;
       metadata := <[key := v]> (metadata st) |} in
  (_ ← save w; log "debug", st').

(** [getProcessedSignals()], up to the order of the keys; an entry stored
    under [__proto__] would not be an own key. *)
Definition getProcessedSignals (st : State) : list (list N) :=
  elements (dom (processed st)).

(** [getRecentExecutions(limit = 10)] for a positive limit. *)
Definition getRecentExecutions (st : State) (limit : nat) : list value :=
  slice_last limit (executions st).

(** One call of [recordExecution], as a caller issues it. *)
Record Call : Type := {
  call_world : World;
  call_workflow : list N;
  call_status : list N;
  call_details : list (string * value)
}.

(** The state after the call, however the call ends. *)
Definition record (st : State) (c : Call) : State :=
  snd (recordExecution st (call_world c) (call_workflow c) (call_status c)
         (call_details c)).

(** The audit entry a call appends. *)
Definition entry_of (c : Call) : value :=
  VObj (spread_then [("workflow"%string, VStr (call_workflow c));
                     ("status"%string, VStr (call_status c));
                     ("timestamp"%string, VStr (now (call_world c)))] (call_details c)).

Definition recordAll (st : State) (calls : list Call) : State :=
  fold_left record calls st.

End StateStore.

(* ================================================================== *)
(** * triggers/githubTrigger.js *)
(* ================================================================== *)

Module GitHubTrigger.

(** What the GitHub REST API returns, restricted to the fields read. *)
Record Commit : Type := {
  commit_sha : list N;
  commit_message : list N;
  commit_author_name : list N;
  commit_author_date : list N;
  commit_html_url : list N;
  commit_files : option nat   (* [commit.files.length] when [commit.files] is there *)
}.

Record Readme : Type := {
  readme_sha : list N;
  readme_name : list N;
  readme_path : list N;
  readme_html_url : list N;
  readme_size : Z
}.

Record Issue : Type := {
  issue_number : Z;
  issue_title : list N;
  issue_state : list N;
  issue_user_login : list N;
  issue_created_at : list N;
  issue_html_url : list N;
  issue_labels : list (list N);   (* [issue.labels.map(l => l.name)] *)
  issue_pull_request : bool       (* [issue.pull_request] is there *)
}.

(** The [data] of a signal, one shape per kind. *)
Inductive SignalData : Type :=
| CommitData (sha message author date url : list N) (files_changed : nat)
| ReadmeData (sha name path url : list N) (size : Z)
| IssueData (number : Z) (title state author created_at url : list N)
    (labels : list (list N)).

Record Signal : Type := {
  type : list N;
  id : list N;
  data : SignalData;
  confidence : Q
}.

Definition commitSignal (commit : Commit) : Signal :=
  {| type := js "commit";
     id := js "commit:" ++ commit_sha commit;
     data := CommitData (commit_sha commit) (commit_message commit)
               (commit_author_name commit) (commit_author_date commit)
               (commit_html_url commit)
               (match commit_files commit with Some n => n | None => 0%nat end);
     confidence := 7 # 10 |}.

Definition readmeSignal (readme : Readme) : Signal :=
  {| type := js "readme_update";
     id := js "readme:" ++ readme_sha readme;
     data := ReadmeData (readme_sha readme) (readme_name readme) (readme_path readme)
               (readme_html_url readme) (readme_size readme);
     confidence := 8 # 10 |}.

Definition issueSignal (issue : Issue) : Signal :=
  {| type := js "issue";
     id := js "issue:" ++ dec (issue_number issue);
     data := IssueData (issue_number issue) (issue_title issue) (issue_state issue)
               (issue_user_login issue) (issue_created_at issue)
               (issue_html_url issue) (issue_labels issue);
     confidence := 6 # 10 |}.

(** The three requests of one detection pass, each answered or failed. *)
Record Responses : Type := {
  fetchRecentCommits : result (list Commit);
  fetchReadme : result Readme;
  fetchRecentIssues : result (list Issue)
}.

(** [detectSignals(repo)]. A failed commit request is rethrown; a failed
    README or issue request is logged and skipped. The store is read, never
    written. *)
Definition detectSignals (stateStore : StateStore.State) (api : Responses)
    : result (list Signal) :=
  commits ← fetchRecentCommits api;
  let fromCommits :=
    List.filter (fun s => negb (StateStore.hasProcessed stateStore (id s)))
      (List.map commitSignal commits) in
  let fromReadme :=
    match fetchReadme api with
    | Ok readme =>
        if negb (StateStore.hasProcessed stateStore (id (readmeSignal readme)))
        then [readmeSignal readme] else []
    | Throw _ => []
    end in
  let fromIssues :=
    match fetchRecentIssues api with
    | Ok issues =>
        List.filter (fun s => negb (StateStore.hasProcessed stateStore (id s)))
          (List.map issueSignal
             (List.filter (fun i => negb (issue_pull_request i)) issues))
    | Throw _ => []
    end in
  Ok (fromCommits ++ fromReadme ++ fromIssues).

End GitHubTrigger.

(* ================================================================== *)
(** * triggers/signalClassifier.js *)
(* ================================================================== *)

Module SignalClassifier.

Import GitHubTrigger.

Inductive Category : Type := code | docs | config | unknown.

(** [\w] *)
Definition is_word (c : N) : bool :=
  ((48 <=? c) && (c <=? 57) || (65 <=? c) && (c <=? 90) || (c =? 95)
   || (97 <=? c) && (c <=? 122))%N.

(** [s.toLowerCase()], as far as the tests below can see it: the ASCII
    capitals, and the two other characters whose lower case is made of
    ASCII letters (U+0130, U+212A). Any other character is outside [\w]
    before and after. *)
Definition toLowerCase (s : jstring) : jstring :=
  flat_map (fun c =>
    if ((65 <=? c) && (c <=? 90))%N then [(c + 32)%N]
    else if (c =? 304)%N then [105%N; 775%N]
    else if (c =? 8490)%N then [107%N]
    else [c]) s.

(** The maximal runs of word characters of a string (and empty runs
    between adjacent separators). *)
Fixpoint words (s : jstring) : list (list N) :=
  match s with
  | [] => [[]]
  | c :: r =>
      if is_word c then
        match words r with
        | w :: ws => (c :: w) :: ws
        | [] => [[c]]
        end
      else [] :: words r
  end.

(** [/\b(a1|a2|...)\b/i.test(s)] on a lower-cased [s], for alternatives
    made of lower-case word characters: an alternative matches between two
    word boundaries exactly when it is a maximal run of word characters. *)
Definition test_word (alternatives : list string) (s : jstring) : bool :=
  existsb (fun w => existsb (fun a => jstring_eqb (js a) w) alternatives) (words s).

(** [array.includes(x)] on an array of strings. *)
Definition includes (labels : list (list N)) (x : string) : bool :=
  existsb (jstring_eqb (js x)) labels.

Record Classification : Type := {
  method : list N;
  original_confidence : option Q
}.

(** [{ ...signal, category, confidence, classification }] *)
Record Classified : Type := {
  signal : Signal;
  category : Category;
  confidence : Q;
  classification : Classification
}.

(** [Math.max(0.3, Math.min(1.0, c))] *)
Definition clamp (c : Q) : Q := Qmax (3 # 10) (Qmin 1 c).

(** [classifyCommit(signal)] *)
Definition classifyCommit (s : Signal) : result Classified :=
  match GitHubTrigger.data s with
  | CommitData _ msg _ _ _ _ =>
      let message := toLowerCase msg in
      let '(category, confidenceAdjustment) :=
        if test_word ["feat"; "feature"; "add"; "implement"]%string message
        then (code, 1 # 10)
        else if test_word ["doc"; "docs"; "readme"; "documentation"]%string message
        then (docs, 15 # 100)
        else if test_word ["fix"; "bug"; "patch"; "hotfix"]%string message
        then (code, 5 # 100)
        else if test_word ["config"; "setup"; "build"; "ci"; "cd"]%string message
        then (config, (- (5 # 100))%Q)
        else if test_word ["refactor"; "cleanup"; "style"]%string message
        then (code, 0%Q)
        else (unknown, 0%Q) in
      Ok {| signal := s;
            category := category;
            confidence := clamp (GitHubTrigger.confidence s + confidenceAdjustment)%Q;
            classification :=
              {| method := js "commit_message_heuristic";
                 original_confidence := Some (GitHubTrigger.confidence s) |} |}
  | ReadmeData _ _ _ _ _ => Throw (TypeError "toLowerCase")
  | IssueData _ _ _ _ _ _ _ => Throw (TypeError "substring")
  end.

(** [classifyReadme(signal)] *)
Definition classifyReadme (s : Signal) : Classified :=
  {| signal := s;
     category := docs;
     confidence := Qmin 1 (GitHubTrigger.confidence s + (1 # 10))%Q;
     classification :=
       {| method := js "readme_direct";
          original_confidence := Some (GitHubTrigger.confidence s) |} |}.

(** [classifyIssue(signal)] *)
Definition classifyIssue (s : Signal) : result Classified :=
  match GitHubTrigger.data s with
  | IssueData _ ttl _ _ _ _ labels =>
      let title := toLowerCase ttl in
      let '(category, confidenceAdjustment) :=
        if includes labels "bug" || includes labels "fix"
        then (code, 5 # 100)
        else if includes labels "documentation" || includes labels "docs"
        then (docs, 1 # 10)
        else if includes labels "feature" || includes labels "enhancement"
        then (code, 1 # 10)
        else (unknown, 0%Q) in
      let '(category, confidenceAdjustment) :=
        match category with
        | unknown =>
            if test_word ["bug"; "error"; "broken"; "crash"]%string title
            then (code, 0%Q)
            else if test_word ["doc"; "docs"; "readme"; "documentation"]%string title
            then (docs, 5 # 100)
            else if test_word ["feature"; "enhancement"; "improve"]%string title
            then (code, 5 # 100)
            else (category, confidenceAdjustment)
        | _ => (category, confidenceAdjustment)
        end in
      Ok {| signal := s;
            category := category;
            confidence := clamp (GitHubTrigger.confidence s + confidenceAdjustment)%Q;
            classification :=
              {| method := js "issue_labels_title";
                 original_confidence := Some (GitHubTrigger.confidence s) |} |}
  | _ => Throw (TypeError "toLowerCase")
  end.

(** [classify(signal)] *)
Definition classify (s : Signal) : result Classified :=
  if jstring_eqb (GitHubTrigger.type s) (js "commit") then classifyCommit s
  else if jstring_eqb (GitHubTrigger.type s) (js "readme_update") then Ok (classifyReadme s)
  else if jstring_eqb (GitHubTrigger.type s) (js "issue") then classifyIssue s
  else Ok {| signal := s;
             category := unknown;
             confidence := GitHubTrigger.confidence s;
             classification :=
               {| method := js "unhandled_type"; original_confidence := None |} |}.

(** [classifyBatch(signals)]: the first exception ends the [map]. *)
Definition classifyBatch (signals : list Signal) : result (list Classified) :=
  mapM classify signals.

(** [filterByConfidence(signals, minConfidence = 0.5)] *)
Definition filterByConfidence (signals : list Classified) (minConfidence : Q)
    : list Classified :=
  List.filter (fun s => Qle_bool minConfidence (confidence s)) signals.

(** [this.extensionMap] *)
Definition extensionMap : list (string * Category) :=
  [("js", code); ("jsx", code); ("ts", code); ("tsx", code);
   ("py", code); ("java", code); ("cpp", code); ("c", code); ("h", code);
   ("go", code); ("rs", code); ("rb", code); ("php", code); ("swift", code);
   ("kt", code); ("scala", code); ("cs", code);
   ("md", docs); ("txt", docs); ("rst", docs); ("adoc", docs);
   ("json", config); ("yml", config); ("yaml", config); ("toml", config);
   ("xml", config); ("ini", config); ("env", config); ("conf", config);
   ("lock", config); ("gradle", config); ("pom", config)]%string.

(** [this.importantFiles], lower-cased as [isImportantFile] uses them. *)
Definition importantFiles : list string :=
  ["readme"; "changelog"; "contributing"; "package.json"; "setup.py";
   "cargo.toml"; "main"; "index"; "app"]%string.

(** What [categorizeFile] returns: one of the four category names, or, for
    the two lower-case extensions that name a property every object
    inherits ([constructor], [__proto__]), the inherited value. *)
Inductive FileCategory : Type :=
| Named (c : Category)
| Inherited (name : list N).

(** [getExtension(filename)] *)
Definition getExtension (filename : jstring) : jstring :=
  let parts := splitOn 46 filename in
  if (1 <? length parts)%nat then toLowerCase (List.last parts []) else [].

(** [x.test(filepath)] for the five [pathRules], in order. *)
Definition pathRules : list ((list N -> bool) * Category) :=
  [(fun f => existsb (fun d => startsWith (js d) (lowerASCII f))
               ["docs/"; "doc/"; "documentation/"]%string, docs);
   (fun f => contains (js ".github/") (lowerASCII f), config);
   (fun f => existsb (fun d => startsWith (js d) (lowerASCII f))
               ["src/"; "lib/"; "app/"; "core/"]%string, code);
   (fun f => existsb (fun d => startsWith (js d) (lowerASCII f))
               ["test/"; "__tests__/"; "spec/"]%string, code);
   (fun f => existsb (fun d => startsWith (js d) (lowerASCII f))
               ["config/"; "conf/"; "settings/"]%string, config)].

(** [categorizeFile(filepath)] *)
Definition categorizeFile (filepath : jstring) : FileCategory :=
  match List.find (fun rule => fst rule filepath) pathRules with
  | Some rule => Named (snd rule)
  | None =>
      let ext := getExtension filepath in
      match List.find (fun entry => jstring_eqb (js (fst entry)) ext) extensionMap with
      | Some entry => Named (snd entry)
      | None =>
          if jstring_eqb ext (js "constructor") || jstring_eqb ext (js "__proto__")
          then Inherited ext
          else Named unknown
      end
  end.

(** [isImportantFile(filepath)] *)
Definition isImportantFile (filepath : jstring) : bool :=
  let filename := toLowerCase (List.last (splitOn 47 filepath) []) in
  existsb (fun important => startsWith (js important) filename) importantFiles.

(** [calculateFileConfidence(filepath, baseConfidence)] *)
Definition calculateFileConfidence (filepath : jstring) (baseConfidence : Q) : Q :=
  let confidence := baseConfidence in
  let confidence :=
    if isImportantFile filepath then Qmin 1 (confidence + (15 # 100))%Q else confidence in
  let confidence :=
    if existsb (fun t => contains (js t) (lowerASCII filepath))
         ["test"; "spec"; "__tests__"]%string
    then Qmax (3 # 10) (confidence - (1 # 10))%Q else confidence in
  let confidence :=
    match categorizeFile filepath with
    | Named config =>
        if negb (isImportantFile filepath)
        then Qmax (4 # 10) (confidence - (1 # 10))%Q else confidence
    | _ => confidence
    end in
  confidence.

End SignalClassifier.

(* ================================================================== *)
(** * services/dataNormalizer.js *)
(* ================================================================== *)

Module DataNormalizer.

Definition maxContextLength : Z := 500.
Definition maxTopicLength : Z := 100.

(** The ellipsis marker ['...']. *)
Definition ellipsis : jstring := [DOT; DOT; DOT].

(** The local [cleaned] of [sanitizeText]. *)
Definition cleaned (text : jstring) : jstring :=
  trim (collapseWhitespace text).

(** [sanitizeText(text, maxLength)] on a string argument. The empty string
    is the only falsy string. *)
Definition sanitizeText (text : jstring) (maxLength : Z) : jstring :=
  match text with
  | [] => []
  | _ =>
      let cleaned := cleaned text in
      if jlength cleaned >? maxLength
      then substring0 cleaned (maxLength - 3) ++ ellipsis
      else cleaned
  end.

(** [sanitizeText(text, maxLength)] on any argument: a falsy one gives the
    empty string, and a truthy one that is not a string has no [replace]. *)
Definition sanitizeValue (text : value) (maxLength : Z) : result (list N) :=
  if negb (truthy text) then Ok []
  else match text with
       | VStr t => Ok (sanitizeText t maxLength)
       | _ => Throw (TypeError "replace")
       end.

(** Rounding a non-negative fraction to the nearest integer, a tie going to
    the even one. *)
Definition round_half_even (num : Z) (den : positive) : Z :=
  let fl := num / Z.pos den in
  match 2 * (num mod Z.pos den) ?= Z.pos den with
  | Lt => fl
  | Gt => fl + 1
  | Eq => if Z.even fl then fl else fl + 1
  end.

(** The double nearest to the fraction [a / b]: an integer significand,
    between [2^52] and [2^53] for a normal number, times a power of two
    [2^e] with [e] at least [-1074]; [k] is the integer part of the binary
    logarithm of the fraction. *)
Definition binary64_pos (a b : positive) : Q :=
  let k0 := Z.log2 (Z.pos a) - Z.log2 (Z.pos b) in
  let k :=
    if (if 0 <=? k0 then Z.pos b * 2 ^ k0 <=? Z.pos a
        else Z.pos b <=? Z.pos a * 2 ^ (- k0))
    then k0 else k0 - 1 in
  let e := Z.max (k - 52) (-1074) in
  if 0 <=? e
  then (round_half_even (Z.pos a) (b * Z.to_pos (2 ^ e)) * 2 ^ e) # 1
  else round_half_even (Z.pos a * 2 ^ (- e)) b # Z.to_pos (2 ^ (- e)).

(** The double nearest to a rational number, ties to the even significand:
    what [parseFloat] returns for a decimal numeral of that value. Numbers
    beyond the largest double do not reach it. *)
Definition binary64 (q : Q) : Q :=
  match Qnum q with
  | Z0 => 0
  | Z.pos a => binary64_pos a (Qden q)
  | Z.neg a => (- binary64_pos a (Qden q))%Q
  end.

(** [parseFloat(x.toFixed(2))] for a number [x]. [toFixed] takes the
    integer [n] for which [n / 100] is nearest to [x], the larger one on a
    tie, on the magnitude of [x]; from [10^21] on it prints the number itself.
    [parseFloat] returns the double nearest to the numeral. *)
Definition toFixed2 (x : Q) : Q :=
  if Qle_bool (inject_Z (10 ^ 21)) (Qabs x) then x
  else if Qle_bool 0 x then binary64 (Qfloor (x * 100 + (1 # 2)) # 100)
  else (- binary64 (Qfloor (- x * 100 + (1 # 2)) # 100))%Q.

(** The enriched signal, as far as [normalize] reads it; [None] is a
    confidence that is not a number. *)
Record Enriched : Type := {
  enriched_topic : value;
  enriched_category : value;
  enriched_signalType : value;
  enriched_context : value;
  enriched_confidence : option Q;
  enriched_sources : value;
  enriched_originalSignal : value
}.

Record SourceData : Type := {
  author : value;
  date : value;
  url : value
}.

Record Normalized : Type := {
  topic : list N;
  category : value;
  signalType : value;
  context : list N;
  confidence : Q;
  sources : value;
  timestamp : list N;
  signalId : value;
  sourceData : option SourceData
}.

(** The [try] block of [normalize]; [now] is [new Date().toISOString()]. *)
Definition normalize_try (now : list N) (e : Enriched) : result Normalized :=
  topic ← sanitizeValue (enriched_topic e) maxTopicLength;
  context ← sanitizeValue (enriched_context e) maxContextLength;
  confidence ← match enriched_confidence e with
               | Some c => Ok (toFixed2 c)
               | None => Throw (TypeError "toFixed")
               end;
  let data := get_opt (enriched_originalSignal e) "data" in
  Ok {| topic := topic;
        category := or_else (enriched_category e) (VStr (js "unknown"));
        signalType := enriched_signalType e;
        context := context;
        confidence := confidence;
        sources := match enriched_sources e with
                   | VArr l => VArr l
                   | _ => VArr []
                   end;
        timestamp := now;
        signalId := or_else (get_opt (enriched_originalSignal e) "id")
                      (VStr (js "unknown"));
        sourceData :=
          if truthy data then
            Some {| author := or_else (get_opt data "author") VNull;
                    date := or_else (get_opt data "date")
                              (or_else (get_opt data "created_at") VNull);
                    url := or_else (get_opt data "url") VNull |}
          else None |}.

(** The record returned from the [catch] block of [normalize]. *)
Definition placeholder (now : list N) (e : Enriched) : Normalized :=
  {| topic := js "Normalization Failed";
     category := VStr (js "unknown");
     signalType := or_else (enriched_signalType e) (VStr (js "unknown"));
     context := js "Failed to normalize enriched data";
     confidence := 3 # 10;
     sources := VArr [];
     timestamp := now;
     signalId := VStr (js "error");
     sourceData := None |}.

(** [normalize(enrichedSignal)] *)
Definition normalize (now : list N) (e : Enriched) : Normalized :=
  match normalize_try now e with
  | Ok n => n
  | Throw _ => placeholder now e
  end.

(** [mergeContext(contexts)] on an array of strings. *)
Definition mergeContext (contexts : list (list N)) : list N :=
  match contexts with
  | [] => []
  | _ =>
      let merged :=
        join (js " | ")
          (List.filter (fun ctx => match ctx with
                                   | [] => false
                                   | _ => match trim ctx with [] => false | _ => true end
                                   end) contexts) in
      sanitizeText merged maxContextLength
  end.

End DataNormalizer.

(* ================================================================== *)
(** * services/dataFetcher.js *)
(* ================================================================== *)

Module DataFetcher.

Import GitHubTrigger.

Definition stopWords : list string :=
  ["the"; "a"; "an"; "and"; "or"; "but"; "in"; "on"; "at"; "to"; "for";
   "of"; "with"; "by"; "from"; "up"; "about"; "into"; "through"; "during";
   "is"; "are"; "was"; "were"; "been"; "be"; "have"; "has"; "had";
   "add"; "update"; "fix"; "implement"; "change"; "remove"; "create"]%string.

(** [[a-z0-9]] *)
Definition is_lower_alnum (c : N) : bool :=
  ((48 <=? c) && (c <=? 57) || (97 <=? c) && (c <=? 122))%N.

(** [s.replace(/[^a-z0-9\s]/g, ' ')] *)
Definition blankOthers (s : jstring) : jstring :=
  List.map (fun c => if is_lower_alnum c || is_space c then c else SPACE) s.

(** The [filter] of [extractKeywords]. *)
Definition significant (word : list N) : bool :=
  (3 <? length word)%nat && negb (existsb (fun w => jstring_eqb (js w) word) stopWords).

(** The [text] the [switch] of [extractKeywords] selects; [None] is
    [undefined], the field being absent from the data. *)
Definition keywordText (signal : Signal) : option (list N) :=
  if jstring_eqb (type signal) (js "commit") then
    match data signal with CommitData _ message _ _ _ _ => Some message | _ => None end
  else if jstring_eqb (type signal) (js "readme_update") then
    match data signal with ReadmeData _ name _ _ _ => Some name | _ => None end
  else if jstring_eqb (type signal) (js "issue") then
    match data signal with IssueData _ title _ _ _ _ _ => Some title | _ => None end
  else Some [].

(** [extractKeywords(signal)] *)
Definition extractKeywords (signal : Signal) : result (list (list N)) :=
  match keywordText signal with
  | None => Throw (TypeError "toLowerCase")
  | Some text =>
      let words :=
        List.filter significant
          (splitWhitespace (blankOthers (SignalClassifier.toLowerCase text))) in
      Ok (take 3 (unique words))
  end.

End DataFetcher.

(* ================================================================== *)
(** * services/promptBuilder.js *)
(* ================================================================== *)

Module PromptBuilder.

Definition minLength : Z := 200.
Definition maxLength : Z := 300.
Definition recommendedHashtags : Z := 3.

Definition strings (l : list string) : value := VArr (List.map (fun x => VStr (js x)) l).

(** [buildInstructionBlocks(normalizedData)] *)
Definition buildInstructionBlocks (normalizedData : value) : result value :=
  topic ← get normalizedData "topic";
  context ← get normalizedData "context";
  signalType ← get normalizedData "signalType";
  category ← get normalizedData "category";
  sources ← get normalizedData "sources";
  confidence ← get normalizedData "confidence";
  Ok (VObj [("topic"%string, topic); ("context"%string, context);
            ("signalType"%string, signalType); ("category"%string, category);
            ("sources"%string, sources); ("confidence"%string, confidence)]).

(** [buildConstraints()] *)
Definition buildConstraints : value :=
  VObj [("format"%string, VStr (js "LinkedIn professional post"));
        ("length"%string,
          VObj [("min"%string, VNum minLength); ("max"%string, VNum maxLength);
                ("unit"%string, VStr (js "words"))]);
        ("structure"%string,
          VObj [("include"%string,
                  strings ["Opening hook or question"; "Main content with context";
                           "Key takeaway or insight";
                           "Call-to-action or discussion prompt"]%string);
                ("avoid"%string,
                  strings ["Overly promotional language"; "Clickbait phrases";
                           "Excessive emojis"; "Unsubstantiated claims"]%string)]);
        ("formatting"%string,
          VObj [("hashtags"%string, VNum recommendedHashtags);
                ("paragraphs"%string, VStr (js "Use line breaks for readability"));
                ("tone"%string, VStr (js "Professional yet conversational"))])].

(** [buildSystemInstructions()] *)
Definition buildSystemInstructions : value :=
  VObj [("role"%string,
          VStr (js "You are a professional LinkedIn content creator specializing in technical topics."));
        ("guidelines"%string,
          strings ["Create engaging content based on the provided topic and context";
                   "Use factual information from the context provided";
                   "Write in a professional yet approachable tone";
                   "Include relevant hashtags for discoverability";
                   "End with a call-to-action or thought-provoking question";
                   "Do not fabricate information beyond the provided context";
                   "Maintain authenticity and credibility"]%string)].

(** [buildPrompt(normalizedData)]; [now] is [new Date().toISOString()]. The
    first log line reads the record outside the [try] block. *)
Definition buildPrompt (now : list N) (normalizedData : value) : result value :=
  _ ← get normalizedData "topic";
  signalId ← get normalizedData "signalId";
  category ← get normalizedData "category";
  confidence ← get normalizedData "confidence";
  instructions ← buildInstructionBlocks normalizedData;
  sourceData ← get normalizedData "sourceData";
  Ok (VObj [("metadata"%string,
              VObj [("signalId"%string, signalId); ("timestamp"%string, VStr now);
                    ("category"%string, category); ("confidence"%string, confidence)]);
            ("system"%string, buildSystemInstructions);
            ("instructions"%string, instructions);
            ("constraints"%string, buildConstraints);
            ("attribution"%string, or_else sourceData VNull)]).

(** [name in v] for a name that no object inherits: an own key of an
    object, nothing on an array, and a [TypeError] on anything else. *)
Definition hasProperty (name : string) (v : value) : result bool :=
  match v with
  | VObj fields => Ok (existsb (fun entry => String.eqb (fst entry) name) fields)
  | VArr _ => Ok (String.eqb name "length")
  | _ => Throw (TypeError "in")
  end.

(** [validatePrompt(prompt)] *)
Definition validatePrompt (prompt : value) : result bool :=
  present ←
    (fix every (fields : list string) : result bool :=
       match fields with
       | [] => Ok true
       | f :: rest =>
           b ← hasProperty f prompt;
           if (b : bool) then every rest else Ok false
       end) ["metadata"; "system"; "instructions"; "constraints"]%string;
  if negb (present : bool) then Ok false
  else
    metadata ← get prompt "metadata";
    signalId ← get metadata "signalId";
    timestamp ← (if truthy signalId then get metadata "timestamp" else Ok VUndefined);
    if negb (truthy signalId && truthy timestamp) then Ok false
    else
      instructions ← get prompt "instructions";
      topic ← get instructions "topic";
      context ← (if truthy topic then get instructions "context" else Ok VUndefined);
      Ok (truthy topic && truthy context).

(** [buildBatch(normalizedDataArray)]: the prompts and the error entries
    [{ signalId, error }]; each record comes with the timestamp read for it.
    The [catch] block of the loop reads [data.signalId]. *)
Fixpoint buildBatchFrom (prompts : list value) (errors : list (value * list N))
    (items : list (list N * value)) : result (list value * list (value * list N)) :=
  match items with
  | [] => Ok (prompts, errors)
  | (now, data) :: rest =>
      match buildPrompt now data with
      | Ok prompt => buildBatchFrom (prompts ++ [prompt]) errors rest
      | Throw e =>
          signalId ← get data "signalId";
          buildBatchFrom prompts (errors ++ [(signalId, message e)]) rest
      end
  end.

Definition buildBatch (items : list (list N * value))
    : result (list value * list (value * list N)) :=
  buildBatchFrom [] [] items.

End PromptBuilder.

(* ================================================================== *)
(** * services/contentGenerator.js *)
(* ================================================================== *)

Module ContentGenerator.

Record Generator : Type := {
  hfToken : option (list N);
  rateLimitDelay : Z;
  lastCallTime : Z
}.

(** [constructor()]: [process.env.HUGGINGFACE_TOKEN || null] *)
Definition new (HUGGINGFACE_TOKEN : option (list N)) : Generator :=
  {| hfToken := match HUGGINGFACE_TOKEN with
                | Some (c :: t) => Some (c :: t)
                | _ => None
                end;
     rateLimitDelay := 2000;
     lastCallTime := 0 |}.

Definition text_model : list N := js "mistralai/Mistral-7B-Instruct-v0.2".

(** How the request to the inference endpoint ends: a rejected request and
    a timeout are [Failed]. *)
Inductive Completion : Type :=
| Failed (status : option Z) (message : list N)
| Completed (data : value).

(** What one call of [generate] reads from outside. *)
Record World : Type := {
  clock_before : Z;           (* [Date.now()] on entering [_enforceRateLimit] *)
  clock_after : Z;            (* [Date.now()] once the wait is over *)
  timestamp : list N;       (* [new Date().toISOString()] *)
  complete : value -> Completion  (* [axios.post], by the [inputs] of the request *)
}.

(** The object built by the primary path or by the fallback. *)
Record Draft : Type := {
  draft_text : list N;
  draft_provider : list N;
  draft_model : list N;
  draft_metadata : list (string * value)
}.

(** The object returned by [generate]. *)
Record Generated : Type := {
  text : option (list N);
  provider : list N;
  model : option (list N);
  metadata : list (string * value)
}.

Definition tags : list string := ["[INST]"; "[/INST]"; "<s>"; "</s>"]%string.

(** [s.replace(/\[INST\]|\[\/INST\]|<s>|<\/s>/g, '')]; [skip] counts the
    characters of a matched tag still to be dropped. *)
Fixpoint stripTags (skip : nat) (s : jstring) : jstring :=
  match s with
  | [] => []
  | c :: r =>
      match skip with
      | S k => stripTags k r
      | O =>
          match List.find (fun t => startsWith (js t) s) tags with
          | Some t => stripTags (String.length t - 1) r
          | None => c :: stripTags 0 r
          end
      end
  end.

(** [s.replace(/\n{3,}/g, '\n\n')]; [seen] counts the line breaks of the
    current run. *)
Fixpoint squeezeBreaks (seen : nat) (s : jstring) : jstring :=
  match s with
  | [] => []
  | c :: r =>
      if (c =? 10)%N then
        if (seen <? 2)%nat then c :: squeezeBreaks (S seen) r
        else squeezeBreaks (S seen) r
      else c :: squeezeBreaks 0 r
  end.

(** [_cleanGeneratedText(text)] *)
Definition _cleanGeneratedText (t : jstring) : jstring :=
  substring0 (squeezeBreaks 0 (stripTags 0 (trim t))) 3000.

(** [_validatePrompt(prompt)] *)
Definition _validatePrompt (prompt : value) : result bool :=
  let required := ["metadata"; "system"; "instructions"; "context"; "constraints"]%string in
  (fix every (fields : list string) : result bool :=
     match fields with
     | [] => Ok true
     | f :: rest =>
         v ← get prompt f;
         if truthy v then every rest else Ok false
     end) required.

(** [_enforceRateLimit()]: the time waited and the generator afterwards. *)
Definition _enforceRateLimit (g : Generator) (w : World) : Z * Generator :=
  let timeSinceLastCall := clock_before w - lastCallTime g in
  (if timeSinceLastCall <? rateLimitDelay g
   then rateLimitDelay g - timeSinceLastCall else 0,
   {| hfToken := hfToken g;
      rateLimitDelay := rateLimitDelay g;
      lastCallTime := clock_after w |}).

(** [items.join(sep)] on an array. *)
Definition join_values (sep : jstring) (items : list value) : jstring :=
  join sep
    (List.map (fun x => match x with
                        | VUndefined | VNull => []
                        | _ => to_string x
                        end) items).

(** [v.map(x => `- ${x}`).join('\n')]: only an array has a [map]. *)
Definition bullets (v : value) : result jstring :=
  match v with
  | VArr items => Ok (join NL (List.map (fun x => js "- " ++ to_string x) items))
  | _ => Throw (TypeError "map")
  end.

(** [_formatMistralPrompt(prompt)] *)
Definition _formatMistralPrompt (prompt : value) : result jstring :=
  system ← get prompt "system";
  instructions ← get prompt "instructions";
  _ ← get prompt "context";
  constraints ← get prompt "constraints";
  task ← get instructions "task";
  context ← get instructions "context";
  contextLines ← bullets context;
  guidelines ← get instructions "guidelines";
  guidelineLines ← bullets guidelines;
  len ← get constraints "length";
  min ← get len "min";
  max ← get len "max";
  unit ← get len "unit";
  formatting ← get constraints "formatting";
  tone ← get formatting "tone";
  structure ← get constraints "structure";
  include ← get structure "include";
  included ← match include with
             | VArr items => Ok (join_values (js ", ") items)
             | _ => Throw (TypeError "join")
             end;
  hashtags ← get formatting "hashtags";
  Ok (js "<s>[INST] " ++ to_string system
      ++ NL ++ NL ++ js "Task: " ++ to_string task
      ++ NL ++ NL ++ js "Context:" ++ NL ++ contextLines
      ++ NL ++ NL ++ js "Guidelines:" ++ NL ++ guidelineLines
      ++ NL ++ NL ++ js "Constraints:"
      ++ NL ++ js "- Length: " ++ to_string min ++ js "-" ++ to_string max
      ++ js " " ++ to_string unit
      ++ NL ++ js "- Tone: " ++ to_string tone
      ++ NL ++ js "- Include: " ++ included
      ++ NL ++ js "- Relevant hashtags: " ++ to_string hashtags
      ++ NL ++ NL ++ js "Generate a professional LinkedIn post. [/INST]").

(** [_generateWithHuggingFace(prompt)]; [None] is [null]. The template is
    rendered and the request sent inside one [try] block, whose handler
    returns [null]. *)
Definition _generateWithHuggingFace (g : Generator) (w : World) (prompt : value)
    : option Draft :=
  match hfToken g with
  | None | Some [] => None
  | Some _ =>
      let attempt : result (option Draft) :=
        formattedPrompt ← _formatMistralPrompt prompt;
        match complete w (VStr formattedPrompt) with
        | Failed st msg => Throw (AxiosError st msg)
        | Completed data =>
            if truthy data then
              d0 ← first data;
              if truthy d0 then
                generated_text ← get d0 "generated_text";
                if truthy generated_text then
                  match generated_text with
                  | VStr t =>
                      Ok (Some {| draft_text := _cleanGeneratedText t;
                                  draft_provider := js "huggingface";
                                  draft_model := text_model;
                                  draft_metadata :=
                                    [("tokens"%string, VNum (jlength t));
                                     ("timestamp"%string, VStr (timestamp w))] |})
                  | _ => Throw (TypeError "trim")
                  end
                else Ok None
              else Ok None
            else Ok None
        end in
      match attempt with
      | Ok r => r
      | Throw _ => None
      end
  end.

(** [_generateFallback(prompt)] *)
Definition _generateFallback (w : World) (prompt : value) : result Draft :=
  metadata ← get prompt "metadata";
  context ← get prompt "context";
  topic ← get metadata "topic";
  summary ← get context "summary";
  excerpt ← match summary with
            | VUndefined | VNull => Ok VUndefined
            | VStr t => Ok (VStr (substring0 t 50))
            | _ => Throw (TypeError "substring")
            end;
  hashtag ← match topic with
            | VStr t => Ok (removeWhitespace t)
            | _ => Throw (TypeError "replace")
            end;
  Ok {| draft_text :=
          js "[PLACEHOLDER: LinkedIn post about " ++ to_string topic ++ js "]"
          ++ NL ++ NL ++ js "[Hook: Opening statement]"
          ++ NL ++ NL ++ js "[Context: "
          ++ to_string (or_else excerpt (VStr (js "Details about signal")))
          ++ js "...]"
          ++ NL ++ NL ++ js "[Call-to-action]"
          ++ NL ++ NL ++ js "#" ++ hashtag ++ js " #Automation";
        draft_provider := js "fallback";
        draft_model := js "template";
        draft_metadata :=
          [("warning"%string,
             VStr (js "Fallback template used - requires manual editing"));
           ("timestamp"%string, VStr (timestamp w))] |}.

(** [_validateOutput(result)] *)
Definition _validateOutput (w : World) (r : Draft) : Generated :=
  {| text := match draft_text r with [] => None | t => Some t end;
     provider := match draft_provider r with [] => js "unknown" | p => p end;
     model := Some (match draft_model r with [] => js "unknown" | m => m end);
     metadata := spread_then (draft_metadata r)
                   [("validated"%string, VBool true);
                    ("timestamp"%string, VStr (timestamp w))] |}.

(** The object returned from the [catch] block of [generate]. *)
Definition failure (e : exn) : Generated :=
  {| text := None;
     provider := js "error";
     model := None;
     metadata := [("error"%string, VStr (message e))] |}.

(** [generate(prompt)]: the returned object and the generator afterwards. *)
Definition generate (g : Generator) (w : World) (prompt : value)
    : Generated * Generator :=
  match _validatePrompt prompt with
  | Throw e => (failure e, g)
  | Ok false => (failure (Error (js "Invalid prompt structure")), g)
  | Ok true =>
      let g' := snd (_enforceRateLimit g w) in
      let draft :=
        match _generateWithHuggingFace g' w prompt with
        | Some r => Ok r
        | None => _generateFallback w prompt
        end in
      match draft with
      | Throw e => (failure e, g')
      | Ok r =>
          let validated := _validateOutput w r in
          match text validated with
          | Some _ => (validated, g')
          | None => (failure (TypeError "length"), g')
          end
      end
  end.

End ContentGenerator.

(* ================================================================== *)
(** * services/linkedinPublisher.js *)
(* ================================================================== *)

Module LinkedInPublisher.

Record Config : Type := {
  apiBaseUrl : list N;
  accessToken : option (list N);
  personUrn : option (list N);
  autoPublish : bool
}.

Inductive Status : Type := pending | published.

Definition status_name (s : Status) : list N :=
  match s with
  | pending => js "pending"
  | published => js "published"
  end.

Record QueueItem : Type := {
  id : list N;
  content : value;
  status : Status;
  createdAt : list N;
  metadata_topic : value;        (* [metadata.topic] *)
  metadata_signalType : value;   (* [metadata.signalType] *)
  publishedAt : option (list N);
  postId : option value
}.

Record Publisher : Type := {
  config : Config;
  queue : list QueueItem
}.

(** [x || null] for an environment variable. *)
Definition env_or_null (x : option (list N)) : option (list N) :=
  match x with
  | Some (c :: t) => Some (c :: t)
  | _ => None
  end.

(** [constructor()] *)
Definition new (LINKEDIN_ACCESS_TOKEN LINKEDIN_PERSON_URN LINKEDIN_AUTO_PUBLISH
                : option (list N)) : Publisher :=
  {| config :=
       {| apiBaseUrl := js "https://api.linkedin.com/v2";
          accessToken := env_or_null LINKEDIN_ACCESS_TOKEN;
          personUrn := env_or_null LINKEDIN_PERSON_URN;
          autoPublish := bool_decide (LINKEDIN_AUTO_PUBLISH = Some (js "true")) |};
     queue := [] |}.

(** [!x] for a credential. *)
Definition absent (x : option (list N)) : bool :=
  match x with
  | Some (_ :: _) => false
  | _ => true
  end.

(** How the request to the publishing endpoint ends. *)
Inductive Response : Type :=
| Rejected (status : option Z) (message : list N)
| Responded (data headers : value).

(** What one call reads from outside. *)
Record World : Type := {
  now : Z;                  (* [Date.now()] *)
  random36 : list N;      (* [Math.random().toString(36)] *)
  timestamp : list N;     (* [new Date().toISOString()] *)
  timestamp_after : list N; (* the same, read once the request is back *)
  post : value -> Response  (* [axios.post(url, sharePayload, ...)] *)
}.

(** The object returned by [_queuePost]. *)
Record Receipt : Type := {
  receipt_queueId : list N;
  receipt_message : list N
}.

(** The objects returned by [publish], [_attemptAutoPublish] and
    [publishFromQueue], by their [status]. In the error case [queueId]
    holds the whole receipt of [_queuePost]. *)
Inductive Outcome : Type :=
| Queued (receipt : Receipt)
| Published (postId : value) (publishedAt url : list N)
| Failed (error fallback : list N) (queueId : Receipt).

Definition outcome_status (o : Outcome) : list N :=
  match o with
  | Queued _ => js "queued"
  | Published _ _ _ => js "published"
  | Failed _ _ _ => js "error"
  end.

(** The queue item [_queuePost] builds. *)
Definition newItem (w : World) (c topic signalType : value) : QueueItem :=
  {| id := js "queue_" ++ dec (now w) ++ js "_" ++ substr (random36 w) 2 9;
     content := c;
     status := pending;
     createdAt := timestamp w;
     metadata_topic := topic;
     metadata_signalType := signalType;
     publishedAt := None;
     postId := None |}.

(** [_queuePost(content)]: what the call returns or throws, and the
    publisher afterwards. The item is pushed once it has been built. *)
Definition _queuePost (p : Publisher) (w : World) (c : value)
    : result Receipt * Publisher :=
  match get c "metadata" with
  | Throw e => (Throw e, p)
  | Ok meta =>
      let queueItem := newItem w c (get_opt meta "topic") (get_opt meta "signalType") in
      (Ok {| receipt_queueId := id queueItem;
             receipt_message :=
               js "Post queued for manual review. Use getQueue() to retrieve pending posts." |},
       {| config := config p; queue := queue p ++ [queueItem] |})
  end.

(** [_validateContent(content)] *)
Definition _validateContent (c : value) : bool :=
  if negb (truthy c) then false
  else match get c "text" with
       | Ok (VStr t) =>
           if jlength t =? 0 then false
           else if jlength t >? 3000 then false
           else true
       | _ => false
       end.

(** The share payload of [_attemptAutoPublish]. *)
Definition sharePayload (p : Publisher) (c : value) : result value :=
  text ← get c "text";
  image ← get c "image";
  let url := get_opt image "url" in
  media ←
    (if truthy url then
       alt ← get image "alt";
       uploadedUrn ← get image "uploadedUrn";
       meta ← get c "metadata";
       Ok [("media"%string,
            VArr [VObj [("status"%string, VStr (js "READY"));
                        ("description"%string,
                          VObj [("text"%string, or_else alt (VStr []))]);
                        ("media"%string, or_else uploadedUrn url);
                        ("title"%string,
                          VObj [("text"%string,
                                 or_else (get_opt meta "topic")
                                   (VStr (js "LinkedIn Post")))])]])]
     else Ok []);
  Ok (VObj
    [("author"%string,
       match personUrn (config p) with Some u => VStr u | None => VNull end);
     ("lifecycleState"%string, VStr (js "PUBLISHED"));
     ("specificContent"%string,
       VObj [("com.linkedin.ugc.ShareContent"%string,
              VObj (spread_then
                [("shareCommentary"%string, VObj [("text"%string, text)]);
                 ("shareMediaCategory"%string,
                   VStr (if truthy url then js "IMAGE" else js "NONE"))]
                media))]);
     ("visibility"%string,
       VObj [("com.linkedin.ugc.MemberNetworkVisibility"%string, VStr (js "PUBLIC"))])]).

(** The handler of the [catch] block of [_attemptAutoPublish]. *)
Definition apiError (e : exn) : exn :=
  match response_status e with
  | Some 401 => Error (js "LinkedIn authentication failed - token may be expired")
  | Some 403 =>
      Error (js "LinkedIn API permissions insufficient - requires w_member_social scope")
  | _ => e
  end.

(** [_attemptAutoPublish(content)]; the queue is not touched. *)
Definition _attemptAutoPublish (p : Publisher) (w : World) (c : value)
    : result Outcome :=
  if absent (accessToken (config p)) || absent (personUrn (config p))
  then Throw (Error (js "LinkedIn credentials not configured"))
  else
    try_catch
      (payload ← sharePayload p c;
       match post w payload with
       | Rejected st msg => Throw (AxiosError st msg)
       | Responded data headers =>
           i ← get data "id";
           pid ← (if truthy i then Ok i else get headers "x-restli-id");
           Ok (Published pid (timestamp w)
                 (js "https://www.linkedin.com/feed/update/" ++ to_string pid ++ js "/"))
       end)
      (fun e => Throw (apiError e)).

(** The [try] block of [publish]. *)
Definition publish_try (p : Publisher) (w : World) (c : value)
    : result Outcome * Publisher :=
  match get c "image" with
  | Throw e => (Throw e, p)
  | Ok _ =>
      if negb (_validateContent c)
      then (Throw (Error (js "Invalid content structure")), p)
      else if negb (autoPublish (config p)) || absent (accessToken (config p))
      then match _queuePost p w c with
           | (Ok r, p') => (Ok (Queued r), p')
           | (Throw e, p') => (Throw e, p')
           end
      else (_attemptAutoPublish p w c, p)
  end.

(** [publish(content)]: the [catch] block queues the content and reports
    the error; an exception of that [_queuePost] leaves [publish]. *)
Definition publish (p : Publisher) (w : World) (c : value)
    : result Outcome * Publisher :=
  match publish_try p w c with
  | (Ok o, p') => (Ok o, p')
  | (Throw e, p') =>
      match _queuePost p' w c with
      | (Ok r, p'') =>
          (Ok (Failed (message e) (js "Content queued for manual review") r), p'')
      | (Throw e', p'') => (Throw e', p'')
      end
  end.

(** [getQueue(status = 'pending')] *)
Definition getQueue (p : Publisher) (wanted : list N) : list QueueItem :=
  if jstring_eqb wanted (js "all") then queue p
  else List.filter (fun item => jstring_eqb (status_name (status item)) wanted) (queue p).

(** [this.queue.find(item => item.id === queueId)] *)
Definition findItem (queueId : list N) (q : list QueueItem) : option QueueItem :=
  List.find (fun item => jstring_eqb (id item) queueId) q.

(** The first item with the given id is marked as published, in place. *)
Fixpoint markPublished (queueId : list N) (at_ : list N) (pid : value)
    (q : list QueueItem) : list QueueItem :=
  match q with
  | [] => []
  | item :: rest =>
      if jstring_eqb (id item) queueId
      then {| id := id item;
              content := content item;
              status := published;
              createdAt := createdAt item;
              metadata_topic := metadata_topic item;
              metadata_signalType := metadata_signalType item;
              publishedAt := Some at_;
              postId := Some pid |} :: rest
      else item :: markPublished queueId at_ pid rest
  end.

(** [result.postId] *)
Definition outcome_postId (o : Outcome) : value :=
  match o with
  | Published pid _ _ => pid
  | _ => VUndefined
  end.

(** [publishFromQueue(queueId)]: what the call returns or throws, and the
    publisher afterwards. The item is updated after the publish attempt has
    returned. *)
Definition publishFromQueue (p : Publisher) (w : World) (queueId : list N)
    : result Outcome * Publisher :=
  match findItem queueId (queue p) with
  | None => (Throw (Error (js "Queue item " ++ queueId ++ js " not found")), p)
  | Some queueItem =>
      match status queueItem with
      | pending =>
          match _attemptAutoPublish p w (content queueItem) with
          | Throw e => (Throw e, p)
          | Ok r =>
              (Ok r, {| config := config p;
                        queue := markPublished queueId (timestamp_after w)
                                   (outcome_postId r) (queue p) |})
          end
      | _ => (Throw (Error (js "Queue item " ++ queueId ++ js " already processed")), p)
      end
  end.

(** [removeFromQueue(queueId)] *)
Fixpoint removeFirst (queueId : list N) (q : list QueueItem) : list QueueItem :=
  match q with
  | [] => []
  | item :: rest =>
      if jstring_eqb (id item) queueId then rest
      else item :: removeFirst queueId rest
  end.

Definition removeFromQueue (p : Publisher) (queueId : list N) : bool * Publisher :=
  match findItem queueId (queue p) with
  | Some _ => (true, {| config := config p; queue := removeFirst queueId (queue p) |})
  | None => (false, p)
  end.

End LinkedInPublisher.

(* ================================================================== *)
(** * services/imagePromptGenerator.js *)
(* ================================================================== *)

Module ImagePromptGenerator.

(** [[a-zA-Z0-9 ]] *)
Definition is_alnum_or_blank (c : N) : bool :=
  ((48 <=? c) && (c <=? 57) || (65 <=? c) && (c <=? 90)
   || (97 <=? c) && (c <=? 122) || (c =? 32))%N.

(** [[a-z]] *)
Definition is_lower (c : N) : bool := ((97 <=? c) && (c <=? 122))%N.

(** [s.match(/\b[a-z]{4,}\b/g)], as the list of the matches: the maximal
    runs of word characters that are made of at least four lower-case
    letters. *)
Definition longWords (s : jstring) : list (list N) :=
  List.filter (fun w => (4 <=? length w)%nat && forallb is_lower w)
    (SignalClassifier.words s).

(** [_extractKeywords(context, postMetadata)] *)
Definition _extractKeywords (context postMetadata : value) : result (list (list N)) :=
  topic ← get postMetadata "topic";
  fromTopic ←
    (if truthy topic then
       match topic with
       | VStr t => Ok [lowerASCII (List.filter is_alnum_or_blank t)]
       | _ => Throw (TypeError "replace")
       end
     else Ok []);
  signalType ← get postMetadata "signalType";
  let fromType :=
    match signalType with
    | VStr t =>
        if jstring_eqb t (js "github")
        then [js "coding"; js "technology"; js "software"]
        else if jstring_eqb t (js "wikipedia")
        then [js "knowledge"; js "learning"; js "education"]
        else [js "professional"; js "business"]
    | _ => [js "professional"; js "business"]
    end in
  summary ← get context "summary";
  fromSummary ←
    (if truthy summary then
       match summary with
       | VStr t => Ok (take 2 (longWords (SignalClassifier.toLowerCase t)))
       | _ => Throw (TypeError "toLowerCase")
       end
     else Ok []);
  Ok (take 5 (unique (fromTopic ++ fromType ++ fromSummary))).

End ImagePromptGenerator.

(* ================================================================== *)
(** * workflows/workflowEngine.js *)
(* ================================================================== *)

Module WorkflowEngine.

(** [executeWorkflow()]: how the call ends and the store afterwards; [w1]
    and [w2] are what the two calls of [recordExecution] read from
    outside. *)
Definition executeWorkflow (stateStore : StateStore.State) (w1 w2 : StateStore.World)
    : result value * StateStore.State :=
  match StateStore.recordExecution stateStore w1 (js "workflow-engine") (js "success")
          [("message"%string, VStr (js "Placeholder execution completed"))] with
  | (Ok _, st1) =>
      (Ok (VObj [("status"%string, VStr (js "success"));
                 ("message"%string,
                   VStr (js "Workflow engine initialized - awaiting implementation"))]),
       st1)
  | (Throw error, st1) =>
      match StateStore.recordExecution st1 w2 (js "workflow-engine") (js "error")
              [("error"%string, VStr (message error))] with
      | (Ok _, st2) => (Throw error, st2)
      | (Throw error', st2) => (Throw error', st2)
      end
  end.

End WorkflowEngine.

(* ================================================================== *)
(** * Properties *)
(* ================================================================== *)

(** ** White space *)

(** A string is tidy when its only white-space character is the space and no
    two of them are adjacent. *)
Fixpoint tidy (s : jstring) : Prop :=
  match s with
  | [] => True
  | c :: r =>
      (is_space c = true ->
       c = SPACE /\ match r with [] => True | c' :: _ => is_space c' = false end)
      /\ tidy r
  end.

(** The first character, if any, is not white space. *)
Definition head_ok (s : jstring) : Prop :=
  match s with
  | [] => True
  | c :: _ => is_space c = false
  end.

(** The store after every signal of a list has been marked as processed,
    each under its own metadata. *)
Definition markSignals (st : StateStore.State)
    (marks : list (StateStore.World * GitHubTrigger.Signal * list (string * value)))
    : StateStore.State :=
  fold_left
    (fun s m => snd (StateStore.markProcessed s (fst (fst m))
                       (GitHubTrigger.id (snd (fst m))) (snd m)))
    marks st.

(** No three line breaks in a row. *)
Fixpoint spaced (s : jstring) : Prop :=
  match s with
  | a :: ((b :: c :: _) as r) => ~ (a = 10%N /\ b = 10%N /\ c = 10%N) /\ spaced r
  | _ => True
  end.

(** A published item carries its publication time and post id, and a
    pending item neither. *)
Definition item_consistent (item : LinkedInPublisher.QueueItem) : Prop :=
  match LinkedInPublisher.status item with
  | LinkedInPublisher.pending =>
      LinkedInPublisher.publishedAt item = None /\ LinkedInPublisher.postId item = None
  | LinkedInPublisher.published =>
      LinkedInPublisher.publishedAt item <> None /\ LinkedInPublisher.postId item <> None
  end.

(** The publishers a program can reach from [new] by the public methods
    and by [_queuePost]. *)
Inductive reachable : LinkedInPublisher.Publisher -> Prop :=
| reach_new token urn auto : reachable (LinkedInPublisher.new token urn auto)
| reach_queuePost p w c :
    reachable p -> reachable (snd (LinkedInPublisher._queuePost p w c))
| reach_publish p w c :
    reachable p -> reachable (snd (LinkedInPublisher.publish p w c))
| reach_publishFromQueue p w queueId :
    reachable p -> reachable (snd (LinkedInPublisher.publishFromQueue p w queueId))
| reach_removeFromQueue p queueId :
    reachable p -> reachable (snd (LinkedInPublisher.removeFromQueue p queueId)).

(** The publisher [p'] is [p] with one more item at the end of the queue:
    pending, holding the content [c], under the non-empty id [queueId]. *)
Definition enqueued (p p' : LinkedInPublisher.Publisher) (c : value)
    (queueId : list N) : Prop :=
  exists item,
    LinkedInPublisher.queue p' = LinkedInPublisher.queue p ++ [item]
    /\ LinkedInPublisher.config p' = LinkedInPublisher.config p
    /\ LinkedInPublisher.id item = queueId
    /\ queueId <> []
    /\ LinkedInPublisher.status item = LinkedInPublisher.pending
    /\ LinkedInPublisher.content item = c
    /\ LinkedInPublisher.getQueue p' (js "pending")
       = LinkedInPublisher.getQueue p (js "pending") ++ [item].

Lemma is_space_DOT : is_space DOT = false.
Proof. reflexivity. Qed.

Lemma collapseWhitespace_space_space c c' r :
  is_space c = true -> is_space c' = true ->
  collapseWhitespace (c :: c' :: r) = collapseWhitespace (c' :: r).
Proof.
  intros Hc Hc'. change (collapseWhitespace (c :: c' :: r)) with
    (if is_space c then
       if is_space c' then collapseWhitespace (c' :: r)
       else SPACE :: collapseWhitespace (c' :: r)
     else c :: collapseWhitespace (c' :: r)).
  rewrite Hc, Hc'. reflexivity.
Qed.

Lemma collapseWhitespace_space_other c c' r :
  is_space c = true -> is_space c' = false ->
  collapseWhitespace (c :: c' :: r) = SPACE :: c' :: collapseWhitespace r.
Proof.
  intros Hc Hc'. change (collapseWhitespace (c :: c' :: r)) with
    (if is_space c then
       if is_space c' then collapseWhitespace (c' :: r)
       else SPACE :: collapseWhitespace (c' :: r)
     else c :: collapseWhitespace (c' :: r)).
  rewrite Hc, Hc'. simpl. rewrite Hc'. reflexivity.
Qed.

Lemma collapseWhitespace_other c r :
  is_space c = false ->
  collapseWhitespace (c :: r) = c :: collapseWhitespace r.
Proof. intros Hc. simpl. rewrite Hc. reflexivity. Qed.

Lemma collapseWhitespace_tidy s : tidy (collapseWhitespace s).
Proof.
  induction s as [|c r IH]; [exact I|].
  destruct (is_space c) eqn:Hc.
  - destruct r as [|c' r'].
    + simpl. rewrite Hc. simpl. auto.
    + destruct (is_space c') eqn:Hc'.
      * rewrite collapseWhitespace_space_space by assumption. exact IH.
      * rewrite collapseWhitespace_space_other by assumption.
        rewrite collapseWhitespace_other in IH by assumption.
        split; [|exact IH]. intros _. split; [reflexivity|exact Hc'].
  - rewrite collapseWhitespace_other by assumption.
    split; [|exact IH]. intros H. simpl in H. congruence.
Qed.

Lemma tidy_collapseWhitespace s : tidy s -> collapseWhitespace s = s.
Proof.
  induction s as [|c r IH]; [reflexivity|].
  intros [Hc Hr]. specialize (IH Hr).
  destruct (is_space c) eqn:Ec.
  - destruct (Hc eq_refl) as [-> Hn].
    destruct r as [|c' r']; [reflexivity|].
    rewrite collapseWhitespace_space_other by assumption.
    rewrite collapseWhitespace_other in IH by assumption.
    injection IH as IH. rewrite IH. reflexivity.
  - rewrite collapseWhitespace_other by assumption. rewrite IH. reflexivity.
Qed.

Lemma tidy_tail c r : tidy (c :: r) -> tidy r.
Proof. intros [_ H]. exact H. Qed.

Lemma tidy_trimStart s : tidy s -> tidy (trimStart s).
Proof.
  induction s as [|c r IH]; [trivial|].
  intros H. simpl. destruct (is_space c); [apply IH, (tidy_tail _ _ H)|exact H].
Qed.

Lemma trimEnd_cons c r :
  trimEnd (c :: r) =
  match trimEnd r with
  | [] => if is_space c then [] else [c]
  | _ :: _ => c :: trimEnd r
  end.
Proof. simpl. destruct (trimEnd r); reflexivity. Qed.

Lemma trimEnd_head c r c' r' :
  trimEnd (c :: r) = c' :: r' -> c' = c.
Proof.
  rewrite trimEnd_cons. destruct (trimEnd r); [destruct (is_space c)|]; congruence.
Qed.

Lemma tidy_trimEnd s : tidy s -> tidy (trimEnd s).
Proof.
  induction s as [|c r IH]; [trivial|].
  intros [Hc Hr]. specialize (IH Hr). rewrite trimEnd_cons.
  destruct (trimEnd r) as [|x t] eqn:E.
  - destruct (is_space c) eqn:Ec; [exact I|].
    split; [intros H; simpl in H; congruence|exact I].
  - split; [|exact IH]. intros H. destruct (Hc H) as [-> Hn].
    split; [reflexivity|].
    destruct r as [|c' r']; [discriminate E|].
    rewrite (trimEnd_head _ _ _ _ E). exact Hn.
Qed.

Lemma tidy_take n s : tidy s -> tidy (take n s).
Proof.
  revert s. induction n as [|n IH]; intros [|c r]; simpl; trivial.
  intros [Hc Hr]. split; [|apply IH, Hr].
  intros H. destruct (Hc H) as [-> Hn]. split; [reflexivity|].
  destruct r as [|c' r']; destruct n; simpl; trivial.
Qed.

Lemma tidy_app_word s w :
  tidy s -> tidy w -> match w with [] => True | c :: _ => is_space c = false end ->
  tidy (s ++ w).
Proof.
  intros Hs Hw Hhd. induction s as [|c r IH]; [exact Hw|].
  destruct Hs as [Hc Hr]. simpl. split; [|apply IH, Hr].
  intros H. destruct (Hc H) as [-> Hn]. split; [reflexivity|].
  destruct r as [|c' r']; simpl; [|exact Hn].
  destruct w; trivial.
Qed.

Lemma head_ok_trimStart s : head_ok (trimStart s).
Proof.
  induction s as [|c r IH]; [exact I|].
  simpl. destruct (is_space c) eqn:E; [exact IH|exact E].
Qed.

Lemma trimStart_head_ok s : head_ok s -> trimStart s = s.
Proof. destruct s as [|c r]; [reflexivity|]. simpl. intros ->. reflexivity. Qed.

Lemma head_ok_trimEnd s : head_ok s -> head_ok (trimEnd s).
Proof.
  destruct s as [|c r]; [trivial|]. intros H.
  destruct (trimEnd (c :: r)) as [|x t] eqn:E; [exact I|].
  rewrite (trimEnd_head _ _ _ _ E). exact H.
Qed.

Lemma trimEnd_idempotent s : trimEnd (trimEnd s) = trimEnd s.
Proof.
  induction s as [|c r IH]; [reflexivity|].
  rewrite trimEnd_cons. destruct (trimEnd r) as [|x t] eqn:E.
  - destruct (is_space c) eqn:Ec; [reflexivity|]. simpl. rewrite Ec. reflexivity.
  - rewrite trimEnd_cons, IH. reflexivity.
Qed.

Lemma trimEnd_app_word s c w :
  trimEnd (c :: w) = c :: w -> trimEnd (s ++ c :: w) = s ++ c :: w.
Proof.
  intros H. induction s as [|a r IH]; [exact H|].
  rewrite <- app_comm_cons, trimEnd_cons, IH.
  destruct r; reflexivity.
Qed.

Lemma trim_fixed s : head_ok s -> trimEnd s = s -> trim s = s.
Proof. intros H1 H2. unfold trim. rewrite trimStart_head_ok; assumption. Qed.

Lemma trim_head_ok s : head_ok (trim s).
Proof. apply head_ok_trimEnd, head_ok_trimStart. Qed.

Lemma trimEnd_trim s : trimEnd (trim s) = trim s.
Proof. apply trimEnd_idempotent. Qed.

Lemma removeWhitespace_collapseWhitespace s :
  removeWhitespace (collapseWhitespace s) = removeWhitespace s.
Proof.
  induction s as [|c r IH]; [reflexivity|].
  destruct (is_space c) eqn:Hc.
  - destruct r as [|c' r'].
    + simpl. rewrite Hc. reflexivity.
    + destruct (is_space c') eqn:Hc'.
      * rewrite collapseWhitespace_space_space by assumption.
        rewrite IH. unfold removeWhitespace. simpl. rewrite Hc. reflexivity.
      * rewrite collapseWhitespace_space_other by assumption.
        rewrite collapseWhitespace_other in IH by assumption.
        unfold removeWhitespace in *. simpl in *. rewrite Hc. rewrite Hc' in *.
        simpl in *. exact IH.
  - rewrite collapseWhitespace_other by assumption.
    unfold removeWhitespace in *. simpl. rewrite Hc. simpl. rewrite IH. reflexivity.
Qed.

Lemma removeWhitespace_trimStart s :
  removeWhitespace (trimStart s) = removeWhitespace s.
Proof.
  induction s as [|c r IH]; [reflexivity|].
  unfold removeWhitespace in *. simpl.
  destruct (is_space c) eqn:E; simpl; [exact IH|rewrite E; reflexivity].
Qed.

Lemma removeWhitespace_trimEnd s :
  removeWhitespace (trimEnd s) = removeWhitespace s.
Proof.
  induction s as [|c r IH]; [reflexivity|].
  rewrite trimEnd_cons. unfold removeWhitespace in *.
  destruct (trimEnd r) as [|x t] eqn:E.
  - simpl in *. rewrite <- IH.
    destruct (is_space c) eqn:Ec; simpl; [|rewrite Ec]; reflexivity.
  - simpl in *. rewrite <- IH. reflexivity.
Qed.

(** Text without white space is left alone by the cleaning step. *)
Lemma solid_Forall s :
  forallb (fun c => negb (is_space c)) s = true ->
  Forall (fun c => is_space c = false) s.
Proof.
  induction s as [|c r IH]; simpl; [constructor|].
  intros [Hc Hr]%andb_prop. constructor; [|apply IH, Hr].
  destruct (is_space c); [discriminate|reflexivity].
Qed.

Lemma collapseWhitespace_solid s :
  Forall (fun c => is_space c = false) s -> collapseWhitespace s = s.
Proof.
  induction 1 as [|c r Hc _ IH]; [reflexivity|].
  rewrite collapseWhitespace_other by assumption. rewrite IH. reflexivity.
Qed.

Lemma trimEnd_solid s :
  Forall (fun c => is_space c = false) s -> trimEnd s = s.
Proof.
  induction 1 as [|c r Hc _ IH]; [reflexivity|].
  rewrite trimEnd_cons, IH. destruct r; [rewrite Hc|]; reflexivity.
Qed.

Lemma cleaned_solid s :
  Forall (fun c => is_space c = false) s -> DataNormalizer.cleaned s = s.
Proof.
  intros H. unfold DataNormalizer.cleaned.
  rewrite collapseWhitespace_solid by assumption.
  apply trim_fixed; [|apply trimEnd_solid, H].
  destruct H; [exact I|assumption].
Qed.

Lemma cleaned_tidy s : tidy (DataNormalizer.cleaned s).
Proof. apply tidy_trimEnd, tidy_trimStart, collapseWhitespace_tidy. Qed.

Lemma cleaned_fixed s :
  tidy s -> head_ok s -> trimEnd s = s -> DataNormalizer.cleaned s = s.
Proof.
  intros Ht Hh He. unfold DataNormalizer.cleaned.
  rewrite tidy_collapseWhitespace by assumption. apply trim_fixed; assumption.
Qed.

Lemma cleaned_idempotent s :
  DataNormalizer.cleaned (DataNormalizer.cleaned s) = DataNormalizer.cleaned s.
Proof.
  apply cleaned_fixed.
  - apply cleaned_tidy.
  - apply trim_head_ok.
  - apply trimEnd_trim.
Qed.

(** The truncated form is already clean. *)
Lemma cleaned_truncated s k :
  DataNormalizer.cleaned (take k (DataNormalizer.cleaned s) ++ DataNormalizer.ellipsis)
  = take k (DataNormalizer.cleaned s) ++ DataNormalizer.ellipsis.
Proof.
  apply cleaned_fixed.
  - apply tidy_app_word.
    + apply tidy_take, cleaned_tidy.
    + simpl. rewrite is_space_DOT. repeat split; intros; congruence.
    + reflexivity.
  - pose proof (trim_head_ok (collapseWhitespace s)) as Hh.
    fold (DataNormalizer.cleaned s) in Hh.
    destruct (DataNormalizer.cleaned s) as [|c r]; destruct k; simpl; trivial;
      reflexivity.
  - apply trimEnd_app_word. reflexivity.
Qed.

(** ** The sanitization rule *)

Lemma sanitizeText_nonempty x m :
  x <> [] ->
  DataNormalizer.sanitizeText x m =
  if jlength (DataNormalizer.cleaned x) >? m
  then substring0 (DataNormalizer.cleaned x) (m - 3) ++ DataNormalizer.ellipsis
  else DataNormalizer.cleaned x.
Proof. destruct x; [congruence|reflexivity]. Qed.

Lemma truncated_length s m :
  3 <= m -> jlength s > m ->
  jlength (substring0 s (m - 3) ++ DataNormalizer.ellipsis) = m.
Proof.
  unfold jlength, substring0. intros Hm Hs.
  rewrite length_app, length_take. simpl. lia.
Qed.

(** C6, the law as the code has it: a cap of at least three characters
    leaves room for the marker. Longer text is cut to exactly the cap and ends
    with the marker; shorter text is returned cleaned, which keeps every
    character that is not white space; 600 characters without white space
    become 500, the last three being the marker. *)
Theorem sanitizeText_truncation_law (x : jstring) (maxLength : Z) :
  3 <= maxLength ->
  (jlength (DataNormalizer.cleaned x) > maxLength ->
     jlength (DataNormalizer.sanitizeText x maxLength) = maxLength
     /\ DataNormalizer.sanitizeText x maxLength
        = take (Z.to_nat (maxLength - 3)) (DataNormalizer.cleaned x)
          ++ DataNormalizer.ellipsis)
  /\ (jlength (DataNormalizer.cleaned x) <= maxLength ->
     DataNormalizer.sanitizeText x maxLength = DataNormalizer.cleaned x
     /\ removeWhitespace (DataNormalizer.sanitizeText x maxLength)
        = removeWhitespace x)
  /\ (forallb (fun c => negb (is_space c)) x = true -> jlength x = 600 ->
     jlength (DataNormalizer.sanitizeText x DataNormalizer.maxContextLength) = 500
     /\ drop 497 (DataNormalizer.sanitizeText x DataNormalizer.maxContextLength)
        = DataNormalizer.ellipsis).
Proof.
  intros Hm.
  assert (Hlong : forall y n, 3 <= n -> jlength (DataNormalizer.cleaned y) > n ->
    jlength (DataNormalizer.sanitizeText y n) = n
    /\ DataNormalizer.sanitizeText y n
       = take (Z.to_nat (n - 3)) (DataNormalizer.cleaned y) ++ DataNormalizer.ellipsis).
  { intros y n Hn Hy.
    assert (y <> []) as Hne.
    { intros ->. unfold jlength in Hy. simpl in Hy. lia. }
    rewrite sanitizeText_nonempty by assumption.
    destruct (Z.gtb_spec (jlength (DataNormalizer.cleaned y)) n) as [_|Hle]; [|lia].
    split; [apply truncated_length; assumption|reflexivity]. }
  split; [apply Hlong, Hm|]. split.
  - intros Hle.
    assert (DataNormalizer.sanitizeText x maxLength = DataNormalizer.cleaned x) as ->.
    { destruct x as [|c r]; [reflexivity|].
      rewrite sanitizeText_nonempty by discriminate.
      destruct (Z.gtb_spec (jlength (DataNormalizer.cleaned (c :: r))) maxLength);
        [lia|reflexivity]. }
    split; [reflexivity|]. unfold DataNormalizer.cleaned, trim.
    rewrite removeWhitespace_trimEnd, removeWhitespace_trimStart.
    apply removeWhitespace_collapseWhitespace.
  - intros Hsolid Hlen. apply solid_Forall in Hsolid.
    destruct (Hlong x DataNormalizer.maxContextLength) as [Hl Heq].
    + unfold DataNormalizer.maxContextLength. lia.
    + rewrite cleaned_solid by assumption.
      unfold DataNormalizer.maxContextLength. lia.
    + split; [exact Hl|]. rewrite Heq. rewrite cleaned_solid by assumption.
      rewrite drop_app_length'; [reflexivity|].
      rewrite length_take. unfold jlength, DataNormalizer.maxContextLength in *.
      lia.
Qed.

(** C6 at a concrete input: the 600-character scenario and a short text. *)
Lemma sanitizeText_truncation_law_witness :
  jlength (DataNormalizer.sanitizeText (repeat 97%N 600) DataNormalizer.maxContextLength)
  = 500
  /\ drop 497 (DataNormalizer.sanitizeText (repeat 97%N 600) DataNormalizer.maxContextLength)
     = DataNormalizer.ellipsis.
Proof.
  apply (sanitizeText_truncation_law (repeat 97%N 600) 500).
  - lia.
  - vm_compute. reflexivity.
  - vm_compute. reflexivity.
Defined.

(** C6 as stated fails for a cap below three: the marker alone is longer
    than the cap. *)
Lemma sanitizeText_cap_two_counterexample :
  jlength (DataNormalizer.cleaned (js "abcdef")) > 2
  /\ DataNormalizer.sanitizeText (js "abcdef") 2 = DataNormalizer.ellipsis
  /\ jlength (DataNormalizer.sanitizeText (js "abcdef") 2) <> 2.
Proof. repeat split; vm_compute; congruence. Qed.

(** C7: sanitizing is idempotent, for every string and every cap. *)
Theorem sanitizeText_idempotent (x : jstring) (maxLength : Z) :
  DataNormalizer.sanitizeText (DataNormalizer.sanitizeText x maxLength) maxLength
  = DataNormalizer.sanitizeText x maxLength.
Proof.
  destruct x as [|c r]; [reflexivity|].
  rewrite (sanitizeText_nonempty (c :: r)) by discriminate.
  set (cl := DataNormalizer.cleaned (c :: r)).
  destruct (Z.gtb_spec (jlength cl) maxLength) as [Hgt|Hle].
  - unfold substring0.
    rewrite sanitizeText_nonempty.
    2:{ intros H. apply (f_equal (@length N)) in H.
        rewrite length_app in H. simpl in H. lia. }
    unfold cl. rewrite cleaned_truncated. fold cl.
    destruct (Z_lt_le_dec maxLength 3) as [Hsmall|Hbig].
    + replace (Z.to_nat (maxLength - 3)) with 0%nat by lia. simpl.
      destruct (Z.gtb_spec (jlength DataNormalizer.ellipsis) maxLength) as [_|H].
      * unfold substring0. replace (Z.to_nat (maxLength - 3)) with 0%nat by lia.
        reflexivity.
      * unfold jlength in H. simpl in H. lia.
    + pose proof (truncated_length cl maxLength Hbig ltac:(lia)) as Hl.
      unfold substring0 in Hl. rewrite Hl.
      destruct (Z.gtb_spec maxLength maxLength); [lia|reflexivity].
  - destruct cl as [|c' r'] eqn:E; [reflexivity|].
    rewrite sanitizeText_nonempty by discriminate.
    rewrite <- E. unfold cl. rewrite cleaned_idempotent. fold cl.
    destruct (Z.gtb_spec (jlength cl) maxLength); [|reflexivity].
    rewrite E in *. lia.
Qed.

(** ** The ledger *)

Lemma hasProcessed_present st signalId :
  StateStore.hasProcessed st signalId = true
  <-> is_Some (StateStore.processed st !! signalId).
Proof.
  unfold StateStore.hasProcessed.
  destruct (StateStore.processed st !! signalId) as [entry|]; simpl; split;
    intros H; try discriminate; eauto.
  destruct H as [x H]. discriminate H.
Qed.

(** Every mutating call of the store ends in the [TypeError] of its log
    line, after the state has been updated. *)
Lemma save_throws w : StateStore.save w = Throw (TypeError "error").
Proof. unfold StateStore.save. destruct (StateStore.writeFileSync w); reflexivity. Qed.

Lemma markProcessed_throws st w signalId meta :
  fst (StateStore.markProcessed st w signalId meta) = Throw (TypeError "error").
Proof. unfold StateStore.markProcessed. simpl. rewrite save_throws. reflexivity. Qed.

Lemma recordExecution_throws st w workflow status details :
  fst (StateStore.recordExecution st w workflow status details)
  = Throw (TypeError "error").
Proof. unfold StateStore.recordExecution. simpl. rewrite save_throws. reflexivity. Qed.

Lemma markProcessed_present st w signalId meta :
  StateStore.processed (snd (StateStore.markProcessed st w signalId meta)) !! signalId
  = Some (spread_then [("timestamp"%string, VStr (StateStore.now w))] meta).
Proof. simpl. apply lookup_insert_eq. Qed.

Lemma markProcessed_keeps st w signalId meta other :
  StateStore.hasProcessed st other = true ->
  StateStore.hasProcessed (snd (StateStore.markProcessed st w signalId meta)) other = true.
Proof.
  rewrite !hasProcessed_present. simpl. intros H.
  destruct (decide (signalId = other)) as [->|Hne].
  - rewrite lookup_insert_eq. eauto.
  - rewrite lookup_insert_ne by assumption. exact H.
Qed.

Lemma filter_unprocessed st (l : list GitHubTrigger.Signal) :
  Forall (fun s => StateStore.hasProcessed st (GitHubTrigger.id s) = false)
    (List.filter (fun s => negb (StateStore.hasProcessed st (GitHubTrigger.id s))) l).
Proof.
  apply List.Forall_forall. intros s Hs. apply List.filter_In in Hs.
  destruct Hs as [_ Hs]. destruct (StateStore.hasProcessed st _); [discriminate|reflexivity].
Qed.

(** Every signal of a detection pass is new to the ledger. *)
Lemma detectSignals_unprocessed st api signals :
  GitHubTrigger.detectSignals st api = Ok signals ->
  Forall (fun s => StateStore.hasProcessed st (GitHubTrigger.id s) = false) signals.
Proof.
  unfold GitHubTrigger.detectSignals.
  destruct (GitHubTrigger.fetchRecentCommits api) as [commits|e]; simpl; [|discriminate].
  intros [= <-]. repeat apply Forall_app_2.
  - apply filter_unprocessed.
  - destruct (GitHubTrigger.fetchReadme api) as [readme|e]; [|constructor].
    destruct (StateStore.hasProcessed st _) eqn:E; simpl; constructor; [exact E|constructor].
  - destruct (GitHubTrigger.fetchRecentIssues api) as [issues|e]; [|constructor].
    apply filter_unprocessed.
Qed.

(** A pass returns whenever the commit request is answered. *)
Lemma detectSignals_returns st api commits :
  GitHubTrigger.fetchRecentCommits api = Ok commits ->
  exists signals, GitHubTrigger.detectSignals st api = Ok signals.
Proof.
  intros H. unfold GitHubTrigger.detectSignals. rewrite H. simpl. eauto.
Qed.

(** C1: in the state [markProcessed] leaves behind, the id is reported
    as processed, whatever the metadata; an id present in the ledger, and so
    an id just marked, is absent from the signals of a later detection pass,
    whose signals are all new to the ledger. *)
Theorem ledger_idempotency (st : StateStore.State) (signalId : list N) :
  (forall w meta,
     StateStore.hasProcessed (snd (StateStore.markProcessed st w signalId meta)) signalId
     = true)
  /\ (forall api signals,
        is_Some (StateStore.processed st !! signalId) ->
        GitHubTrigger.detectSignals st api = Ok signals ->
        ~ In signalId (List.map GitHubTrigger.id signals))
  /\ (forall w meta api signals,
        GitHubTrigger.detectSignals (snd (StateStore.markProcessed st w signalId meta)) api
        = Ok signals ->
        ~ In signalId (List.map GitHubTrigger.id signals))
  /\ (forall api signals s,
        GitHubTrigger.detectSignals st api = Ok signals -> In s signals ->
        StateStore.processed st !! GitHubTrigger.id s = None).
Proof.
  assert (Hmark : forall w meta,
    StateStore.hasProcessed (snd (StateStore.markProcessed st w signalId meta)) signalId
    = true).
  { intros w meta. apply hasProcessed_present.
    rewrite markProcessed_present. eauto. }
  assert (Hskip : forall st' api signals,
    StateStore.hasProcessed st' signalId = true ->
    GitHubTrigger.detectSignals st' api = Ok signals ->
    ~ In signalId (List.map GitHubTrigger.id signals)).
  { intros st' api signals Hp Hd Hin.
    apply List.in_map_iff in Hin. destruct Hin as [s [Hid Hs]].
    pose proof (detectSignals_unprocessed _ _ _ Hd) as Hall.
    rewrite List.Forall_forall in Hall. specialize (Hall s Hs).
    rewrite Hid in Hall. congruence. }
  split; [exact Hmark|]. split; [|split].
  - intros api signals Hp. apply Hskip. apply hasProcessed_present, Hp.
  - intros w meta api signals. apply Hskip, Hmark.
  - intros api signals s Hd Hs.
    pose proof (detectSignals_unprocessed _ _ _ Hd) as Hall.
    rewrite List.Forall_forall in Hall. specialize (Hall s Hs).
    destruct (StateStore.processed st !! GitHubTrigger.id s) eqn:E; [|reflexivity].
    assert (StateStore.hasProcessed st (GitHubTrigger.id s) = true) as Ht.
    { apply hasProcessed_present. rewrite E. eauto. }
    congruence.
Qed.

(** C1 on the scenario of the specification: the ledger holds
    ["commit:abc"], the commit comes back from the API together with a new
    one, and only the new one is detected. *)
Lemma ledger_idempotency_witness :
  let st :=
    snd (StateStore.markProcessed StateStore.empty
           {| StateStore.now := js "2024-01-01T00:00:00.000Z";
              StateStore.writeFileSync := Ok tt |}
           (js "commit:abc") []) in
  let commit sha :=
    {| GitHubTrigger.commit_sha := sha;
       GitHubTrigger.commit_message := js "feat: add queue";
       GitHubTrigger.commit_author_name := js "dev";
       GitHubTrigger.commit_author_date := js "2024-01-01";
       GitHubTrigger.commit_html_url := js "https://example.org";
       GitHubTrigger.commit_files := None |} in
  let api :=
    {| GitHubTrigger.fetchRecentCommits := Ok [commit (js "abc"); commit (js "def")];
       GitHubTrigger.fetchReadme := Throw (AxiosError (Some 404) (js "Not Found"));
       GitHubTrigger.fetchRecentIssues := Ok [] |} in
  ~ In (js "commit:abc") (List.map GitHubTrigger.id [GitHubTrigger.commitSignal (commit (js "def"))]).
Proof.
  intros st commit api.
  apply (proj1 (proj2 (ledger_idempotency st (js "commit:abc"))) api).
  - unfold st. rewrite markProcessed_present. eauto.
  - unfold GitHubTrigger.detectSignals, api. simpl.
    unfold StateStore.hasProcessed, st. simpl.
    rewrite lookup_insert_eq. rewrite lookup_insert_ne by (vm_compute; congruence).
    rewrite lookup_empty. reflexivity.
Defined.

(** ** The audit trail *)

Lemma slice_last_short {A} n (l : list A) :
  (length l <= n)%nat -> StateStore.slice_last n l = l.
Proof.
  intros H. unfold StateStore.slice_last.
  replace (length l - n)%nat with 0%nat by lia. reflexivity.
Qed.

Lemma slice_last_length {A} n (l : list A) :
  length (StateStore.slice_last n l) = Nat.min n (length l).
Proof. unfold StateStore.slice_last. rewrite length_drop. lia. Qed.

Lemma slice_last_app {A} n (l m : list A) :
  StateStore.slice_last n (StateStore.slice_last n l ++ m) = StateStore.slice_last n (l ++ m).
Proof.
  destruct (le_lt_dec (length l) n) as [Hle|Hgt].
  - rewrite (slice_last_short n l) by assumption. reflexivity.
  - unfold StateStore.slice_last. rewrite !length_app, length_drop.
    rewrite <- (drop_app_le l m (length l - n)) by lia.
    rewrite drop_drop. f_equal. lia.
Qed.

(** One call appends its entry and keeps the last hundred. *)
Lemma record_executions st c :
  StateStore.executions (StateStore.record st c)
  = StateStore.slice_last 100 (StateStore.executions st ++ [StateStore.entry_of c]).
Proof.
  unfold StateStore.record, StateStore.recordExecution, StateStore.entry_of. simpl.
  destruct (Nat.ltb_spec 100
    (length (StateStore.executions st ++
       [VObj (spread_then
          [("workflow"%string, VStr (StateStore.call_workflow c));
           ("status"%string, VStr (StateStore.call_status c));
           ("timestamp"%string, VStr (StateStore.now (StateStore.call_world c)))]
          (StateStore.call_details c))]))) as [Hlt|Hge].
  - reflexivity.
  - symmetry. apply slice_last_short. exact Hge.
Qed.

Lemma record_bounded st c :
  (length (StateStore.executions (StateStore.record st c)) <= 100)%nat.
Proof. rewrite record_executions, slice_last_length. lia. Qed.

Lemma recordAll_executions st calls :
  (length (StateStore.executions st) <= 100)%nat ->
  StateStore.executions (StateStore.recordAll st calls)
  = StateStore.slice_last 100
      (StateStore.executions st ++ List.map StateStore.entry_of calls).
Proof.
  revert st. induction calls as [|c calls IH]; intros st Hst.
  - simpl. rewrite app_nil_r. symmetry. apply slice_last_short, Hst.
  - unfold StateStore.recordAll in *. simpl.
    rewrite IH by apply record_bounded.
    rewrite record_executions, slice_last_app, <- app_assoc. reflexivity.
Qed.

(** C8: from a trail of at most a hundred entries, any sequence of calls
    leaves at most a hundred entries, and they are the last hundred of the
    old entries followed by the new ones, in the order of insertion. The
    trail is the one each call leaves behind, however the call ends. *)
Theorem audit_trail_bound (st : StateStore.State) (calls : list StateStore.Call) :
  (length (StateStore.executions st) <= 100)%nat ->
  (length (StateStore.executions (StateStore.recordAll st calls)) <= 100)%nat
  /\ StateStore.executions (StateStore.recordAll st calls)
     = StateStore.slice_last 100
         (StateStore.executions st ++ List.map StateStore.entry_of calls).
Proof.
  intros Hst. rewrite recordAll_executions by assumption.
  split; [|reflexivity]. rewrite slice_last_length. lia.
Qed.

(** C8 at a concrete trail: a hundred and one calls on the empty store
    evict the first entry. *)
Lemma audit_trail_bound_witness :
  let call n :=
    {| StateStore.call_world :=
         {| StateStore.now := dec (Z.of_nat n); StateStore.writeFileSync := Ok tt |};
       StateStore.call_workflow := js "workflow-engine";
       StateStore.call_status := js "success";
       StateStore.call_details := [] |} in
  let calls := List.map call (seq 0 101) in
  (length (StateStore.executions (StateStore.recordAll StateStore.empty calls)) <= 100)%nat
  /\ StateStore.executions (StateStore.recordAll StateStore.empty calls)
     = List.map StateStore.entry_of (List.map call (seq 1 100)).
Proof.
  intros call calls.
  destruct (audit_trail_bound StateStore.empty calls) as [Hlen Heq].
  - simpl. lia.
  - split; [exact Hlen|]. rewrite Heq. reflexivity.
Defined.

(** ** The classifier *)

Lemma clamp_bounds (c : Q) :
  (3 # 10 <= SignalClassifier.clamp c)%Q /\ (SignalClassifier.clamp c <= 1)%Q.
Proof.
  unfold SignalClassifier.clamp. split.
  - apply Q.le_max_l.
  - apply Q.max_lub; [unfold Qle; simpl; lia|apply Q.le_min_l].
Qed.

Lemma classifyCommit_clamped s c :
  SignalClassifier.classifyCommit s = Ok c ->
  exists adjustment,
    SignalClassifier.confidence c
    = SignalClassifier.clamp (GitHubTrigger.confidence s + adjustment)%Q.
Proof.
  unfold SignalClassifier.classifyCommit.
  destruct (GitHubTrigger.data s); try discriminate.
  repeat match goal with
         | |- context [if ?b then _ else _] => destruct b
         end; intros [= <-]; simpl; eauto.
Qed.

Lemma classifyIssue_clamped s c :
  SignalClassifier.classifyIssue s = Ok c ->
  exists adjustment,
    SignalClassifier.confidence c
    = SignalClassifier.clamp (GitHubTrigger.confidence s + adjustment)%Q.
Proof.
  unfold SignalClassifier.classifyIssue.
  destruct (GitHubTrigger.data s); try discriminate.
  repeat match goal with
         | |- context [if ?b then _ else _] => destruct b; simpl
         end; intros [= <-]; simpl; eauto.
Qed.

Lemma classify_commit s :
  GitHubTrigger.type s = js "commit" ->
  SignalClassifier.classify s = SignalClassifier.classifyCommit s.
Proof. intros H. unfold SignalClassifier.classify. rewrite H. reflexivity. Qed.

Lemma classify_readme s :
  GitHubTrigger.type s = js "readme_update" ->
  SignalClassifier.classify s = Ok (SignalClassifier.classifyReadme s).
Proof. intros H. unfold SignalClassifier.classify. rewrite H. reflexivity. Qed.

Lemma classify_issue s :
  GitHubTrigger.type s = js "issue" ->
  SignalClassifier.classify s = SignalClassifier.classifyIssue s.
Proof. intros H. unfold SignalClassifier.classify. rewrite H. reflexivity. Qed.

Lemma classify_other s :
  GitHubTrigger.type s <> js "commit" ->
  GitHubTrigger.type s <> js "readme_update" ->
  GitHubTrigger.type s <> js "issue" ->
  SignalClassifier.classify s
  = Ok {| SignalClassifier.signal := s;
          SignalClassifier.category := SignalClassifier.unknown;
          SignalClassifier.confidence := GitHubTrigger.confidence s;
          SignalClassifier.classification :=
            {| SignalClassifier.method := js "unhandled_type";
               SignalClassifier.original_confidence := None |} |}.
Proof.
  intros H1 H2 H3. unfold SignalClassifier.classify, jstring_eqb.
  rewrite !bool_decide_eq_false_2 by assumption. reflexivity.
Qed.

(** The signals of a detection pass are classified without an exception. *)
Lemma classify_detected_returns :
  (forall commit, exists c,
      SignalClassifier.classify (GitHubTrigger.commitSignal commit) = Ok c)
  /\ (forall readme, exists c,
      SignalClassifier.classify (GitHubTrigger.readmeSignal readme) = Ok c)
  /\ (forall issue, exists c,
      SignalClassifier.classify (GitHubTrigger.issueSignal issue) = Ok c).
Proof.
  repeat split.
  - intros commit. rewrite classify_commit by reflexivity.
    unfold SignalClassifier.classifyCommit. simpl.
    repeat match goal with
           | |- context [if ?b then _ else _] => destruct b
           end; eauto.
  - intros readme. rewrite classify_readme by reflexivity. eauto.
  - intros issue. rewrite classify_issue by reflexivity.
    unfold SignalClassifier.classifyIssue. simpl.
    repeat match goal with
           | |- context [if ?b then _ else _] => destruct b; simpl
           end; eauto.
Qed.

(** C3, as the code has it: a commit or an issue is clamped to
    [[0.3, 1.0]] whatever its prior; a README update is capped at 1.0 and
    reaches 0.3 from a prior of 0.2 on; a signal of any other type keeps its
    confidence. *)
Theorem classify_confidence_bounds (s : GitHubTrigger.Signal)
    (c : SignalClassifier.Classified) :
  SignalClassifier.classify s = Ok c ->
  (GitHubTrigger.type s = js "commit" \/ GitHubTrigger.type s = js "issue" ->
     (3 # 10 <= SignalClassifier.confidence c)%Q
     /\ (SignalClassifier.confidence c <= 1)%Q)
  /\ (GitHubTrigger.type s = js "readme_update" ->
     (SignalClassifier.confidence c <= 1)%Q
     /\ ((2 # 10 <= GitHubTrigger.confidence s)%Q ->
         (3 # 10 <= SignalClassifier.confidence c)%Q))
  /\ (GitHubTrigger.type s <> js "commit" ->
      GitHubTrigger.type s <> js "readme_update" ->
      GitHubTrigger.type s <> js "issue" ->
      SignalClassifier.confidence c = GitHubTrigger.confidence s).
Proof.
  intros Hc. repeat split.
  - destruct H as [H|H].
    + rewrite classify_commit in Hc by assumption.
      destruct (classifyCommit_clamped _ _ Hc) as [a ->]. apply clamp_bounds.
    + rewrite classify_issue in Hc by assumption.
      destruct (classifyIssue_clamped _ _ Hc) as [a ->]. apply clamp_bounds.
  - destruct H as [H|H].
    + rewrite classify_commit in Hc by assumption.
      destruct (classifyCommit_clamped _ _ Hc) as [a ->]. apply clamp_bounds.
    + rewrite classify_issue in Hc by assumption.
      destruct (classifyIssue_clamped _ _ Hc) as [a ->]. apply clamp_bounds.
  - rewrite classify_readme in Hc by assumption. injection Hc as <-. simpl.
    apply Q.le_min_l.
  - intros Hprior. rewrite classify_readme in Hc by assumption.
    injection Hc as <-. simpl. apply Q.min_glb; [unfold Qle; simpl; lia|lra].
  - intros H1 H2 H3. rewrite classify_other in Hc by assumption.
    injection Hc as <-. reflexivity.
Qed.

(** C3 at concrete signals: the commit and the README priors of the
    trigger. *)
Lemma classify_confidence_bounds_witness :
  let commit :=
    {| GitHubTrigger.type := js "commit";
       GitHubTrigger.id := js "commit:abc";
       GitHubTrigger.data :=
         GitHubTrigger.CommitData (js "abc") (js "Fix login bug") (js "dev")
           (js "2024-01-01") (js "https://example.org") 0;
       GitHubTrigger.confidence := 7 # 10 |} in
  exists c, SignalClassifier.classify commit = Ok c
    /\ SignalClassifier.category c = SignalClassifier.code
    /\ (3 # 10 <= SignalClassifier.confidence c)%Q
    /\ (SignalClassifier.confidence c <= 1)%Q.
Proof.
  intros commit. eexists. split; [vm_compute; reflexivity|].
  split; [reflexivity|].
  apply (proj1 (classify_confidence_bounds commit _ ltac:(vm_compute; reflexivity))).
  left. reflexivity.
Defined.

(** C3 as stated fails on the two paths without a floor: an unrecognized
    type keeps a prior of 0.1, and a README update with prior 0 ends at 0.1. *)
Lemma classify_floor_counterexample :
  let data := GitHubTrigger.ReadmeData (js "abc") (js "README.md") (js "README.md")
                (js "https://example.org") 120 in
  let release :=
    {| GitHubTrigger.type := js "release";
       GitHubTrigger.id := js "release:1";
       GitHubTrigger.data := data;
       GitHubTrigger.confidence := 1 # 10 |} in
  let readme :=
    {| GitHubTrigger.type := js "readme_update";
       GitHubTrigger.id := js "readme:abc";
       GitHubTrigger.data := data;
       GitHubTrigger.confidence := 0 |} in
  (exists c, SignalClassifier.classify release = Ok c
     /\ (0 <= GitHubTrigger.confidence release <= 1)%Q
     /\ ~ (3 # 10 <= SignalClassifier.confidence c)%Q)
  /\ (exists c, SignalClassifier.classify readme = Ok c
     /\ (0 <= GitHubTrigger.confidence readme <= 1)%Q
     /\ ~ (3 # 10 <= SignalClassifier.confidence c)%Q).
Proof.
  intros data release readme. split; eexists; (split; [vm_compute; reflexivity|]);
    (split; [split; unfold Qle; simpl; lia|]); vm_compute; intros H; apply H; reflexivity.
Qed.

(** ** The content generator *)

(** A primary call whose request fails, whatever it asks, returns [null];
    so does one whose template cannot be rendered. *)
Lemma generateWithHuggingFace_failed g w prompt st msg :
  (forall inputs, ContentGenerator.complete w inputs = ContentGenerator.Failed st msg) ->
  ContentGenerator._generateWithHuggingFace g w prompt = None.
Proof.
  intros H. unfold ContentGenerator._generateWithHuggingFace.
  destruct (ContentGenerator.hfToken g) as [[|c t]|]; try reflexivity.
  destruct (ContentGenerator._formatMistralPrompt prompt) as [formatted|e];
    [|reflexivity].
  cbn [mbind result_bind]. rewrite H. reflexivity.
Qed.

Lemma generateWithHuggingFace_unrendered g w prompt e :
  ContentGenerator._formatMistralPrompt prompt = Throw e ->
  ContentGenerator._generateWithHuggingFace g w prompt = None.
Proof.
  intros H. unfold ContentGenerator._generateWithHuggingFace. rewrite H.
  destruct (ContentGenerator.hfToken g) as [[|c t]|]; reflexivity.
Qed.

Lemma generateWithHuggingFace_no_token g w prompt :
  ContentGenerator.hfToken g = None ->
  ContentGenerator._generateWithHuggingFace g w prompt = None.
Proof. intros H. unfold ContentGenerator._generateWithHuggingFace. rewrite H. reflexivity. Qed.

Lemma generateWithHuggingFace_provider g w prompt d :
  ContentGenerator._generateWithHuggingFace g w prompt = Some d ->
  ContentGenerator.draft_provider d = js "huggingface".
Proof.
  unfold ContentGenerator._generateWithHuggingFace.
  destruct (ContentGenerator.hfToken g) as [[|c t]|]; try discriminate.
  destruct (ContentGenerator._formatMistralPrompt prompt) as [formatted|e];
    cbn [mbind result_bind]; try discriminate.
  destruct (ContentGenerator.complete w (VStr formatted)) as [st msg|data];
    try discriminate.
  destruct (truthy data); try discriminate.
  destruct (first data) as [d0|e]; simpl; try discriminate.
  destruct (truthy d0); try discriminate.
  destruct (get d0 "generated_text") as [gt|e]; simpl; try discriminate.
  destruct (truthy gt); try discriminate.
  destruct gt; try discriminate. intros [= <-]. reflexivity.
Qed.

Lemma generateFallback_provider w prompt d :
  ContentGenerator._generateFallback w prompt = Ok d ->
  ContentGenerator.draft_provider d = js "fallback".
Proof.
  unfold ContentGenerator._generateFallback.
  destruct (get prompt "metadata") as [m|e]; simpl; try discriminate.
  destruct (get prompt "context") as [c|e]; simpl; try discriminate.
  destruct (get m "topic") as [t|e]; simpl; try discriminate.
  destruct (get c "summary") as [sm|e]; simpl; try discriminate.
  destruct sm; simpl; try discriminate; destruct t; simpl; try discriminate;
    intros [= <-]; reflexivity.
Qed.



Lemma validateOutput_provider w d name :
  ContentGenerator.draft_provider d = js name -> name <> EmptyString ->
  ContentGenerator.provider (ContentGenerator._validateOutput w d) = js name.
Proof.
  intros H Hne. unfold ContentGenerator._validateOutput. simpl. rewrite H.
  destruct name; [congruence|reflexivity].
Qed.

(** [generate] returns an object on every prompt: the error of any step is
    caught and reported as provider ["error"] with a null text; otherwise the
    text is there and the provider tells where it comes from. *)
Lemma generate_never_throws g w prompt :
  let out := fst (ContentGenerator.generate g w prompt) in
  (ContentGenerator.provider out = js "error" /\ ContentGenerator.text out = None)
  \/ (ContentGenerator.provider out = js "fallback"
      /\ exists t, ContentGenerator.text out = Some t)
  \/ (ContentGenerator.provider out = js "huggingface"
      /\ exists t, ContentGenerator.text out = Some t).
Proof.
  unfold ContentGenerator.generate.
  destruct (ContentGenerator._validatePrompt prompt) as [[|]|e];
    [|left; split; reflexivity|left; split; reflexivity].
  set (g' := snd (ContentGenerator._enforceRateLimit g w)).
  destruct (ContentGenerator._generateWithHuggingFace g' w prompt) as [d|] eqn:Ehf.
  - destruct (ContentGenerator.text (ContentGenerator._validateOutput w d)) eqn:Et;
      [|left; split; reflexivity].
    right. right. cbn [fst]. split; [|eauto].
    apply validateOutput_provider; [|discriminate].
    apply (generateWithHuggingFace_provider _ _ _ _ Ehf).
  - destruct (ContentGenerator._generateFallback w prompt) as [d|e] eqn:Efb;
      [|left; split; reflexivity].
    destruct (ContentGenerator.text (ContentGenerator._validateOutput w d)) eqn:Et;
      [|left; split; reflexivity].
    right. left. cbn [fst]. split; [|eauto].
    apply validateOutput_provider; [|discriminate].
    apply (generateFallback_provider _ _ _ Efb).
Qed.

(** A prompt of [PromptBuilder.buildPrompt] has no top-level [context]
    block, so [generate] reports it as invalid whatever the primary call
    does. *)
Lemma generate_built_prompt now normalizedData prompt g w :
  PromptBuilder.buildPrompt now normalizedData = Ok prompt ->
  ContentGenerator.provider (fst (ContentGenerator.generate g w prompt)) = js "error"
  /\ ContentGenerator.text (fst (ContentGenerator.generate g w prompt)) = None.
Proof.
  unfold PromptBuilder.buildPrompt, PromptBuilder.buildInstructionBlocks.
  repeat match goal with
         | |- context [get normalizedData ?f] =>
             destruct (get normalizedData f); simpl; try discriminate
         end.
  intros [= <-]. split; reflexivity.
Qed.

(** The fallback template needs [metadata.topic]: without it the template
    throws, and [generate] reports the error. *)
Lemma generate_without_topic g w prompt meta st msg :
  (forall inputs, ContentGenerator.complete w inputs = ContentGenerator.Failed st msg) ->
  get prompt "metadata" = Ok meta ->
  get meta "topic" = Ok VUndefined ->
  ContentGenerator.provider (fst (ContentGenerator.generate g w prompt)) = js "error"
  /\ ContentGenerator.text (fst (ContentGenerator.generate g w prompt)) = None.
Proof.
  intros Hfail Hm Ht. unfold ContentGenerator.generate.
  destruct (ContentGenerator._validatePrompt prompt) as [[|]|e];
    [|split; reflexivity|split; reflexivity].
  rewrite (generateWithHuggingFace_failed _ _ _ _ _ Hfail).
  assert (exists e, ContentGenerator._generateFallback w prompt = Throw e) as [e ->];
    [|split; reflexivity].
  unfold ContentGenerator._generateFallback. rewrite Hm. cbn [mbind result_bind].
  destruct (get prompt "context") as [ctx|e]; cbn [mbind result_bind]; [|eauto].
  rewrite Ht. cbn [mbind result_bind].
  destruct (get ctx "summary") as [summary|e]; cbn [mbind result_bind]; [|eauto].
  destruct summary; cbn [mbind result_bind]; eauto.
Qed.

(** C2: the fallback is out of reach of the prompts the generator is
    given. A prompt built by [PromptBuilder.buildPrompt] has no top-level
    [context] block, which [_validatePrompt] requires, and its [metadata] has
    no [topic], which the fallback template reads. So [generate] returns
    provider ["error"] with a null text on it whatever the primary call does,
    a time-out included; and with a [context] block added, whatever it holds,
    a primary call that fails still ends in provider ["error"]. *)
Theorem generate_fallback_unreachable (g : ContentGenerator.Generator)
    (w : ContentGenerator.World) (now : list N) (normalizedData prompt : value) :
  PromptBuilder.buildPrompt now normalizedData = Ok prompt ->
  (ContentGenerator.provider (fst (ContentGenerator.generate g w prompt)) = js "error"
   /\ ContentGenerator.text (fst (ContentGenerator.generate g w prompt)) = None)
  /\ exists fields,
       prompt = VObj fields
       /\ forall context st msg,
            (forall inputs,
               ContentGenerator.complete w inputs = ContentGenerator.Failed st msg) ->
            ContentGenerator.provider
              (fst (ContentGenerator.generate g w
                      (VObj (("context"%string, context) :: fields)))) = js "error"
            /\ ContentGenerator.text
                 (fst (ContentGenerator.generate g w
                         (VObj (("context"%string, context) :: fields)))) = None.
Proof.
  intros Hb. split; [apply (generate_built_prompt _ _ _ _ _ Hb)|].
  revert Hb. unfold PromptBuilder.buildPrompt, PromptBuilder.buildInstructionBlocks.
  repeat match goal with
         | |- context [get normalizedData ?f] =>
             destruct (get normalizedData f); simpl; try discriminate
         end.
  intros [= <-]. eexists. split; [reflexivity|].
  intros context st msg Hfail.
  eapply generate_without_topic; [exact Hfail|reflexivity|reflexivity].
Qed.

(** C2 at the prompt built from a normalized commit signal, with a token
    and a primary call that times out: the result is the error object and not
    the fallback template. *)
Lemma generate_fallback_unreachable_witness :
  let normalized :=
    VObj [("topic"%string, VStr (js "Rate limiting"));
          ("category"%string, VStr (js "code"));
          ("signalType"%string, VStr (js "commit"));
          ("context"%string, VStr (js "Technical topic: rate, limiting"));
          ("confidence"%string, VNum 1);
          ("sources"%string, VArr []);
          ("timestamp"%string, VStr (js "2024-01-01T00:00:00.000Z"));
          ("signalId"%string, VStr (js "commit:abc"))] in
  let w :=
    {| ContentGenerator.clock_before := 5000;
       ContentGenerator.clock_after := 5000;
       ContentGenerator.timestamp := js "2024-01-01T00:00:01.000Z";
       ContentGenerator.complete :=
         fun _ => ContentGenerator.Failed None (js "timeout of 30000ms exceeded") |} in
  let g := ContentGenerator.new (Some (js "hf_token")) in
  exists prompt,
    PromptBuilder.buildPrompt (js "2024-01-01T00:00:00.000Z") normalized = Ok prompt
    /\ ContentGenerator.provider (fst (ContentGenerator.generate g w prompt)) = js "error"
    /\ ContentGenerator.provider (fst (ContentGenerator.generate g w prompt))
       <> js "fallback"
    /\ ContentGenerator.text (fst (ContentGenerator.generate g w prompt)) = None.
Proof.
  intros normalized w g. eexists. split; [reflexivity|].
  destruct (generate_fallback_unreachable g w (js "2024-01-01T00:00:00.000Z")
              normalized _ eq_refl) as [[Hp Ht] _].
  split; [exact Hp|]. split; [|exact Ht].
  rewrite Hp. vm_compute. discriminate.
Defined.

(** ** Decimal rendering *)

Lemma js_cons a s : js (String a s) = N_of_ascii a :: js s.
Proof. reflexivity. Qed.

Lemma js_inj s1 s2 : js s1 = js s2 -> s1 = s2.
Proof.
  revert s2. induction s1 as [|a s1 IH]; intros [|b s2]; try discriminate.
  - reflexivity.
  - rewrite !js_cons. intros [= Hab Hs]. f_equal; [|apply IH, Hs].
    rewrite <- (ascii_N_embedding a), <- (ascii_N_embedding b), Hab. reflexivity.
Qed.

Lemma dec_inj n m : dec n = dec m -> n = m.
Proof.
  unfold dec. intros H. apply js_inj in H.
  apply DecimalZ.to_int_inj.
  assert (Some (Z.to_int n) = Some (Z.to_int m)) as [= E]; [|exact E].
  rewrite <- !NilEmpty.isi, H. reflexivity.
Qed.

Lemma digits_no_underscore d :
  Forall (fun c => c <> 95%N) (js (NilEmpty.string_of_uint d)).
Proof.
  induction d; simpl NilEmpty.string_of_uint; [constructor|..];
    rewrite js_cons; constructor; try exact IHd; vm_compute; discriminate.
Qed.

Lemma dec_no_underscore n : Forall (fun c => c <> 95%N) (dec n).
Proof.
  unfold dec. destruct (Z.to_int n) as [d|d]; simpl NilEmpty.string_of_int.
  - apply digits_no_underscore.
  - rewrite js_cons. constructor; [vm_compute; discriminate|apply digits_no_underscore].
Qed.

(** Two strings without an underscore, each followed by an underscore and
    a tail, agree only if the parts agree. *)
Lemma split_at_underscore (d1 d2 s1 s2 : list N) :
  Forall (fun c => c <> 95%N) d1 -> Forall (fun c => c <> 95%N) d2 ->
  d1 ++ 95%N :: s1 = d2 ++ 95%N :: s2 -> d1 = d2 /\ s1 = s2.
Proof.
  intros H1. revert d2. induction H1 as [|c d1 Hc _ IH]; intros d2 H2 E.
  - destruct H2 as [|c' d2 Hc' _]; simpl in E.
    + injection E as E. auto.
    + injection E as E _. congruence.
  - destruct H2 as [|c' d2 Hc' H2]; simpl in E.
    + injection E as E _. congruence.
    + injection E as E1 E2. destruct (IH d2 H2 E2) as [-> ->]. subst. auto.
Qed.

(** ** The review queue *)

Lemma get_defined c name :
  c <> VUndefined -> c <> VNull -> exists v, get c name = Ok v.
Proof. destruct c; simpl; intros; try congruence; eauto. Qed.

Lemma truthy_defined c : truthy c = true -> c <> VUndefined /\ c <> VNull.
Proof. destruct c; simpl; intros; split; congruence. Qed.

Lemma validateContent_defined c :
  LinkedInPublisher._validateContent c = true -> c <> VUndefined /\ c <> VNull.
Proof.
  unfold LinkedInPublisher._validateContent.
  destruct (truthy c) eqn:E; simpl; [|discriminate].
  intros _. apply truthy_defined, E.
Qed.

(** On a payload other than [undefined] and [null], [_queuePost] appends one
    pending item holding the payload and returns its id. *)
Lemma queuePost_defined p w c :
  c <> VUndefined -> c <> VNull ->
  exists item,
    LinkedInPublisher._queuePost p w c
    = (Ok {| LinkedInPublisher.receipt_queueId := LinkedInPublisher.id item;
             LinkedInPublisher.receipt_message :=
               js "Post queued for manual review. Use getQueue() to retrieve pending posts." |},
       {| LinkedInPublisher.config := LinkedInPublisher.config p;
          LinkedInPublisher.queue := LinkedInPublisher.queue p ++ [item] |})
    /\ LinkedInPublisher.id item
       = js "queue_" ++ dec (LinkedInPublisher.now w) ++ js "_"
         ++ substr (LinkedInPublisher.random36 w) 2 9
    /\ LinkedInPublisher.status item = LinkedInPublisher.pending
    /\ LinkedInPublisher.content item = c
    /\ LinkedInPublisher.publishedAt item = None
    /\ LinkedInPublisher.postId item = None.
Proof.
  intros H1 H2. destruct (get_defined c "metadata" H1 H2) as [meta Hm].
  unfold LinkedInPublisher._queuePost. rewrite Hm.
  eexists. split; [reflexivity|]. repeat split.
Qed.

(** Whatever [_queuePost] returns comes with exactly one new item, which is
    pending and carries the returned id. *)
Lemma queuePost_returns p w c r p' :
  LinkedInPublisher._queuePost p w c = (Ok r, p') ->
  exists item,
    LinkedInPublisher.queue p' = LinkedInPublisher.queue p ++ [item]
    /\ LinkedInPublisher.config p' = LinkedInPublisher.config p
    /\ LinkedInPublisher.id item = LinkedInPublisher.receipt_queueId r
    /\ LinkedInPublisher.id item
       = js "queue_" ++ dec (LinkedInPublisher.now w) ++ js "_"
         ++ substr (LinkedInPublisher.random36 w) 2 9
    /\ LinkedInPublisher.status item = LinkedInPublisher.pending
    /\ LinkedInPublisher.content item = c.
Proof.
  unfold LinkedInPublisher._queuePost.
  destruct (get c "metadata") as [meta|e]; [|discriminate].
  intros [= <- <-]. eexists. repeat split.
Qed.

Lemma queuePost_throws p w c e p' :
  LinkedInPublisher._queuePost p w c = (Throw e, p') -> p' = p.
Proof.
  unfold LinkedInPublisher._queuePost.
  destruct (get c "metadata") as [meta|e']; [discriminate|]. intros [= _ <-]. reflexivity.
Qed.

(** C9, as the code has it: the ids of two calls differ as soon as the
    clock readings differ or the nine characters taken from the random draws
    differ; when both agree the two ids are the same. *)
Theorem queuePost_ids_distinct (p1 p2 p1' p2' : LinkedInPublisher.Publisher)
    (w1 w2 : LinkedInPublisher.World) (c1 c2 : value)
    (r1 r2 : LinkedInPublisher.Receipt) :
  LinkedInPublisher._queuePost p1 w1 c1 = (Ok r1, p1') ->
  LinkedInPublisher._queuePost p2 w2 c2 = (Ok r2, p2') ->
  (LinkedInPublisher.now w1 <> LinkedInPublisher.now w2
   \/ substr (LinkedInPublisher.random36 w1) 2 9
      <> substr (LinkedInPublisher.random36 w2) 2 9 ->
   LinkedInPublisher.receipt_queueId r1 <> LinkedInPublisher.receipt_queueId r2)
  /\ (LinkedInPublisher.now w1 = LinkedInPublisher.now w2 ->
      substr (LinkedInPublisher.random36 w1) 2 9
      = substr (LinkedInPublisher.random36 w2) 2 9 ->
      LinkedInPublisher.receipt_queueId r1 = LinkedInPublisher.receipt_queueId r2).
Proof.
  intros H1 H2.
  destruct (queuePost_returns _ _ _ _ _ H1) as (i1 & _ & _ & Hr1 & Hid1 & _).
  destruct (queuePost_returns _ _ _ _ _ H2) as (i2 & _ & _ & Hr2 & Hid2 & _).
  rewrite <- Hr1, <- Hr2, Hid1, Hid2. split.
  - intros Hdiff Heq. apply app_inv_head in Heq.
    change (js "_" ++ ?x) with (95%N :: x) in Heq.
    apply split_at_underscore in Heq; try apply dec_no_underscore.
    destruct Heq as [Hd Hs]. apply dec_inj in Hd.
    destruct Hdiff as [Hn|Hr]; [apply Hn, Hd|apply Hr, Hs].
  - intros -> ->. reflexivity.
Qed.

(** C9 at two calls within one millisecond whose random draws differ. *)
Lemma queuePost_ids_distinct_witness :
  let p := LinkedInPublisher.new None None None in
  let w draw :=
    {| LinkedInPublisher.now := 1700000000000;
       LinkedInPublisher.random36 := draw;
       LinkedInPublisher.timestamp := js "2023-11-14T22:13:20.000Z";
       LinkedInPublisher.timestamp_after := js "2023-11-14T22:13:20.000Z";
       LinkedInPublisher.post :=
         fun _ => LinkedInPublisher.Rejected None (js "Network Error") |} in
  let c := VObj [("text"%string, VStr (js "hello"))] in
  let one := LinkedInPublisher._queuePost p (w (js "0.k3j5h1x9q2m")) c in
  let two := LinkedInPublisher._queuePost (snd one) (w (js "0.8fz0a7c4d1b")) c in
  exists r1 r2,
    fst one = Ok r1 /\ fst two = Ok r2
    /\ LinkedInPublisher.receipt_queueId r1 <> LinkedInPublisher.receipt_queueId r2.
Proof.
  intros p w c one two. do 2 eexists.
  split; [reflexivity|]. split; [reflexivity|].
  apply (proj1 (queuePost_ids_distinct p (snd one) (snd one) (snd two)
                  (w (js "0.k3j5h1x9q2m")) (w (js "0.8fz0a7c4d1b")) c c _ _
                  eq_refl eq_refl)).
  right. vm_compute. discriminate.
Defined.

(** C9 as stated fails: two calls in the same millisecond that draw the
    same random number queue two items under one id. *)
Lemma queuePost_same_id_counterexample :
  let p := LinkedInPublisher.new None None None in
  let w :=
    {| LinkedInPublisher.now := 1700000000000;
       LinkedInPublisher.random36 := js "0.k3j5h1x9q2m";
       LinkedInPublisher.timestamp := js "2023-11-14T22:13:20.000Z";
       LinkedInPublisher.timestamp_after := js "2023-11-14T22:13:20.000Z";
       LinkedInPublisher.post :=
         fun _ => LinkedInPublisher.Rejected None (js "Network Error") |} in
  let first_post := VObj [("text"%string, VStr (js "first post"))] in
  let second_post := VObj [("text"%string, VStr (js "second post"))] in
  exists r1 p1 r2 p2 i1 i2,
    LinkedInPublisher._queuePost p w first_post = (Ok r1, p1)
    /\ LinkedInPublisher._queuePost p1 w second_post = (Ok r2, p2)
    /\ LinkedInPublisher.queue p2 = [i1; i2]
    /\ LinkedInPublisher.content i1 <> LinkedInPublisher.content i2
    /\ LinkedInPublisher.id i1 = LinkedInPublisher.id i2
    /\ LinkedInPublisher.receipt_queueId r1 = LinkedInPublisher.receipt_queueId r2
    /\ LinkedInPublisher.receipt_queueId r1 = js "queue_1700000000000_k3j5h1x9q".
Proof.
  intros p w first_post second_post. do 6 eexists.
  split; [reflexivity|]. split; [reflexivity|]. split; [reflexivity|].
  split; [vm_compute; discriminate|]. repeat split.
Qed.

Lemma attemptAutoPublish_published p w c o :
  LinkedInPublisher._attemptAutoPublish p w c = Ok o ->
  exists pid at_ url, o = LinkedInPublisher.Published pid at_ url.
Proof.
  unfold LinkedInPublisher._attemptAutoPublish.
  destruct (_ || _); [discriminate|].
  destruct (LinkedInPublisher.sharePayload p c) as [payload|e]; simpl; [|discriminate].
  destruct (LinkedInPublisher.post w payload) as [st msg|data headers]; simpl;
    [discriminate|].
  destruct (get data "id") as [i|e]; simpl; [|discriminate].
  destruct (truthy i); simpl.
  - intros [= <-]. eauto.
  - destruct (get headers "x-restli-id") as [h|e]; simpl; [|discriminate].
    intros [= <-]. eauto.
Qed.

(** With both credentials, a payload that can be built and an answer that
    carries an id, the attempt publishes. *)
Lemma attemptAutoPublish_responds p w c payload data headers i :
  LinkedInPublisher.absent (LinkedInPublisher.accessToken (LinkedInPublisher.config p)) = false ->
  LinkedInPublisher.absent (LinkedInPublisher.personUrn (LinkedInPublisher.config p)) = false ->
  LinkedInPublisher.sharePayload p c = Ok payload ->
  LinkedInPublisher.post w payload = LinkedInPublisher.Responded data headers ->
  get data "id" = Ok i -> truthy i = true ->
  LinkedInPublisher._attemptAutoPublish p w c
  = Ok (LinkedInPublisher.Published i (LinkedInPublisher.timestamp w)
          (js "https://www.linkedin.com/feed/update/" ++ to_string i ++ js "/")).
Proof.
  intros Ht Hu Hp Hr Hi Hti. unfold LinkedInPublisher._attemptAutoPublish.
  rewrite Ht, Hu, Hp. simpl. rewrite Hr, Hi. simpl. rewrite Hti. reflexivity.
Qed.

(** A rejected request makes the attempt throw: the authentication and the
    permission failures under their own messages, anything else as it is. *)
Lemma attemptAutoPublish_rejected p w c payload st msg :
  LinkedInPublisher.absent (LinkedInPublisher.accessToken (LinkedInPublisher.config p)) = false ->
  LinkedInPublisher.absent (LinkedInPublisher.personUrn (LinkedInPublisher.config p)) = false ->
  LinkedInPublisher.sharePayload p c = Ok payload ->
  LinkedInPublisher.post w payload = LinkedInPublisher.Rejected st msg ->
  LinkedInPublisher._attemptAutoPublish p w c
  = Throw (LinkedInPublisher.apiError (AxiosError st msg)).
Proof.
  intros Ht Hu Hp Hr. unfold LinkedInPublisher._attemptAutoPublish.
  rewrite Ht, Hu, Hp. simpl. rewrite Hr. reflexivity.
Qed.

Lemma attemptAutoPublish_no_credentials p w c :
  LinkedInPublisher.absent (LinkedInPublisher.accessToken (LinkedInPublisher.config p)) = true
  \/ LinkedInPublisher.absent (LinkedInPublisher.personUrn (LinkedInPublisher.config p)) = true ->
  LinkedInPublisher._attemptAutoPublish p w c
  = Throw (Error (js "LinkedIn credentials not configured")).
Proof.
  intros H. unfold LinkedInPublisher._attemptAutoPublish.
  destruct H as [-> | ->]; [reflexivity|]. rewrite orb_true_r. reflexivity.
Qed.

Lemma findItem_markPublished queueId at_ pid q item :
  LinkedInPublisher.findItem queueId q = Some item ->
  exists item',
    LinkedInPublisher.findItem queueId (LinkedInPublisher.markPublished queueId at_ pid q)
    = Some item'
    /\ LinkedInPublisher.id item' = LinkedInPublisher.id item
    /\ LinkedInPublisher.content item' = LinkedInPublisher.content item
    /\ LinkedInPublisher.status item' = LinkedInPublisher.published
    /\ LinkedInPublisher.publishedAt item' = Some at_
    /\ LinkedInPublisher.postId item' = Some pid.
Proof.
  unfold LinkedInPublisher.findItem.
  induction q as [|x rest IH]; simpl; [discriminate|].
  destruct (jstring_eqb (LinkedInPublisher.id x) queueId) eqn:E.
  - intros [= <-]. simpl. rewrite E. eexists. repeat split.
  - intros H. simpl. rewrite E. apply IH, H.
Qed.

(** [publishFromQueue] on an item that is not pending. *)
Lemma publishFromQueue_processed p w queueId item :
  LinkedInPublisher.findItem queueId (LinkedInPublisher.queue p) = Some item ->
  LinkedInPublisher.status item = LinkedInPublisher.published ->
  LinkedInPublisher.publishFromQueue p w queueId
  = (Throw (Error (js "Queue item " ++ queueId ++ js " already processed")), p).
Proof.
  intros Hf Hs. unfold LinkedInPublisher.publishFromQueue. rewrite Hf, Hs. reflexivity.
Qed.

Lemma publishFromQueue_returns p w queueId item o p' :
  LinkedInPublisher.findItem queueId (LinkedInPublisher.queue p) = Some item ->
  LinkedInPublisher.status item = LinkedInPublisher.pending ->
  LinkedInPublisher.publishFromQueue p w queueId = (Ok o, p') ->
  LinkedInPublisher._attemptAutoPublish p w (LinkedInPublisher.content item) = Ok o
  /\ p' = {| LinkedInPublisher.config := LinkedInPublisher.config p;
             LinkedInPublisher.queue :=
               LinkedInPublisher.markPublished queueId (LinkedInPublisher.timestamp_after w)
                 (LinkedInPublisher.outcome_postId o) (LinkedInPublisher.queue p) |}.
Proof.
  intros Hf Hs. unfold LinkedInPublisher.publishFromQueue. rewrite Hf, Hs.
  destruct (LinkedInPublisher._attemptAutoPublish p w (LinkedInPublisher.content item))
    as [r|e]; [|discriminate].
  intros [= <- <-]. split; reflexivity.
Qed.

(** C4: a queued item is pending; [publishFromQueue] on a pending item
    returns once the publish action it performs is answered with a post id,
    and a call that returns leaves the item published with that post id; any
    later [publishFromQueue] on the id throws ["... already processed"] and
    changes nothing. *)
Theorem queue_lifecycle (p : LinkedInPublisher.Publisher) (w : LinkedInPublisher.World) :
  (forall c r p',
     LinkedInPublisher._queuePost p w c = (Ok r, p') ->
     exists item,
       LinkedInPublisher.queue p' = LinkedInPublisher.queue p ++ [item]
       /\ LinkedInPublisher.id item = LinkedInPublisher.receipt_queueId r
       /\ LinkedInPublisher.status item = LinkedInPublisher.pending)
  /\ (forall queueId item payload data headers i,
     LinkedInPublisher.findItem queueId (LinkedInPublisher.queue p) = Some item ->
     LinkedInPublisher.status item = LinkedInPublisher.pending ->
     LinkedInPublisher.absent (LinkedInPublisher.accessToken (LinkedInPublisher.config p))
     = false ->
     LinkedInPublisher.absent (LinkedInPublisher.personUrn (LinkedInPublisher.config p))
     = false ->
     LinkedInPublisher.sharePayload p (LinkedInPublisher.content item) = Ok payload ->
     LinkedInPublisher.post w payload = LinkedInPublisher.Responded data headers ->
     get data "id" = Ok i -> truthy i = true ->
     exists o p', LinkedInPublisher.publishFromQueue p w queueId = (Ok o, p'))
  /\ (forall queueId item o p',
     LinkedInPublisher.findItem queueId (LinkedInPublisher.queue p) = Some item ->
     LinkedInPublisher.status item = LinkedInPublisher.pending ->
     LinkedInPublisher.publishFromQueue p w queueId = (Ok o, p') ->
     LinkedInPublisher.outcome_status o = js "published"
     /\ (exists item',
           LinkedInPublisher.findItem queueId (LinkedInPublisher.queue p') = Some item'
           /\ LinkedInPublisher.content item' = LinkedInPublisher.content item
           /\ LinkedInPublisher.status item' = LinkedInPublisher.published
           /\ LinkedInPublisher.postId item' = Some (LinkedInPublisher.outcome_postId o))
     /\ (forall w',
           LinkedInPublisher.publishFromQueue p' w' queueId
           = (Throw (Error (js "Queue item " ++ queueId ++ js " already processed")), p'))).
Proof.
  split; [|split].
  - intros c r p' H. destruct (queuePost_returns _ _ _ _ _ H) as (item & ? & ? & ? & ? & ? & ?).
    eauto.
  - intros queueId item payload data headers i Hf Hs Ht Hu Hp Hr Hi Hti.
    unfold LinkedInPublisher.publishFromQueue. rewrite Hf, Hs.
    rewrite (attemptAutoPublish_responds p w _ payload data headers i Ht Hu Hp Hr Hi Hti).
    eauto.
  - intros queueId item o p' Hf Hs Hp.
    destruct (publishFromQueue_returns _ _ _ _ _ _ Hf Hs Hp) as [Ha ->].
    destruct (attemptAutoPublish_published _ _ _ _ Ha) as (pid & at_ & url & ->).
    destruct (findItem_markPublished queueId (LinkedInPublisher.timestamp_after w) pid _ _ Hf)
      as (item' & Hf' & _ & Hc & Hst & _ & Hpid).
    split; [reflexivity|]. split.
    + exists item'. simpl. auto.
    + intros w'. apply (publishFromQueue_processed _ w' queueId item'); assumption.
Qed.

(** C4 on a run: a post is queued, approved once, and approved again. *)
Lemma queue_lifecycle_witness :
  let p := LinkedInPublisher.new (Some (js "token")) (Some (js "urn:li:person:1")) None in
  let w :=
    {| LinkedInPublisher.now := 1700000000000;
       LinkedInPublisher.random36 := js "0.k3j5h1x9q2m";
       LinkedInPublisher.timestamp := js "2023-11-14T22:13:20.000Z";
       LinkedInPublisher.timestamp_after := js "2023-11-14T22:13:21.000Z";
       LinkedInPublisher.post :=
         fun _ => LinkedInPublisher.Responded
                    (VObj [("id"%string, VStr (js "urn:li:share:42"))]) (VObj []) |} in
  let c := VObj [("text"%string, VStr (js "hello"))] in
  let queueId := js "queue_1700000000000_k3j5h1x9q" in
  let queued := LinkedInPublisher._queuePost p w c in
  let approved := LinkedInPublisher.publishFromQueue (snd queued) w queueId in
  let again := LinkedInPublisher.publishFromQueue (snd approved) w queueId in
  (exists o, fst approved = Ok o /\ LinkedInPublisher.outcome_status o = js "published")
  /\ again
     = (Throw (Error (js "Queue item " ++ queueId ++ js " already processed")), snd approved).
Proof.
  intros p w c queueId queued approved again.
  edestruct (proj2 (proj2 (queue_lifecycle (snd queued) w)) queueId) as (Hs & _ & Hagain).
  - reflexivity.
  - reflexivity.
  - reflexivity.
  - split.
    + eexists. split; [reflexivity|exact Hs].
    + apply Hagain.
Defined.

(** ** Failed approvals *)

(** C10: when the publish attempt inside [publishFromQueue] throws, the
    call throws the same error and the publisher, queue included, is what it
    was: the item is still pending, without [publishedAt] or [postId] if it
    had none; a later call whose attempt succeeds publishes it. *)
Theorem publishFromQueue_error_keeps_pending (p : LinkedInPublisher.Publisher)
    (w : LinkedInPublisher.World) (queueId : list N)
    (item : LinkedInPublisher.QueueItem) (e : exn) :
  LinkedInPublisher.findItem queueId (LinkedInPublisher.queue p) = Some item ->
  LinkedInPublisher.status item = LinkedInPublisher.pending ->
  LinkedInPublisher._attemptAutoPublish p w (LinkedInPublisher.content item) = Throw e ->
  LinkedInPublisher.publishFromQueue p w queueId = (Throw e, p)
  /\ LinkedInPublisher.findItem queueId
       (LinkedInPublisher.queue (snd (LinkedInPublisher.publishFromQueue p w queueId)))
     = Some item
  /\ (forall w' o,
        LinkedInPublisher._attemptAutoPublish p w' (LinkedInPublisher.content item) = Ok o ->
        exists item',
          fst (LinkedInPublisher.publishFromQueue
                 (snd (LinkedInPublisher.publishFromQueue p w queueId)) w' queueId) = Ok o
          /\ LinkedInPublisher.findItem queueId
               (LinkedInPublisher.queue
                  (snd (LinkedInPublisher.publishFromQueue
                          (snd (LinkedInPublisher.publishFromQueue p w queueId)) w' queueId)))
             = Some item'
          /\ LinkedInPublisher.status item' = LinkedInPublisher.published).
Proof.
  intros Hf Hs Ht.
  assert (Hthrow : LinkedInPublisher.publishFromQueue p w queueId = (Throw e, p)).
  { unfold LinkedInPublisher.publishFromQueue. rewrite Hf, Hs, Ht. reflexivity. }
  rewrite Hthrow. cbn [snd]. split; [reflexivity|]. split; [exact Hf|].
  intros w' o Ho.
  destruct (findItem_markPublished queueId (LinkedInPublisher.timestamp_after w')
              (LinkedInPublisher.outcome_postId o) _ _ Hf)
    as (item' & Hf' & _ & _ & Hst & _).
  exists item'. unfold LinkedInPublisher.publishFromQueue. rewrite Hf, Hs, Ho.
  cbn [fst snd LinkedInPublisher.queue]. auto.
Qed.

(** C10 on a run: the token has expired, the approval fails with the
    authentication error, and the queue is the one before the call. *)
Lemma publishFromQueue_error_keeps_pending_witness :
  let p := LinkedInPublisher.new (Some (js "token")) (Some (js "urn:li:person:1")) None in
  let w :=
    {| LinkedInPublisher.now := 1700000000000;
       LinkedInPublisher.random36 := js "0.k3j5h1x9q2m";
       LinkedInPublisher.timestamp := js "2023-11-14T22:13:20.000Z";
       LinkedInPublisher.timestamp_after := js "2023-11-14T22:13:21.000Z";
       LinkedInPublisher.post :=
         fun _ => LinkedInPublisher.Rejected (Some 401)
                    (js "Request failed with status code 401") |} in
  let c := VObj [("text"%string, VStr (js "hello"))] in
  let queueId := js "queue_1700000000000_k3j5h1x9q" in
  let queued := snd (LinkedInPublisher._queuePost p w c) in
  LinkedInPublisher.publishFromQueue queued w queueId
  = (Throw (Error (js "LinkedIn authentication failed - token may be expired")), queued)
  /\ LinkedInPublisher.getQueue queued (js "pending")
     = [LinkedInPublisher.newItem w c VUndefined VUndefined].
Proof.
  intros p w c queueId queued. split; [|reflexivity].
  apply (publishFromQueue_error_keeps_pending queued w queueId
           (LinkedInPublisher.newItem w c VUndefined VUndefined)).
  - reflexivity.
  - reflexivity.
  - reflexivity.
Defined.

(** ** Publishing *)

Lemma queuePost_enqueued p w c :
  c <> VUndefined -> c <> VNull ->
  exists r p',
    LinkedInPublisher._queuePost p w c = (Ok r, p')
    /\ enqueued p p' c (LinkedInPublisher.receipt_queueId r).
Proof.
  intros H1 H2.
  destruct (queuePost_defined p w c H1 H2) as (item & Hq & Hid & Hst & Hc & _).
  do 2 eexists. split; [exact Hq|]. exists item. simpl.
  repeat split; try assumption.
  - rewrite Hid. discriminate.
  - unfold LinkedInPublisher.getQueue. simpl.
    rewrite List.filter_app. simpl. rewrite Hst. reflexivity.
Qed.

Lemma publish_try_invalid p w c :
  c <> VUndefined -> c <> VNull ->
  LinkedInPublisher._validateContent c = false ->
  LinkedInPublisher.publish_try p w c
  = (Throw (Error (js "Invalid content structure")), p).
Proof.
  intros H1 H2 Hv. unfold LinkedInPublisher.publish_try.
  destruct (get_defined c "image" H1 H2) as [img ->]. rewrite Hv. reflexivity.
Qed.

(** A publish attempt that throws sends valid content to the queue. *)
Lemma publish_attempt_throws p w c e :
  LinkedInPublisher._validateContent c = true ->
  LinkedInPublisher.autoPublish (LinkedInPublisher.config p) = true ->
  LinkedInPublisher.absent (LinkedInPublisher.accessToken (LinkedInPublisher.config p))
  = false ->
  LinkedInPublisher._attemptAutoPublish p w c = Throw e ->
  exists r p',
    LinkedInPublisher.publish p w c
    = (Ok (LinkedInPublisher.Failed (message e)
             (js "Content queued for manual review") r), p')
    /\ enqueued p p' c (LinkedInPublisher.receipt_queueId r).
Proof.
  intros Hv Ha Ht He. destruct (validateContent_defined c Hv) as [H1 H2].
  destruct (queuePost_enqueued p w c H1 H2) as (r & p' & Hpost & Henq).
  exists r, p'. split; [|exact Henq].
  unfold LinkedInPublisher.publish, LinkedInPublisher.publish_try.
  destruct (get_defined c "image" H1 H2) as [img ->]. rewrite Hv, Ha, Ht, He. simpl.
  rewrite Hpost. reflexivity.
Qed.

(** The authentication and the permission failure reach the caller under
    different messages, and both leave the content in the queue. *)
Lemma publish_auth_failures p w c payload msg :
  LinkedInPublisher._validateContent c = true ->
  LinkedInPublisher.autoPublish (LinkedInPublisher.config p) = true ->
  LinkedInPublisher.absent (LinkedInPublisher.accessToken (LinkedInPublisher.config p))
  = false ->
  LinkedInPublisher.absent (LinkedInPublisher.personUrn (LinkedInPublisher.config p))
  = false ->
  LinkedInPublisher.sharePayload p c = Ok payload ->
  (LinkedInPublisher.post w payload = LinkedInPublisher.Rejected (Some 401) msg ->
   exists r p',
     LinkedInPublisher.publish p w c
     = (Ok (LinkedInPublisher.Failed
              (js "LinkedIn authentication failed - token may be expired")
              (js "Content queued for manual review") r), p')
     /\ enqueued p p' c (LinkedInPublisher.receipt_queueId r))
  /\ (LinkedInPublisher.post w payload = LinkedInPublisher.Rejected (Some 403) msg ->
   exists r p',
     LinkedInPublisher.publish p w c
     = (Ok (LinkedInPublisher.Failed
              (js "LinkedIn API permissions insufficient - requires w_member_social scope")
              (js "Content queued for manual review") r), p')
     /\ enqueued p p' c (LinkedInPublisher.receipt_queueId r)).
Proof.
  intros Hv Ha Ht Hu Hp. split; intros Hr;
    apply (publish_attempt_throws p w c _ Hv Ha Ht
             (attemptAutoPublish_rejected p w c payload _ msg Ht Hu Hp Hr)).
Qed.

(** C5, as the code has it. Content that passes [_validateContent] is
    queued, with status ["queued"], when auto-publish is off or the access
    token is absent. Content other than [undefined] and [null] that fails the
    validation, and valid content whose publish attempt throws, are queued as
    well, and the call reports status ["error"] with the message of the
    error. Each time exactly one pending item holding the content is
    appended, under a non-empty id. *)
Theorem publish_degrades_to_queue (p : LinkedInPublisher.Publisher)
    (w : LinkedInPublisher.World) (c : value) :
  (LinkedInPublisher._validateContent c = true ->
   LinkedInPublisher.autoPublish (LinkedInPublisher.config p) = false
   \/ LinkedInPublisher.absent (LinkedInPublisher.accessToken (LinkedInPublisher.config p))
      = true ->
   exists r p',
     LinkedInPublisher.publish p w c = (Ok (LinkedInPublisher.Queued r), p')
     /\ LinkedInPublisher.outcome_status (LinkedInPublisher.Queued r) = js "queued"
     /\ enqueued p p' c (LinkedInPublisher.receipt_queueId r))
  /\ (c <> VUndefined -> c <> VNull ->
      LinkedInPublisher._validateContent c = false ->
      exists r p',
        LinkedInPublisher.publish p w c
        = (Ok (LinkedInPublisher.Failed (js "Invalid content structure")
                 (js "Content queued for manual review") r), p')
        /\ enqueued p p' c (LinkedInPublisher.receipt_queueId r))
  /\ (forall e,
      LinkedInPublisher._validateContent c = true ->
      LinkedInPublisher.autoPublish (LinkedInPublisher.config p) = true ->
      LinkedInPublisher.absent (LinkedInPublisher.accessToken (LinkedInPublisher.config p))
      = false ->
      LinkedInPublisher._attemptAutoPublish p w c = Throw e ->
      exists r p',
        LinkedInPublisher.publish p w c
        = (Ok (LinkedInPublisher.Failed (message e)
                 (js "Content queued for manual review") r), p')
        /\ enqueued p p' c (LinkedInPublisher.receipt_queueId r)).
Proof.
  split; [|split].
  - intros Hv Hq. destruct (validateContent_defined c Hv) as [H1 H2].
    destruct (queuePost_enqueued p w c H1 H2) as (r & p' & Hpost & Henq).
    exists r, p'. split; [|split; [reflexivity|exact Henq]].
    unfold LinkedInPublisher.publish, LinkedInPublisher.publish_try.
    destruct (get_defined c "image" H1 H2) as [img ->]. rewrite Hv. simpl.
    assert (negb (LinkedInPublisher.autoPublish (LinkedInPublisher.config p))
            || LinkedInPublisher.absent
                 (LinkedInPublisher.accessToken (LinkedInPublisher.config p)) = true) as ->.
    { destruct Hq as [-> | ->]; [reflexivity|apply orb_true_r]. }
    rewrite Hpost. reflexivity.
  - intros H1 H2 Hv.
    destruct (queuePost_enqueued p w c H1 H2) as (r & p' & Hpost & Henq).
    exists r, p'. split; [|exact Henq].
    unfold LinkedInPublisher.publish. rewrite publish_try_invalid by assumption.
    rewrite Hpost. reflexivity.
  - intros e. apply publish_attempt_throws.
Qed.

(** C5 on the scenario of the specification: auto-publish is off, the
    text has fifty characters, and the pending queue then holds exactly the
    item of the returned id. *)
Lemma publish_degrades_to_queue_witness :
  let p := LinkedInPublisher.new None None None in
  let w :=
    {| LinkedInPublisher.now := 1700000000000;
       LinkedInPublisher.random36 := js "0.k3j5h1x9q2m";
       LinkedInPublisher.timestamp := js "2023-11-14T22:13:20.000Z";
       LinkedInPublisher.timestamp_after := js "2023-11-14T22:13:21.000Z";
       LinkedInPublisher.post :=
         fun _ => LinkedInPublisher.Rejected None (js "Network Error") |} in
  let c := VObj [("text"%string, VStr (repeat 120%N 50))] in
  exists r p',
    LinkedInPublisher.publish p w c = (Ok (LinkedInPublisher.Queued r), p')
    /\ LinkedInPublisher.outcome_status (LinkedInPublisher.Queued r) = js "queued"
    /\ enqueued p p' c (LinkedInPublisher.receipt_queueId r).
Proof.
  intros p w c.
  apply (proj1 (publish_degrades_to_queue p w c)).
  - reflexivity.
  - left. reflexivity.
Defined.

(** C5 as stated fails for content that does not pass the validation:
    with auto-publish off and no credential, an empty text is queued but the
    call returns status ["error"], not ["queued"]. *)
Lemma publish_invalid_content_counterexample :
  let p := LinkedInPublisher.new None None None in
  let w :=
    {| LinkedInPublisher.now := 1700000000000;
       LinkedInPublisher.random36 := js "0.k3j5h1x9q2m";
       LinkedInPublisher.timestamp := js "2023-11-14T22:13:20.000Z";
       LinkedInPublisher.timestamp_after := js "2023-11-14T22:13:21.000Z";
       LinkedInPublisher.post :=
         fun _ => LinkedInPublisher.Rejected None (js "Network Error") |} in
  let c := VObj [("text"%string, VStr [])] in
  LinkedInPublisher.autoPublish (LinkedInPublisher.config p) = false
  /\ LinkedInPublisher.accessToken (LinkedInPublisher.config p) = None
  /\ exists o p',
       LinkedInPublisher.publish p w c = (Ok o, p')
       /\ LinkedInPublisher.outcome_status o = js "error"
       /\ LinkedInPublisher.outcome_status o <> js "queued".
Proof.
  intros p w c. split; [reflexivity|]. split; [reflexivity|].
  do 2 eexists. split; [reflexivity|]. split; [reflexivity|].
  vm_compute. discriminate.
Qed.

(** [null] content is not queued: the [_queuePost] of the [catch] block
    throws while it builds the item, and [publish] throws with it. *)
Lemma publish_null_content p w :
  LinkedInPublisher.publish p w VNull = (Throw (TypeError "metadata"), p).
Proof. reflexivity. Qed.

(* ================================================================== *)
(** * Further properties of the code *)
(* ================================================================== *)

(** ** The store *)

(** X1: for a key other than [__proto__], [get] after [set] reads the
    value back when it is truthy and the default when it is falsy, the
    default being [null] when it is [undefined] or left out; so [get] never
    returns [undefined]. Other keys, the ledger and the audit trail are left
    alone. *)
Theorem set_get_round_trip (st : StateStore.State) (w : StateStore.World)
    (key other : list N) (v defaultValue : value) :
  key <> js "__proto__" ->
  StateStore.get (snd (StateStore.set st w key v)) key defaultValue
  = (if truthy v then v
     else match defaultValue with VUndefined => VNull | _ => defaultValue end)
  /\ StateStore.get (snd (StateStore.set st w key v)) other defaultValue
     = (if decide (other = key)
        then StateStore.get (snd (StateStore.set st w key v)) key defaultValue
        else StateStore.get st other defaultValue)
  /\ StateStore.get st other defaultValue <> VUndefined
  /\ StateStore.processed (snd (StateStore.set st w key v)) = StateStore.processed st
  /\ StateStore.executions (snd (StateStore.set st w key v)) = StateStore.executions st.
Proof.
  intros _. unfold StateStore.get, StateStore.set. cbn [snd StateStore.metadata].
  split; [|split; [|split; [|split; reflexivity]]].
  - rewrite lookup_insert_eq. reflexivity.
  - destruct (decide (other = key)) as [->|Hne]; [reflexivity|].
    rewrite lookup_insert_ne by congruence. reflexivity.
  - unfold or_else.
    destruct (truthy (default VUndefined (StateStore.metadata st !! other))) eqn:E.
    + intros H. rewrite H in E. discriminate.
    + destruct defaultValue; discriminate.
Qed.

(** X1 on a falsy value and a default that is left out. *)
Lemma set_get_round_trip_witness :
  let w := {| StateStore.now := js "2024-01-01T00:00:00.000Z";
              StateStore.writeFileSync := Ok tt |} in
  StateStore.get (snd (StateStore.set StateStore.empty w (js "lastRun") (VNum 0)))
    (js "lastRun") VUndefined = VNull.
Proof.
  intros w.
  apply (proj1 (set_get_round_trip StateStore.empty w (js "lastRun") (js "lastRun")
                  (VNum 0) VUndefined ltac:(discriminate))).
Defined.

(** X2: [markProcessed] adds the id, when it is not [__proto__], to the
    processed ids and nothing else: the ids afterwards are the id and the ids
    before, every other entry is the one it was, marking an id again does not
    add a second one, and the audit trail and the metadata are left alone. *)
Theorem markProcessed_adds_one (st : StateStore.State) (w w' : StateStore.World)
    (signalId : list N) (meta meta' : list (string * value)) :
  signalId <> js "__proto__" ->
  let st1 := snd (StateStore.markProcessed st w signalId meta) in
  let st2 := snd (StateStore.markProcessed st1 w' signalId meta') in
  (forall x, In x (StateStore.getProcessedSignals st1)
             <-> x = signalId \/ In x (StateStore.getProcessedSignals st))
  /\ (forall x, x <> signalId ->
        StateStore.processed st1 !! x = StateStore.processed st !! x)
  /\ length (StateStore.getProcessedSignals st2) = length (StateStore.getProcessedSignals st1)
  /\ StateStore.processed st2 !! signalId
     = Some (spread_then [("timestamp"%string, VStr (StateStore.now w'))] meta')
  /\ StateStore.executions st1 = StateStore.executions st
  /\ StateStore.metadata st1 = StateStore.metadata st.
Proof.
  intros _ st1 st2. unfold st2, st1, StateStore.getProcessedSignals. simpl.
  repeat split.
  - intros H. apply list_elem_of_In, elem_of_elements in H.
    rewrite dom_insert_L in H. apply elem_of_union in H.
    destruct H as [H|H].
    + left. apply elem_of_singleton in H. exact H.
    + right. apply list_elem_of_In, elem_of_elements, H.
  - intros H. apply list_elem_of_In, elem_of_elements. rewrite dom_insert_L.
    apply elem_of_union. destruct H as [->|H].
    + left. apply elem_of_singleton. reflexivity.
    + right. apply elem_of_elements, list_elem_of_In, H.
  - intros x Hx. apply lookup_insert_ne. congruence.
  - rewrite insert_insert_eq, !dom_insert_L. reflexivity.
  - apply lookup_insert_eq.
Qed.

(** X2 at a concrete ledger. *)
Lemma markProcessed_adds_one_witness :
  let w := {| StateStore.now := js "2024-01-01T00:00:00.000Z";
              StateStore.writeFileSync := Ok tt |} in
  let st1 := snd (StateStore.markProcessed StateStore.empty w (js "commit:abc") []) in
  StateStore.processed st1 !! js "issue:7" = None.
Proof.
  intros w st1.
  transitivity (StateStore.processed StateStore.empty !! js "issue:7").
  - apply (proj1 (proj2 (markProcessed_adds_one StateStore.empty w w (js "commit:abc")
                           [] [] ltac:(discriminate)))).
    vm_compute. discriminate.
  - apply lookup_empty.
Defined.

Lemma slice_last_suffix {A} n (l : list A) :
  l = take (length l - n) l ++ StateStore.slice_last n l.
Proof. unfold StateStore.slice_last. symmetry. apply take_drop. Qed.

(** X3: for a positive limit [getRecentExecutions] returns the last
    entries of the trail, in order and at most [limit] of them; right after a
    call of [recordExecution] the most recent entry is the one just
    recorded. *)
Theorem getRecentExecutions_recent (st : StateStore.State) (limit : nat)
    (c : StateStore.Call) :
  (0 < limit)%nat ->
  (exists older,
     StateStore.executions st = older ++ StateStore.getRecentExecutions st limit)
  /\ length (StateStore.getRecentExecutions st limit)
     = Nat.min limit (length (StateStore.executions st))
  /\ StateStore.getRecentExecutions (StateStore.record st c) 1 = [StateStore.entry_of c].
Proof.
  intros Hl. unfold StateStore.getRecentExecutions. repeat split.
  - eexists. apply slice_last_suffix.
  - apply slice_last_length.
  - rewrite record_executions. unfold StateStore.slice_last.
    rewrite length_drop, length_app. simpl.
    rewrite drop_drop.
    set (l := StateStore.executions st).
    replace (length l + 1 - 100 + (length l + 1 - (length l + 1 - 100) - 1))%nat
      with (length l) by lia.
    rewrite drop_app_length. reflexivity.
Qed.

(** X3 at a concrete trail. *)
Lemma getRecentExecutions_recent_witness :
  let c :=
    {| StateStore.call_world :=
         {| StateStore.now := js "2024-01-01T00:00:00.000Z";
            StateStore.writeFileSync := Ok tt |};
       StateStore.call_workflow := js "workflow-engine";
       StateStore.call_status := js "success";
       StateStore.call_details := [] |} in
  StateStore.getRecentExecutions (StateStore.record StateStore.empty c) 1
  = [StateStore.entry_of c].
Proof.
  intros c.
  apply (proj2 (proj2 (getRecentExecutions_recent StateStore.empty 1 c ltac:(lia)))).
Defined.

(** X4: [load] returns the document of a state file that parses; with no
    file, or with one that cannot be read or parsed, the log line of either
    branch throws and [load] throws with it, so the empty state is not what
    a missing or broken file gives. *)
Theorem load_needs_a_state_file :
  (forall st, StateStore.load (StateStore.Parsed st) = Ok st)
  /\ StateStore.load StateStore.Missing = Throw (TypeError "error")
  /\ (forall e, StateStore.load (StateStore.Unreadable e) = Throw (TypeError "error")).
Proof. repeat split. Qed.

(** ** Detection *)

(** A pass returns the candidates that are new to the ledger, in the order
    commits, README, issues. *)
Lemma detectSignals_filter st api commits :
  GitHubTrigger.fetchRecentCommits api = Ok commits ->
  GitHubTrigger.detectSignals st api
  = Ok (List.filter (fun s => negb (StateStore.hasProcessed st (GitHubTrigger.id s)))
          (List.map GitHubTrigger.commitSignal commits
           ++ match GitHubTrigger.fetchReadme api with
              | Ok readme => [GitHubTrigger.readmeSignal readme]
              | Throw _ => []
              end
           ++ match GitHubTrigger.fetchRecentIssues api with
              | Ok issues =>
                  List.map GitHubTrigger.issueSignal
                    (List.filter (fun i => negb (GitHubTrigger.issue_pull_request i)) issues)
              | Throw _ => []
              end)).
Proof.
  intros H. unfold GitHubTrigger.detectSignals. rewrite H. simpl.
  rewrite !List.filter_app. do 3 f_equal.
  - destruct (GitHubTrigger.fetchReadme api) as [readme|e]; [|reflexivity].
    simpl. destruct (negb _); reflexivity.
  - destruct (GitHubTrigger.fetchRecentIssues api) as [issues|e]; reflexivity.
Qed.

(** X5: once the commit request is answered, a pass returns whatever the
    other two requests do. Every commit that is new to the ledger gives its
    signal; an issue signal always comes from an issue that is not a pull
    request; when the README and the issue requests both fail, the pass
    returns exactly the signals of the new commits. *)
Theorem detectSignals_partial_results (st : StateStore.State)
    (api : GitHubTrigger.Responses) (commits : list GitHubTrigger.Commit) :
  GitHubTrigger.fetchRecentCommits api = Ok commits ->
  exists signals,
    GitHubTrigger.detectSignals st api = Ok signals
    /\ (forall c, In c commits ->
          StateStore.hasProcessed st (GitHubTrigger.id (GitHubTrigger.commitSignal c)) = false ->
          In (GitHubTrigger.commitSignal c) signals)
    /\ (forall s, In s signals -> GitHubTrigger.type s = js "issue" ->
          exists issues i,
            GitHubTrigger.fetchRecentIssues api = Ok issues /\ In i issues
            /\ GitHubTrigger.issue_pull_request i = false
            /\ s = GitHubTrigger.issueSignal i)
    /\ (forall e1 e2,
          GitHubTrigger.fetchReadme api = Throw e1 ->
          GitHubTrigger.fetchRecentIssues api = Throw e2 ->
          signals
          = List.filter (fun s => negb (StateStore.hasProcessed st (GitHubTrigger.id s)))
              (List.map GitHubTrigger.commitSignal commits)).
Proof.
  intros Hc. eexists. split; [apply (detectSignals_filter st api commits Hc)|].
  split; [|split].
  - intros c Hin Hnew. apply List.filter_In. split.
    + apply List.in_or_app. left. apply List.in_map, Hin.
    + rewrite Hnew. reflexivity.
  - intros s Hs Hty. apply List.filter_In in Hs. destruct Hs as [Hs _].
    apply List.in_app_or in Hs. destruct Hs as [Hs|Hs].
    { apply List.in_map_iff in Hs. destruct Hs as (c & <- & _). discriminate Hty. }
    apply List.in_app_or in Hs. destruct Hs as [Hs|Hs].
    { destruct (GitHubTrigger.fetchReadme api) as [readme|e]; [|destruct Hs].
      destruct Hs as [<-|[]]. discriminate Hty. }
    destruct (GitHubTrigger.fetchRecentIssues api) as [issues|e]; [|destruct Hs].
    apply List.in_map_iff in Hs. destruct Hs as (i & <- & Hi).
    apply List.filter_In in Hi. destruct Hi as [Hi Hpr].
    exists issues, i. repeat split; try assumption.
    destruct (GitHubTrigger.issue_pull_request i); [discriminate|reflexivity].
  - intros e1 e2 -> ->. rewrite !app_nil_r. reflexivity.
Qed.

(** X5 on a pass whose README and issue requests fail. *)
Lemma detectSignals_partial_results_witness :
  let commit :=
    {| GitHubTrigger.commit_sha := js "abc";
       GitHubTrigger.commit_message := js "feat: add queue";
       GitHubTrigger.commit_author_name := js "dev";
       GitHubTrigger.commit_author_date := js "2024-01-01";
       GitHubTrigger.commit_html_url := js "https://example.org";
       GitHubTrigger.commit_files := None |} in
  let api :=
    {| GitHubTrigger.fetchRecentCommits := Ok [commit];
       GitHubTrigger.fetchReadme := Throw (AxiosError (Some 404) (js "Not Found"));
       GitHubTrigger.fetchRecentIssues := Throw (AxiosError None (js "timeout")) |} in
  exists signals,
    GitHubTrigger.detectSignals StateStore.empty api = Ok signals
    /\ In (GitHubTrigger.commitSignal commit) signals.
Proof.
  intros commit api.
  destruct (detectSignals_partial_results StateStore.empty api [commit] eq_refl)
    as (signals & Hd & Hc & _).
  exists signals. split; [exact Hd|]. apply Hc; [left; reflexivity|reflexivity].
Defined.

Lemma markSignals_keeps st marks x :
  StateStore.hasProcessed st x = true ->
  StateStore.hasProcessed (markSignals st marks) x = true.
Proof.
  revert st. induction marks as [|m marks IH]; intros st H; [exact H|].
  unfold markSignals in *. cbn [fold_left]. apply IH. apply markProcessed_keeps, H.
Qed.

Lemma markSignals_marks st marks m :
  In m marks ->
  StateStore.hasProcessed (markSignals st marks) (GitHubTrigger.id (snd (fst m))) = true.
Proof.
  revert st. induction marks as [|m' marks IH]; intros st H; [destruct H|].
  destruct H as [->|H].
  - unfold markSignals. cbn [fold_left]. apply (markSignals_keeps _ marks).
    apply hasProcessed_present. rewrite markProcessed_present. eauto.
  - unfold markSignals in *. cbn [fold_left]. apply IH, H.
Qed.

(** X6: at most once. When every signal of a pass has been marked as
    processed, under whatever metadata, a second pass over the same answers
    of the API returns no signal. *)
Theorem detect_mark_detect (st : StateStore.State) (api : GitHubTrigger.Responses)
    (signals : list GitHubTrigger.Signal)
    (marks : list (StateStore.World * GitHubTrigger.Signal * list (string * value))) :
  GitHubTrigger.detectSignals st api = Ok signals ->
  List.map (fun m => snd (fst m)) marks = signals ->
  GitHubTrigger.detectSignals (markSignals st marks) api = Ok [].
Proof.
  intros Hd Hm.
  destruct (GitHubTrigger.fetchRecentCommits api) as [commits|e] eqn:Hc.
  2:{ unfold GitHubTrigger.detectSignals in Hd. rewrite Hc in Hd. discriminate Hd. }
  rewrite (detectSignals_filter _ _ _ Hc) in Hd. injection Hd as Hd.
  rewrite (detectSignals_filter _ _ _ Hc). f_equal.
  match goal with |- List.filter _ ?l = [] => set (cands := l) in * end.
  assert (Hall : forall c, In c cands ->
    StateStore.hasProcessed (markSignals st marks) (GitHubTrigger.id c) = true).
  { intros c Hin.
    destruct (StateStore.hasProcessed st (GitHubTrigger.id c)) eqn:Hp.
    - apply markSignals_keeps, Hp.
    - assert (In c signals) as Hs.
      { rewrite <- Hd. apply List.filter_In. split; [exact Hin|]. rewrite Hp. reflexivity. }
      rewrite <- Hm in Hs. apply List.in_map_iff in Hs. destruct Hs as (m & <- & Hmin).
      apply markSignals_marks, Hmin. }
  clearbody cands. clear Hd. induction cands as [|c cands IH]; [reflexivity|].
  simpl. rewrite (Hall c) by (left; reflexivity). simpl.
  apply IH. intros c' Hc'. apply Hall. right. exact Hc'.
Qed.

(** X6 on a pass of one commit. *)
Lemma detect_mark_detect_witness :
  let commit :=
    {| GitHubTrigger.commit_sha := js "abc";
       GitHubTrigger.commit_message := js "feat: add queue";
       GitHubTrigger.commit_author_name := js "dev";
       GitHubTrigger.commit_author_date := js "2024-01-01";
       GitHubTrigger.commit_html_url := js "https://example.org";
       GitHubTrigger.commit_files := None |} in
  let api :=
    {| GitHubTrigger.fetchRecentCommits := Ok [commit];
       GitHubTrigger.fetchReadme := Throw (AxiosError (Some 404) (js "Not Found"));
       GitHubTrigger.fetchRecentIssues := Ok [] |} in
  let w := {| StateStore.now := js "2024-01-01T00:00:00.000Z";
              StateStore.writeFileSync := Ok tt |} in
  GitHubTrigger.detectSignals
    (markSignals StateStore.empty [(w, GitHubTrigger.commitSignal commit, [])]) api
  = Ok [].
Proof.
  intros commit api w.
  apply (detect_mark_detect StateStore.empty api [GitHubTrigger.commitSignal commit]).
  - reflexivity.
  - reflexivity.
Defined.

(** ** Classification *)

Lemma clamp_monotone (x y : Q) :
  (x <= y)%Q -> (SignalClassifier.clamp x <= SignalClassifier.clamp y)%Q.
Proof.
  intros H. unfold SignalClassifier.clamp.
  apply Q.max_le_compat_l, Q.min_le_compat_l, H.
Qed.

Lemma classify_commitSignal commit :
  exists x, SignalClassifier.classify (GitHubTrigger.commitSignal commit) = Ok x
    /\ Qle_bool (1 # 2) (SignalClassifier.confidence x) = true.
Proof.
  rewrite classify_commit by reflexivity.
  unfold SignalClassifier.classifyCommit, GitHubTrigger.commitSignal.
  cbn [GitHubTrigger.data GitHubTrigger.confidence].
  repeat match goal with
         | |- context [if ?b then _ else _] => destruct b
         end; eexists; split; reflexivity.
Qed.

Lemma classify_readmeSignal readme :
  exists x, SignalClassifier.classify (GitHubTrigger.readmeSignal readme) = Ok x
    /\ Qle_bool (1 # 2) (SignalClassifier.confidence x) = true.
Proof.
  rewrite classify_readme by reflexivity. eexists. split; reflexivity.
Qed.

Lemma classify_issueSignal issue :
  exists x, SignalClassifier.classify (GitHubTrigger.issueSignal issue) = Ok x
    /\ Qle_bool (1 # 2) (SignalClassifier.confidence x) = true.
Proof.
  rewrite classify_issue by reflexivity.
  unfold SignalClassifier.classifyIssue, GitHubTrigger.issueSignal.
  cbn [GitHubTrigger.data GitHubTrigger.confidence].
  repeat match goal with
         | |- context [if ?b then _ else _] => destruct b; cbn iota beta
         end; eexists; split; reflexivity.
Qed.

Lemma classifyBatch_cons s l :
  SignalClassifier.classifyBatch (s :: l)
  = match SignalClassifier.classify s with
    | Ok x => match SignalClassifier.classifyBatch l with
              | Ok xs => Ok (x :: xs)
              | Throw e => Throw e
              end
    | Throw e => Throw e
    end.
Proof.
  unfold SignalClassifier.classifyBatch. simpl.
  destruct (SignalClassifier.classify s); simpl; [|reflexivity].
  destruct (mapM SignalClassifier.classify l); reflexivity.
Qed.

(** X7: the signals of a detection pass are all classified, none throws,
    and none is dropped by [filterByConfidence] at its default threshold of
    0.5: the priors of the trigger and the adjustments of the classifier
    leave every one of them at or above it. *)
Theorem detected_signals_pass_default_threshold (st : StateStore.State)
    (api : GitHubTrigger.Responses) (signals : list GitHubTrigger.Signal) :
  GitHubTrigger.detectSignals st api = Ok signals ->
  exists classified,
    SignalClassifier.classifyBatch signals = Ok classified
    /\ length classified = length signals
    /\ SignalClassifier.filterByConfidence classified (1 # 2) = classified.
Proof.
  intros Hd.
  assert (Hall : Forall (fun s => exists x, SignalClassifier.classify s = Ok x
                   /\ Qle_bool (1 # 2) (SignalClassifier.confidence x) = true) signals).
  { destruct (GitHubTrigger.fetchRecentCommits api) as [commits|e] eqn:Hc.
    2:{ unfold GitHubTrigger.detectSignals in Hd. rewrite Hc in Hd. discriminate Hd. }
    rewrite (detectSignals_filter _ _ _ Hc) in Hd. injection Hd as <-.
    apply List.Forall_forall. intros s Hs. apply List.filter_In in Hs.
    destruct Hs as [Hs _].
    apply List.in_app_or in Hs. destruct Hs as [Hs|Hs].
    { apply List.in_map_iff in Hs. destruct Hs as (c & <- & _).
      apply classify_commitSignal. }
    apply List.in_app_or in Hs. destruct Hs as [Hs|Hs].
    { destruct (GitHubTrigger.fetchReadme api) as [readme|e]; [|destruct Hs].
      destruct Hs as [<-|[]]. apply classify_readmeSignal. }
    destruct (GitHubTrigger.fetchRecentIssues api) as [issues|e]; [|destruct Hs].
    apply List.in_map_iff in Hs. destruct Hs as (i & <- & _).
    apply classify_issueSignal. }
  clear Hd. induction Hall as [|s l (x & Hx & Hq) _ (cs & Hb & Hlen & Hf)].
  - exists []. repeat split.
  - exists (x :: cs). rewrite classifyBatch_cons, Hx, Hb. repeat split.
    + simpl. rewrite Hlen. reflexivity.
    + unfold SignalClassifier.filterByConfidence in *. simpl. rewrite Hq, Hf.
      reflexivity.
Qed.

(** X7 on a pass of one commit. *)
Lemma detected_signals_pass_default_threshold_witness :
  let commit :=
    {| GitHubTrigger.commit_sha := js "abc";
       GitHubTrigger.commit_message := js "ci: update build";
       GitHubTrigger.commit_author_name := js "dev";
       GitHubTrigger.commit_author_date := js "2024-01-01";
       GitHubTrigger.commit_html_url := js "https://example.org";
       GitHubTrigger.commit_files := None |} in
  let api :=
    {| GitHubTrigger.fetchRecentCommits := Ok [commit];
       GitHubTrigger.fetchReadme := Throw (AxiosError (Some 404) (js "Not Found"));
       GitHubTrigger.fetchRecentIssues := Ok [] |} in
  exists classified,
    SignalClassifier.classifyBatch [GitHubTrigger.commitSignal commit] = Ok classified
    /\ length classified = 1%nat
    /\ SignalClassifier.filterByConfidence classified (1 # 2) = classified.
Proof.
  intros commit api.
  apply (detected_signals_pass_default_threshold StateStore.empty api
           [GitHubTrigger.commitSignal commit]).
  reflexivity.
Defined.

(** X8: classification is monotone in the prior. Two signals of the same
    type and data are put in the same category, and the one with the higher
    prior does not end below the other. *)
Theorem classify_monotone (s1 s2 : GitHubTrigger.Signal) (r1 : SignalClassifier.Classified) :
  GitHubTrigger.type s1 = GitHubTrigger.type s2 ->
  GitHubTrigger.data s1 = GitHubTrigger.data s2 ->
  (GitHubTrigger.confidence s1 <= GitHubTrigger.confidence s2)%Q ->
  SignalClassifier.classify s1 = Ok r1 ->
  exists r2,
    SignalClassifier.classify s2 = Ok r2
    /\ SignalClassifier.category r2 = SignalClassifier.category r1
    /\ (SignalClassifier.confidence r1 <= SignalClassifier.confidence r2)%Q.
Proof.
  intros Ht Hdata Hle. unfold SignalClassifier.classify. rewrite Ht.
  destruct (jstring_eqb (GitHubTrigger.type s2) (js "commit")).
  { unfold SignalClassifier.classifyCommit. rewrite Hdata.
    destruct (GitHubTrigger.data s2); try discriminate.
    repeat match goal with
           | |- context [if ?b then _ else _] => destruct b
           end; intros [= <-]; eexists; (split; [reflexivity|]);
      (split; [reflexivity|]); simpl; apply clamp_monotone; lra. }
  destruct (jstring_eqb (GitHubTrigger.type s2) (js "readme_update")).
  { intros [= <-]. eexists. split; [reflexivity|]. split; [reflexivity|].
    simpl. apply Q.min_le_compat_l. lra. }
  destruct (jstring_eqb (GitHubTrigger.type s2) (js "issue")).
  { unfold SignalClassifier.classifyIssue. rewrite Hdata.
    destruct (GitHubTrigger.data s2); try discriminate.
    repeat match goal with
           | |- context [if ?b then _ else _] => destruct b; cbn iota beta
           end; intros [= <-]; eexists; (split; [reflexivity|]);
      (split; [reflexivity|]); simpl; apply clamp_monotone; lra. }
  intros [= <-]. eexists. split; [reflexivity|]. split; [reflexivity|]. exact Hle.
Qed.

(** X8 on two commits that differ in the prior. *)
Lemma classify_monotone_witness :
  let signal prior :=
    {| GitHubTrigger.type := js "commit";
       GitHubTrigger.id := js "commit:abc";
       GitHubTrigger.data :=
         GitHubTrigger.CommitData (js "abc") (js "docs: explain the queue") (js "dev")
           (js "2024-01-01") (js "https://example.org") 0;
       GitHubTrigger.confidence := prior |} in
  exists r1 r2,
    SignalClassifier.classify (signal (2 # 10)) = Ok r1
    /\ SignalClassifier.classify (signal (7 # 10)) = Ok r2
    /\ SignalClassifier.category r2 = SignalClassifier.category r1
    /\ (SignalClassifier.confidence r1 <= SignalClassifier.confidence r2)%Q.
Proof.
  intros signal. eexists.
  destruct (classify_monotone (signal (2 # 10)) (signal (7 # 10)) _ eq_refl eq_refl
              ltac:(unfold Qle; simpl; lia) eq_refl) as (r2 & H2 & Hc & Hq).
  exists r2. split; [reflexivity|]. split; [exact H2|]. split; assumption.
Defined.

(** X9: [calculateFileConfidence] keeps a base confidence of [[0, 1]]
    within [[0, 1]] and never takes more than 0.2 off it; a path that
    mentions a test ends at 0.3 or more, and a configuration file that is not
    an important one at 0.4 or more. *)
Theorem calculateFileConfidence_bounds (filepath : list N) (baseConfidence : Q) :
  (0 <= baseConfidence)%Q -> (baseConfidence <= 1)%Q ->
  (0 <= SignalClassifier.calculateFileConfidence filepath baseConfidence)%Q
  /\ (SignalClassifier.calculateFileConfidence filepath baseConfidence <= 1)%Q
  /\ (baseConfidence - (2 # 10)
      <= SignalClassifier.calculateFileConfidence filepath baseConfidence)%Q
  /\ (existsb (fun t => contains (js t) (lowerASCII filepath))
        ["test"; "spec"; "__tests__"]%string = true ->
      (3 # 10 <= SignalClassifier.calculateFileConfidence filepath baseConfidence)%Q)
  /\ (SignalClassifier.categorizeFile filepath
      = SignalClassifier.Named SignalClassifier.config ->
      SignalClassifier.isImportantFile filepath = false ->
      (4 # 10 <= SignalClassifier.calculateFileConfidence filepath baseConfidence)%Q).
Proof.
  intros H0 H1. unfold SignalClassifier.calculateFileConfidence.
  destruct (SignalClassifier.isImportantFile filepath) eqn:Ei;
  destruct (existsb _ _) eqn:Et;
  destruct (SignalClassifier.categorizeFile filepath) as [[| | |]|] eqn:Ec;
  cbn [negb];
  repeat match goal with
         | |- context [Qmax ?a ?b] =>
             let H := fresh in
             pose proof (Q.max_spec a b) as H; generalize dependent (Qmax a b); intros
         | |- context [Qmin ?a ?b] =>
             let H := fresh in
             pose proof (Q.min_spec a b) as H; generalize dependent (Qmin a b); intros
         | H' : context [Qmax ?a ?b] |- _ =>
             let H := fresh in
             pose proof (Q.max_spec a b) as H; generalize dependent (Qmax a b); intros
         | H' : context [Qmin ?a ?b] |- _ =>
             let H := fresh in
             pose proof (Q.min_spec a b) as H; generalize dependent (Qmin a b); intros
         end;
  repeat split; intros; try discriminate; try congruence; lra.
Qed.

(** X9 on a test file under [src/]. *)
Lemma calculateFileConfidence_bounds_witness :
  (3 # 10 <= SignalClassifier.calculateFileConfidence (js "src/queue.test.js") (2 # 10))%Q.
Proof.
  apply (calculateFileConfidence_bounds (js "src/queue.test.js") (2 # 10)).
  - unfold Qle. simpl. lia.
  - unfold Qle. simpl. lia.
  - reflexivity.
Defined.

(** ** Normalization *)

Lemma sanitizeText_cases x m :
  DataNormalizer.sanitizeText x m = DataNormalizer.cleaned x
  /\ jlength (DataNormalizer.cleaned x) <= Z.max m 0
  \/ DataNormalizer.sanitizeText x m
     = take (Z.to_nat (m - 3)) (DataNormalizer.cleaned x) ++ DataNormalizer.ellipsis
     /\ jlength (DataNormalizer.cleaned x) > m.
Proof.
  destruct x as [|c r].
  - left. split; [reflexivity|]. unfold jlength. simpl. lia.
  - rewrite sanitizeText_nonempty by discriminate.
    destruct (Z.gtb_spec (jlength (DataNormalizer.cleaned (c :: r))) m).
    + right. split; [reflexivity|lia].
    + left. split; [reflexivity|lia].
Qed.

Lemma sanitizeText_length x m :
  jlength (DataNormalizer.sanitizeText x m) <= Z.max m 3.
Proof.
  destruct (sanitizeText_cases x m) as [[-> Hlen]|[-> Hlen]]; [lia|].
  unfold jlength in *. rewrite length_app, length_take. simpl. lia.
Qed.

(** X10: what [sanitizeText] returns is clean, for every string and cap:
    its only white-space character is the single space, never twice in a row
    and never first or last; and it is at most as long as the cap, or three
    characters for a cap below three. *)
Theorem sanitizeText_clean (x : list N) (maxLength : Z) :
  tidy (DataNormalizer.sanitizeText x maxLength)
  /\ head_ok (DataNormalizer.sanitizeText x maxLength)
  /\ trimEnd (DataNormalizer.sanitizeText x maxLength)
     = DataNormalizer.sanitizeText x maxLength
  /\ jlength (DataNormalizer.sanitizeText x maxLength) <= Z.max maxLength 3.
Proof.
  destruct (sanitizeText_cases x maxLength) as [[Hs Hlen]|[Hs Hlen]]; rewrite Hs.
  - split; [apply cleaned_tidy|]. split; [apply trim_head_ok|].
    split; [apply trimEnd_trim|]. lia.
  - split; [|split; [|split]].
    + apply tidy_app_word.
      * apply tidy_take, cleaned_tidy.
      * simpl. rewrite is_space_DOT. repeat split; intros; congruence.
      * reflexivity.
    + pose proof (trim_head_ok (collapseWhitespace x)) as Hh.
      fold (DataNormalizer.cleaned x) in Hh.
      destruct (DataNormalizer.cleaned x) as [|c r];
        destruct (Z.to_nat (maxLength - 3)); simpl; trivial; reflexivity.
    + apply trimEnd_app_word. reflexivity.
    + rewrite <- Hs. apply sanitizeText_length.
Qed.

Lemma sanitizeValue_bounded v m out :
  3 <= m -> DataNormalizer.sanitizeValue v m = Ok out -> jlength out <= m.
Proof.
  intros Hm. unfold DataNormalizer.sanitizeValue.
  destruct (truthy v); simpl.
  - destruct v; try discriminate. intros [= <-].
    pose proof (sanitizeText_length s m) as H. lia.
  - intros [= <-]. unfold jlength. simpl. lia.
Qed.

Lemma make_hundredths (z : Z) : (z # 100 == inject_Z z * (1 # 100))%Q.
Proof. unfold Qeq, Qmult, inject_Z. simpl. lia. Qed.

Lemma round_half_up_near (x : Q) :
  (x - (1 # 200) <= Qfloor (x * 100 + (1 # 2)) # 100)%Q
  /\ (Qfloor (x * 100 + (1 # 2)) # 100 <= x + (1 # 200))%Q.
Proof.
  pose proof (Qfloor_le (x * 100 + (1 # 2))) as Hlo.
  pose proof (Qlt_floor (x * 100 + (1 # 2))) as Hhi.
  rewrite inject_Z_plus in Hhi.
  rewrite make_hundredths.
  set (z := inject_Z (Qfloor (x * 100 + (1 # 2)))) in *.
  change (inject_Z 1) with 1%Q in Hhi. split; lra.
Qed.

(** The doubles nearest to the hundredths of [[0, 1]], one by one: each is
    in [[0, 1]], within [2^-54] of its hundredth, and rounds back to it. *)
Lemma hundredths_checked :
  forallb (fun k =>
             let h := Z.of_nat k # 100 in
             let r := DataNormalizer.binary64 h in
             Qle_bool 0 r && Qle_bool r 1
             && Qle_bool (r - h) (1 # 18014398509481984)
             && Qle_bool (h - r) (1 # 18014398509481984)
             && (Qfloor (r * 100 + (1 # 2)) =? Z.of_nat k))
          (seq 0 101) = true.
Proof. vm_compute. reflexivity. Qed.

Lemma hundredth_double (n : Z) :
  0 <= n <= 100 ->
  (0 <= DataNormalizer.binary64 (n # 100))%Q
  /\ (DataNormalizer.binary64 (n # 100) <= 1)%Q
  /\ (DataNormalizer.binary64 (n # 100) - (n # 100) <= 1 # 18014398509481984)%Q
  /\ ((n # 100) - DataNormalizer.binary64 (n # 100) <= 1 # 18014398509481984)%Q
  /\ Qfloor (DataNormalizer.binary64 (n # 100) * 100 + (1 # 2)) = n.
Proof.
  intros Hn. pose proof hundredths_checked as H.
  rewrite forallb_forall in H. specialize (H (Z.to_nat n)).
  rewrite Z2Nat.id in H by lia. cbv zeta in H.
  assert (In (Z.to_nat n) (seq 0 101)) as Hin by (apply in_seq; lia).
  apply H in Hin. rewrite !andb_true_iff in Hin.
  destruct Hin as ((((H1 & H2) & H3) & H4) & H5).
  apply Qle_bool_iff in H1, H2, H3, H4. apply Z.eqb_eq in H5. auto.
Qed.

(** On [[0, 1]] the rounding is the double of a hundredth between 0 and
    100. *)
Lemma toFixed2_hundredth (x : Q) :
  (0 <= x)%Q -> (x <= 1)%Q ->
  DataNormalizer.toFixed2 x
  = DataNormalizer.binary64 (Qfloor (x * 100 + (1 # 2)) # 100)
  /\ 0 <= Qfloor (x * 100 + (1 # 2)) <= 100.
Proof.
  intros H0 H1. unfold DataNormalizer.toFixed2.
  assert (Qle_bool (inject_Z (10 ^ 21)) (Qabs x) = false) as ->.
  { destruct (Qle_bool (inject_Z (10 ^ 21)) (Qabs x)) eqn:E; [|reflexivity].
    apply Qle_bool_iff in E. rewrite Qabs_pos in E by assumption.
    assert (inject_Z (10 ^ 21) <= 1)%Q as Hbad by lra.
    unfold Qle in Hbad. simpl in Hbad. lia. }
  assert (Qle_bool 0 x = true) as -> by (apply Qle_bool_iff, H0).
  split; [reflexivity|]. split.
  - apply (Qfloor_resp_le 0). lra.
  - apply (Qfloor_resp_le _ (201 # 2)). lra.
Qed.

Lemma toFixed2_unit (x : Q) :
  (0 <= x)%Q -> (x <= 1)%Q ->
  (0 <= DataNormalizer.toFixed2 x)%Q /\ (DataNormalizer.toFixed2 x <= 1)%Q.
Proof.
  intros H0 H1. destruct (toFixed2_hundredth x H0 H1) as [-> Hn].
  destruct (hundredth_double _ Hn) as (Ha & Hb & _). split; assumption.
Qed.

(** X11: on a number of [[0, 1]], [parseFloat(x.toFixed(2))] returns the
    double nearest to a hundredth: it is within [0.005 + 2^-54] of the
    number, and applying the rounding to it again returns it unchanged. The
    distance can exceed 0.005, as it does at 0.125. *)
Theorem toFixed2_near (x : Q) :
  (0 <= x)%Q -> (x <= 1)%Q ->
  (x - ((1 # 200) + (1 # 18014398509481984)) <= DataNormalizer.toFixed2 x)%Q
  /\ (DataNormalizer.toFixed2 x <= x + ((1 # 200) + (1 # 18014398509481984)))%Q
  /\ DataNormalizer.toFixed2 (DataNormalizer.toFixed2 x) = DataNormalizer.toFixed2 x.
Proof.
  intros H0 H1. destruct (toFixed2_hundredth x H0 H1) as [E Hn].
  destruct (hundredth_double _ Hn) as (Ha & Hb & Hc & Hd & He).
  destruct (round_half_up_near x) as [Hlo Hhi].
  split; [rewrite E; lra|]. split; [rewrite E; lra|].
  rewrite E.
  destruct (toFixed2_hundredth
              (DataNormalizer.binary64 (Qfloor (x * 100 + (1 # 2)) # 100)) Ha Hb)
    as [-> _].
  rewrite He. reflexivity.
Qed.

(** X11 at the confidence 0.125, which is rounded to the double of 0.13,
    more than 0.005 away. *)
Lemma toFixed2_near_witness :
  (DataNormalizer.toFixed2 (1 # 8) <= (1 # 8) + ((1 # 200) + (1 # 18014398509481984)))%Q
  /\ ~ (DataNormalizer.toFixed2 (1 # 8) <= (1 # 8) + (1 # 200))%Q
  /\ DataNormalizer.toFixed2 (DataNormalizer.toFixed2 (1 # 8))
     = DataNormalizer.toFixed2 (1 # 8).
Proof.
  destruct (toFixed2_near (1 # 8)) as (_ & Hhi & Hfix).
  - unfold Qle. simpl. lia.
  - unfold Qle. simpl. lia.
  - split; [exact Hhi|]. split; [|exact Hfix].
    vm_compute. intros H. apply H. reflexivity.
Defined.

(** X12: whatever the enriched signal holds, the record [normalize]
    returns has a topic of at most 100 characters, a context of at most 500,
    and an array of sources; and its confidence is in [[0, 1]] as soon as
    the confidence of the signal, if it is a number, is. These are the checks
    [validate] makes on the values of a record. *)
Theorem normalize_well_formed (now : list N) (e : DataNormalizer.Enriched) :
  jlength (DataNormalizer.topic (DataNormalizer.normalize now e)) <= 100
  /\ jlength (DataNormalizer.context (DataNormalizer.normalize now e)) <= 500
  /\ (exists l, DataNormalizer.sources (DataNormalizer.normalize now e) = VArr l)
  /\ ((forall c, DataNormalizer.enriched_confidence e = Some c -> (0 <= c)%Q /\ (c <= 1)%Q) ->
      (0 <= DataNormalizer.confidence (DataNormalizer.normalize now e))%Q
      /\ (DataNormalizer.confidence (DataNormalizer.normalize now e) <= 1)%Q).
Proof.
  unfold DataNormalizer.normalize, DataNormalizer.normalize_try.
  destruct (DataNormalizer.sanitizeValue (DataNormalizer.enriched_topic e)
              DataNormalizer.maxTopicLength) as [t|err] eqn:Et; simpl.
  2:{ repeat split; try (vm_compute; congruence); eauto. }
  destruct (DataNormalizer.sanitizeValue (DataNormalizer.enriched_context e)
              DataNormalizer.maxContextLength) as [ctx|err] eqn:Ec; simpl.
  2:{ repeat split; try (vm_compute; congruence); eauto. }
  destruct (DataNormalizer.enriched_confidence e) as [c|] eqn:Econf; simpl.
  2:{ repeat split; try (vm_compute; congruence); eauto. }
  split; [apply (sanitizeValue_bounded _ 100 _ ltac:(lia) Et)|].
  split; [apply (sanitizeValue_bounded _ 500 _ ltac:(lia) Ec)|].
  split.
  - destruct (DataNormalizer.enriched_sources e); eauto.
  - intros H. destruct (H c eq_refl) as [H0 H1].
    apply (toFixed2_unit c H0 H1).
Qed.

(** X12 on an enriched signal with a long context. *)
Lemma normalize_well_formed_witness :
  let e :=
    {| DataNormalizer.enriched_topic := VStr (js "rate limiting");
       DataNormalizer.enriched_category := VStr (js "code");
       DataNormalizer.enriched_signalType := VStr (js "commit");
       DataNormalizer.enriched_context := VStr (repeat 97%N 600);
       DataNormalizer.enriched_confidence := Some (7349 # 10000);
       DataNormalizer.enriched_sources := VUndefined;
       DataNormalizer.enriched_originalSignal := VUndefined |} in
  (0 <= DataNormalizer.confidence (DataNormalizer.normalize [] e))%Q
  /\ (DataNormalizer.confidence (DataNormalizer.normalize [] e) <= 1)%Q.
Proof.
  intros e. apply (proj2 (proj2 (proj2 (normalize_well_formed [] e)))).
  intros c [= <-]. split; unfold Qle; simpl; lia.
Defined.

(** X13: [mergeContext] ignores the entries that are empty or made of
    white space only: dropping such an entry from the array does not change
    the merged context. *)
Theorem mergeContext_ignores_blank (l1 l2 : list (list N)) (blank : list N) :
  trim blank = [] ->
  DataNormalizer.mergeContext (l1 ++ blank :: l2) = DataNormalizer.mergeContext (l1 ++ l2).
Proof.
  intros Hb. unfold DataNormalizer.mergeContext.
  rewrite !List.filter_app. cbn [List.filter].
  assert (match blank with
          | [] => false
          | _ => match trim blank with [] => false | _ => true end
          end = false) as ->.
  { rewrite Hb. destruct blank; reflexivity. }
  destruct (l1 ++ blank :: l2) eqn:E1; [destruct l1; discriminate|].
  destruct (l1 ++ l2) eqn:E2; [|reflexivity].
  apply app_eq_nil in E2 as [-> ->]. reflexivity.
Qed.

(** X13 on three contexts around a blank one. *)
Lemma mergeContext_ignores_blank_witness :
  trim (js "   ") = []
  /\ DataNormalizer.mergeContext [js "a b"; js "   "; js " c "]
     = DataNormalizer.mergeContext [js "a b"; js " c "].
Proof.
  split; [reflexivity|].
  apply (mergeContext_ignores_blank [js "a b"] [js " c "] (js "   ")). reflexivity.
Defined.

(** ** Keywords *)

Lemma existsb_eqb_elem (x : list N) (seen : list (list N)) :
  existsb (jstring_eqb x) seen = true <-> x ∈ seen.
Proof.
  rewrite existsb_exists. split.
  - intros (y & Hy & E). unfold jstring_eqb in E. apply bool_decide_eq_true in E.
    subst. apply list_elem_of_In, Hy.
  - intros H. exists x. split; [apply list_elem_of_In, H|].
    unfold jstring_eqb. apply bool_decide_eq_true. reflexivity.
Qed.

Lemma uniqueFrom_elem (l seen : list (list N)) (x : list N) :
  x ∈ uniqueFrom seen l <-> x ∈ l /\ x ∉ seen.
Proof.
  revert seen. induction l as [|y r IH]; intros seen; cbn [uniqueFrom].
  - split; [intros H; inversion H|intros [H _]; inversion H].
  - destruct (existsb (jstring_eqb y) seen) eqn:E.
    + apply existsb_eqb_elem in E. rewrite IH, elem_of_cons. split.
      * intros [H1 H2]. auto.
      * intros [[->|H1] H2]; [contradiction|auto].
    + assert (y ∉ seen) as Hy.
      { intros H. apply existsb_eqb_elem in H. congruence. }
      rewrite !elem_of_cons, IH, elem_of_cons. split.
      * intros [->|[H1 H2]]; [auto|]. split; [auto|]. intros H. apply H2. auto.
      * intros [[->|H1] H2]; [auto|].
        destruct (decide (x = y)) as [->|Hne]; [auto|].
        right. split; [assumption|]. intros [?|?]; contradiction.
Qed.

Lemma uniqueFrom_NoDup (l seen : list (list N)) : NoDup (uniqueFrom seen l).
Proof.
  revert seen. induction l as [|y r IH]; intros seen; cbn [uniqueFrom].
  - constructor.
  - destruct (existsb (jstring_eqb y) seen); [apply IH|].
    constructor; [|apply IH].
    rewrite uniqueFrom_elem. intros [_ H]. apply H. left.
Qed.

Lemma splitWhitespace_pieces (s : list N) :
  Forall (Forall (fun c => is_space c = false /\ c ∈ s)) (splitWhitespace s).
Proof.
  assert (Hmono : forall (c : N) r (ps : list (list N)),
             Forall (Forall (fun c => is_space c = false /\ c ∈ r)) ps ->
             Forall (Forall (fun c' => is_space c' = false /\ c' ∈ c :: r)) ps).
  { intros c r ps H. eapply Forall_impl; [exact H|].
    intros p Hp. eapply Forall_impl; [exact Hp|].
    intros c' [H1 H2]. split; [assumption|]. right. assumption. }
  induction s as [|c r IH].
  - repeat constructor.
  - cbn [splitWhitespace]. destruct (is_space c) eqn:Ec.
    + destruct r as [|c' r']; [repeat constructor|].
      destruct (is_space c'); [|constructor; [constructor|]]; apply Hmono, IH.
    + apply (Hmono c) in IH.
      destruct (splitWhitespace r) as [|p ps].
      * repeat constructor. assumption.
      * inversion IH; subst. constructor; [|assumption].
        constructor; [|assumption]. split; [assumption|left].
Qed.

Lemma blankOthers_chars (s : list N) (c : N) :
  c ∈ DataFetcher.blankOthers s -> is_space c = false ->
  DataFetcher.is_lower_alnum c = true.
Proof.
  unfold DataFetcher.blankOthers. intros H Hc.
  apply list_elem_of_In, in_map_iff in H as (c0 & E & _).
  destruct (DataFetcher.is_lower_alnum c0) eqn:E1; simpl in E; [congruence|].
  destruct (is_space c0) eqn:E2; simpl in E; subst; [congruence|].
  vm_compute in Hc. discriminate.
Qed.

(** X14: the keywords [extractKeywords] returns are at most three, all
    different, each longer than three characters and made of the characters
    a-z and 0-9 only, and none is a stop word. *)
Theorem extractKeywords_keywords (signal : GitHubTrigger.Signal) (keywords : list (list N)) :
  DataFetcher.extractKeywords signal = Ok keywords ->
  (length keywords <= 3)%nat
  /\ NoDup keywords
  /\ forall word, word ∈ keywords ->
       (3 < length word)%nat
       /\ forallb DataFetcher.is_lower_alnum word = true
       /\ forall stop, stop ∈ DataFetcher.stopWords -> word <> js stop.
Proof.
  unfold DataFetcher.extractKeywords.
  destruct (DataFetcher.keywordText signal) as [text|]; [|discriminate].
  intros [= <-]. split; [rewrite length_take; lia|].
  split; [eapply sublist_NoDup; [apply uniqueFrom_NoDup|apply sublist_take]|].
  intros word Hw.
  apply (fun H => elem_of_sublist _ _ _ H (sublist_take _ _)) in Hw.
  apply uniqueFrom_elem in Hw as [Hw _].
  apply list_elem_of_In, filter_In in Hw as [Hw Hs].
  unfold DataFetcher.significant in Hs. apply andb_true_iff in Hs as [Hlen Hstop].
  split; [apply Nat.ltb_lt, Hlen|]. split.
  - pose proof (splitWhitespace_pieces
                  (DataFetcher.blankOthers (SignalClassifier.toLowerCase text))) as H.
    rewrite List.Forall_forall in H. specialize (H _ Hw).
    apply forallb_forall. intros c Hc.
    rewrite List.Forall_forall in H. destruct (H c Hc) as [H1 H2].
    eapply blankOthers_chars; eassumption.
  - intros stop Hin ->. apply negb_true_iff in Hstop.
    assert (existsb (fun w => jstring_eqb (js w) (js stop)) DataFetcher.stopWords = true)
      as E; [|congruence].
    apply existsb_exists. exists stop. split; [apply list_elem_of_In, Hin|].
    unfold jstring_eqb. apply bool_decide_eq_true. reflexivity.
Qed.

(** X14 on a commit message. *)
Lemma extractKeywords_keywords_witness :
  let signal :=
    {| GitHubTrigger.type := js "commit";
       GitHubTrigger.id := js "commit:abc";
       GitHubTrigger.data :=
         GitHubTrigger.CommitData (js "abc")
           (js "Add Rate-Limiting to the publisher; update publisher tests")
           (js "dev") (js "2024-01-01") (js "https://example.org") 0;
       GitHubTrigger.confidence := 7 # 10 |} in
  let keywords := [js "rate"; js "limiting"; js "publisher"] in
  DataFetcher.extractKeywords signal = Ok keywords
  /\ (length keywords <= 3)%nat /\ NoDup keywords.
Proof.
  intros signal keywords.
  assert (DataFetcher.extractKeywords signal = Ok keywords) as H by reflexivity.
  split; [exact H|].
  destruct (extractKeywords_keywords signal keywords H) as (H1 & H2 & _).
  split; assumption.
Defined.

(** X15: the keywords [_extractKeywords] returns for an image are at
    least two and at most five, all different. *)
Theorem image_keywords_count (context postMetadata : value) (keywords : list (list N)) :
  ImagePromptGenerator._extractKeywords context postMetadata = Ok keywords ->
  (2 <= length keywords)%nat /\ (length keywords <= 5)%nat /\ NoDup keywords.
Proof.
  unfold ImagePromptGenerator._extractKeywords.
  destruct (JS.get postMetadata "topic") as [topic|]; [|discriminate]. simpl.
  destruct (if truthy topic then _ else _) as [fromTopic|]; [|discriminate]. simpl.
  destruct (JS.get postMetadata "signalType") as [signalType|]; [|discriminate]. simpl.
  destruct (JS.get context "summary") as [summary|]; [|discriminate]. simpl.
  destruct (if truthy summary then _ else _) as [fromSummary|]; [|discriminate]. simpl.
  intros [= <-].
  set (fromType := match signalType with VStr _ => _ | _ => _ end).
  assert (exists a b, a <> b /\ a ∈ fromType /\ b ∈ fromType) as (a & b & Hab & Ha & Hb).
  { subst fromType. destruct signalType as [| | | |t| |];
      try (exists (js "professional"), (js "business");
           split; [discriminate|split; [left|right; left]]).
    destruct (jstring_eqb t (js "github")).
    - exists (js "coding"), (js "technology"). split; [discriminate|split; [left|right; left]].
    - destruct (jstring_eqb t (js "wikipedia")).
      + exists (js "knowledge"), (js "learning").
        split; [discriminate|split; [left|right; left]].
      + exists (js "professional"), (js "business").
        split; [discriminate|split; [left|right; left]]. }
  set (all := fromTopic ++ fromType ++ fromSummary).
  assert (2 <= length (unique all))%nat as Hlen.
  { assert (NoDup [a; b]) as Hnd.
    { constructor; [intros H; apply list_elem_of_singleton in H; contradiction|].
      constructor; [intros H; inversion H|constructor]. }
    apply NoDup_ListNoDup in Hnd.
    apply (NoDup_incl_length Hnd).
    intros x [<-|[<-|[]]]; apply list_elem_of_In, uniqueFrom_elem;
      (split; [|intros H; inversion H]); subst all;
      rewrite !elem_of_app; auto. }
  split; [rewrite length_take; lia|]. split; [rewrite length_take; lia|].
  eapply sublist_NoDup; [apply uniqueFrom_NoDup|apply sublist_take].
Qed.

(** X15 on a post about rate limiting. *)
Lemma image_keywords_count_witness :
  let context := VObj [("summary"%string, VStr (js "The token bucket limits the rate"))] in
  let postMetadata :=
    VObj [("topic"%string, VStr (js "Rate limiting!"));
          ("signalType"%string, VStr (js "github"))] in
  let keywords :=
    [js "rate limiting"; js "coding"; js "technology"; js "software"; js "token"] in
  ImagePromptGenerator._extractKeywords context postMetadata = Ok keywords
  /\ (2 <= length keywords)%nat /\ (length keywords <= 5)%nat /\ NoDup keywords.
Proof.
  intros context postMetadata keywords.
  assert (ImagePromptGenerator._extractKeywords context postMetadata = Ok keywords)
    as H by reflexivity.
  split; [exact H|]. exact (image_keywords_count context postMetadata keywords H).
Defined.

(** ** Prompts *)

(** X16: a prompt that [buildPrompt] has built passes [validatePrompt]
    exactly when the record it was built from has a truthy [signalId], a
    truthy [topic] and a truthy [context] (and the clock gave a time stamp);
    the validation never throws on such a prompt. *)
Theorem validatePrompt_buildPrompt (now : list N) (normalizedData prompt : value) :
  PromptBuilder.buildPrompt now normalizedData = Ok prompt ->
  PromptBuilder.validatePrompt prompt
  = Ok (truthy (get_opt normalizedData "signalId") && truthy (VStr now)
        && truthy (get_opt normalizedData "topic")
        && truthy (get_opt normalizedData "context")).
Proof.
  unfold PromptBuilder.buildPrompt, PromptBuilder.buildInstructionBlocks, get_opt.
  destruct normalizedData as [| |b|n|s|fields|l]; try discriminate;
    cbn [JS.get mbind result_bind]; intros [= <-].
  all: try solve [vm_compute; reflexivity].
  cbv beta iota delta [PromptBuilder.validatePrompt PromptBuilder.hasProperty].
  cbn [existsb fst String.eqb Ascii.eqb Bool.eqb orb mbind result_bind negb JS.get field].
  destruct (truthy (field "signalId" fields)); cbn; [|reflexivity].
  destruct now as [|c r]; cbn; [reflexivity|].
  destruct (truthy (field "topic" fields)); cbn; [|reflexivity].
  destruct (truthy (field "context" fields)); reflexivity.
Qed.

(** X16 on a record without a topic. *)
Lemma validatePrompt_buildPrompt_witness :
  let normalizedData :=
    VObj [("signalId"%string, VStr (js "commit:abc"));
          ("topic"%string, VStr []);
          ("context"%string, VStr (js "Technical topic: rate"))] in
  exists prompt,
    PromptBuilder.buildPrompt (js "2024-01-01T00:00:00.000Z") normalizedData = Ok prompt
    /\ PromptBuilder.validatePrompt prompt = Ok false.
Proof.
  intros normalizedData. eexists. split; [reflexivity|].
  apply (validatePrompt_buildPrompt (js "2024-01-01T00:00:00.000Z") normalizedData).
  reflexivity.
Defined.

Lemma buildPrompt_throws now data e :
  PromptBuilder.buildPrompt now data = Throw e ->
  exists e', JS.get data "signalId" = Throw e'.
Proof.
  unfold PromptBuilder.buildPrompt, PromptBuilder.buildInstructionBlocks.
  destruct data; cbn [JS.get mbind result_bind]; try discriminate; eauto.
Qed.

Lemma buildBatchFrom_no_errors items :
  forall prompts errors prompts' errors',
    PromptBuilder.buildBatchFrom prompts errors items = Ok (prompts', errors') ->
    errors' = errors
    /\ exists built,
         prompts' = prompts ++ built
         /\ Forall2 (fun item prompt =>
                       PromptBuilder.buildPrompt (fst item) (snd item) = Ok prompt)
                    items built.
Proof.
  induction items as [|[now data] rest IH]; intros prompts errors prompts' errors';
    cbn [PromptBuilder.buildBatchFrom].
  - intros [= <- <-]. split; [reflexivity|]. exists []. rewrite app_nil_r.
    split; [reflexivity|constructor].
  - destruct (PromptBuilder.buildPrompt now data) as [prompt|e] eqn:E.
    + intros H. apply IH in H as (-> & built & -> & HF). split; [reflexivity|].
      exists (prompt :: built). rewrite <- app_assoc. split; [reflexivity|].
      constructor; assumption.
    + apply buildPrompt_throws in E as [e' ->]. discriminate.
Qed.

(** X17: [buildBatch] never reports a failed record: when it returns, its
    list of errors is empty and it holds one prompt for each record, in
    order. A record that [buildPrompt] fails on makes the whole call throw,
    because the handler of the loop reads the same record. *)
Theorem buildBatch_reports_no_errors (items : list (list N * value))
    (prompts : list value) (errors : list (value * list N)) :
  PromptBuilder.buildBatch items = Ok (prompts, errors) ->
  errors = []
  /\ Forall2 (fun item prompt =>
                PromptBuilder.buildPrompt (fst item) (snd item) = Ok prompt)
             items prompts.
Proof.
  intros H. apply buildBatchFrom_no_errors in H as (-> & built & -> & HF).
  split; [reflexivity|exact HF].
Qed.

(** X17 on a batch of one record. *)
Lemma buildBatch_reports_no_errors_witness :
  let items := [(js "2024-01-01T00:00:00.000Z", VObj [("topic"%string, VStr (js "rate"))])] in
  exists prompts,
    PromptBuilder.buildBatch items = Ok (prompts, [])
    /\ length prompts = 1%nat.
Proof.
  intros items. eexists. split; [reflexivity|].
  pose proof (buildBatch_reports_no_errors items _ [] eq_refl) as [_ HF].
  apply Forall2_length in HF. symmetry. exact HF.
Defined.

(** X18: a record that is [null] makes [buildBatch] throw, whatever the
    other records are, so that no prompt of the batch is returned. *)
Theorem buildBatch_null_record (before after : list (list N * value)) (now : list N) :
  exists e, PromptBuilder.buildBatch (before ++ (now, VNull) :: after) = Throw e.
Proof.
  unfold PromptBuilder.buildBatch. generalize (@nil value) as prompts.
  induction before as [|[now' data] rest IH]; intros prompts.
  - eexists. reflexivity.
  - cbn [app PromptBuilder.buildBatchFrom].
    destruct (PromptBuilder.buildPrompt now' data) as [prompt|e] eqn:E; [apply IH|].
    apply buildPrompt_throws in E as [e' ->]. eexists. reflexivity.
Qed.

(** ** The workflow engine *)

Lemma slice_last_slice_last {A} n m (l : list A) :
  (n <= m)%nat ->
  StateStore.slice_last n (StateStore.slice_last m l) = StateStore.slice_last n l.
Proof.
  intros H. unfold StateStore.slice_last. rewrite length_drop, drop_drop.
  f_equal. lia.
Qed.

Lemma slice_last_end {A} (l k : list A) :
  StateStore.slice_last (length k) (l ++ k) = k.
Proof.
  unfold StateStore.slice_last. rewrite length_app.
  replace (length l + length k - length k)%nat with (length l) by lia.
  apply drop_app_length.
Qed.

(** X19: [executeWorkflow] never returns its result. The recording of the
    success throws, the handler records an error and its recording throws
    too, so the call is rejected; the audit trail then ends with an entry
    [success] followed by an entry [error], whatever it held before. *)
Theorem executeWorkflow_rejects (stateStore : StateStore.State) (w1 w2 : StateStore.World) :
  fst (WorkflowEngine.executeWorkflow stateStore w1 w2) = Throw (TypeError "error")
  /\ StateStore.getRecentExecutions
       (snd (WorkflowEngine.executeWorkflow stateStore w1 w2)) 2
     = [VObj [("message"%string, VStr (js "Placeholder execution completed"));
              ("workflow"%string, VStr (js "workflow-engine"));
              ("status"%string, VStr (js "success"));
              ("timestamp"%string, VStr (StateStore.now w1))];
        VObj [("error"%string, VStr (message (TypeError "error")));
              ("workflow"%string, VStr (js "workflow-engine"));
              ("status"%string, VStr (js "error"));
              ("timestamp"%string, VStr (StateStore.now w2))]].
Proof.
  set (c1 := {| StateStore.call_world := w1;
                StateStore.call_workflow := js "workflow-engine";
                StateStore.call_status := js "success";
                StateStore.call_details :=
                  [("message"%string, VStr (js "Placeholder execution completed"))] |}).
  set (c2 := {| StateStore.call_world := w2;
                StateStore.call_workflow := js "workflow-engine";
                StateStore.call_status := js "error";
                StateStore.call_details :=
                  [("error"%string, VStr (message (TypeError "error")))] |}).
  assert (WorkflowEngine.executeWorkflow stateStore w1 w2
          = (Throw (TypeError "error"), StateStore.record (StateStore.record stateStore c1) c2))
    as ->.
  { unfold WorkflowEngine.executeWorkflow.
    pose proof (recordExecution_throws stateStore w1 (js "workflow-engine") (js "success")
                  [("message"%string, VStr (js "Placeholder execution completed"))]) as H1.
    unfold StateStore.record at 2. cbn [StateStore.call_world StateStore.call_workflow
      StateStore.call_status StateStore.call_details c1].
    destruct (StateStore.recordExecution stateStore w1 _ _ _) as [r1 st1].
    cbn [fst snd] in *. subst r1.
    pose proof (recordExecution_throws st1 w2 (js "workflow-engine") (js "error")
                  [("error"%string, VStr (message (TypeError "error")))]) as H2.
    unfold StateStore.record. cbn [StateStore.call_world StateStore.call_workflow
      StateStore.call_status StateStore.call_details c2].
    destruct (StateStore.recordExecution st1 w2 _ _ _) as [r2 st2].
    cbn [fst snd] in *. subst r2. reflexivity. }
  cbn [fst snd]. split; [reflexivity|].
  unfold StateStore.getRecentExecutions.
  rewrite !record_executions, slice_last_app, <- app_assoc.
  rewrite slice_last_slice_last by lia.
  apply (slice_last_end _ [StateStore.entry_of c1; StateStore.entry_of c2]).
Qed.

(** ** Generated text *)

Lemma squeezeBreaks_spaced (s : list N) :
  forall seen,
    spaced (ContentGenerator.squeezeBreaks seen s)
    /\ ((1 <= seen)%nat ->
        match ContentGenerator.squeezeBreaks seen s with
        | a :: b :: _ => ~ (a = 10%N /\ b = 10%N)
        | _ => True
        end)
    /\ ((2 <= seen)%nat ->
        match ContentGenerator.squeezeBreaks seen s with
        | a :: _ => a <> 10%N
        | _ => True
        end).
Proof.
  induction s as [|c r IH]; intros seen; cbn [ContentGenerator.squeezeBreaks].
  - simpl. auto.
  - destruct (N.eqb_spec c 10) as [->|Hc].
    + destruct (Nat.ltb_spec seen 2) as [Hlt|Hge].
      * destruct (IH (S seen)) as (H1 & H2 & H3).
        destruct (ContentGenerator.squeezeBreaks (S seen) r) as [|b [|d out]].
        -- simpl. repeat split; intros; trivial. lia.
        -- simpl. repeat split; intros; trivial; [|lia].
           intros [_ ->]. apply H3; [lia|reflexivity].
        -- split; [|split].
           ++ split; [|exact H1]. intros (_ & -> & ->). apply H2; [lia|]. split; reflexivity.
           ++ intros Hs [_ ->]. apply H3; [lia|reflexivity].
           ++ intros; lia.
      * destruct (IH (S seen)) as (H1 & H2 & H3).
        split; [exact H1|]. split; intros _; [apply H2|apply H3]; lia.
    + destruct (IH 0%nat) as (H1 & _ & _).
      destruct (ContentGenerator.squeezeBreaks 0 r) as [|b [|d out]].
      * simpl. repeat split; intros; trivial.
      * simpl. repeat split; intros; trivial. intros [? _]. contradiction.
      * split; [|split].
        -- split; [|exact H1]. intros (? & _). contradiction.
        -- intros _ [? _]. contradiction.
        -- intros _. exact Hc.
Qed.

Lemma spaced_take (s : list N) : forall n, spaced s -> spaced (take n s).
Proof.
  induction s as [|a r IH]; intros n H.
  - destruct n; exact I.
  - destruct n as [|n]; [exact I|].
    destruct r as [|b [|c r']].
    + destruct n; exact I.
    + destruct n as [|[|n]]; exact I.
    + destruct H as [H1 H2]. specialize (IH n H2).
      destruct n as [|[|n]]; [exact I|exact I|].
      split; [exact H1|exact IH].
Qed.

(** X20: the text [_cleanGeneratedText] returns is at most 3000
    characters long and never has three line breaks in a row. *)
Theorem cleanGeneratedText_shape (t : list N) :
  jlength (ContentGenerator._cleanGeneratedText t) <= 3000
  /\ spaced (ContentGenerator._cleanGeneratedText t).
Proof.
  unfold ContentGenerator._cleanGeneratedText, substring0. split.
  - unfold jlength. rewrite length_take. lia.
  - apply spaced_take, squeezeBreaks_spaced.
Qed.

(** X21: on a prompt that passes [_validatePrompt] and that the Mistral
    template renders, with a token, an answer of the model to the rendered
    prompt that holds a non-empty [generated_text] is returned as the text
    once cleaned, with provider ["huggingface"]. When cleaning leaves nothing
    of it (an answer made of tags or of white space) the result is the error
    object with a null text, and not the fallback template. On a prompt the
    template cannot render, the provider is never ["huggingface"]. *)
Theorem generate_primary_path (g : ContentGenerator.Generator)
    (w : ContentGenerator.World) (prompt d0 : value) (rest : list value)
    (c : N) (token formatted t : list N) :
  ContentGenerator._validatePrompt prompt = Ok true ->
  ContentGenerator.hfToken g = Some (c :: token) ->
  (ContentGenerator._formatMistralPrompt prompt = Ok formatted ->
   ContentGenerator.complete w (VStr formatted)
   = ContentGenerator.Completed (VArr (d0 :: rest)) ->
   JS.get d0 "generated_text" = Ok (VStr t) ->
   t <> [] ->
   match ContentGenerator._cleanGeneratedText t with
   | [] =>
       ContentGenerator.provider (fst (ContentGenerator.generate g w prompt)) = js "error"
       /\ ContentGenerator.text (fst (ContentGenerator.generate g w prompt)) = None
   | cleaned =>
       ContentGenerator.provider (fst (ContentGenerator.generate g w prompt))
       = js "huggingface"
       /\ ContentGenerator.text (fst (ContentGenerator.generate g w prompt)) = Some cleaned
       /\ ContentGenerator.model (fst (ContentGenerator.generate g w prompt))
          = Some ContentGenerator.text_model
   end)
  /\ (forall e,
        ContentGenerator._formatMistralPrompt prompt = Throw e ->
        ContentGenerator.provider (fst (ContentGenerator.generate g w prompt))
        <> js "huggingface").
Proof.
  intros Hv Htok. split.
  - intros Hf Hc Hg Ht.
    unfold ContentGenerator.generate. rewrite Hv.
    unfold ContentGenerator._generateWithHuggingFace.
    cbn [ContentGenerator._enforceRateLimit snd ContentGenerator.hfToken].
    rewrite Htok, Hf. cbn [mbind result_bind]. rewrite Hc.
    assert (truthy d0 = true) as Hd0.
    { destruct d0 as [| |b|n|s|fields|l]; try discriminate; try reflexivity;
        simpl in Hg; try destruct (String.eqb _ _); discriminate. }
    cbn [truthy first mbind result_bind]. rewrite Hd0, Hg.
    cbn [mbind result_bind].
    assert (truthy (VStr t) = true) as -> by (destruct t; [congruence|reflexivity]).
    unfold ContentGenerator._validateOutput.
    cbn [ContentGenerator.draft_text ContentGenerator.draft_provider
         ContentGenerator.draft_model ContentGenerator.text].
    destruct (ContentGenerator._cleanGeneratedText t) as [|a cleaned].
    + split; reflexivity.
    + simpl. repeat split; reflexivity.
  - intros e He. unfold ContentGenerator.generate. rewrite Hv.
    rewrite (generateWithHuggingFace_unrendered _ _ _ _ He).
    destruct (ContentGenerator._generateFallback w prompt) as [d|e'] eqn:Efb;
      [|vm_compute; discriminate].
    destruct (ContentGenerator.text (ContentGenerator._validateOutput w d));
      [|vm_compute; discriminate].
    cbn [fst].
    rewrite (validateOutput_provider w d "fallback"
               (generateFallback_provider _ _ _ Efb) ltac:(discriminate)).
    vm_compute. discriminate.
Qed.

(** X21 on a prompt the template renders and an answer made of one tag. *)
Lemma generate_primary_path_witness :
  let prompt :=
    VObj [("metadata"%string, VObj [("topic"%string, VStr (js "rate limiting"))]);
          ("system"%string, VStr (js "You write posts."));
          ("instructions"%string,
            VObj [("task"%string, VStr (js "Write a post"));
                  ("context"%string, VArr [VStr (js "token bucket")]);
                  ("guidelines"%string, VArr [VStr (js "be brief")])]);
          ("context"%string, VObj [("summary"%string, VStr (js "token bucket"))]);
          ("constraints"%string, PromptBuilder.buildConstraints)] in
  let w :=
    {| ContentGenerator.clock_before := 5000;
       ContentGenerator.clock_after := 5000;
       ContentGenerator.timestamp := js "2024-01-01T00:00:01.000Z";
       ContentGenerator.complete :=
         fun _ => ContentGenerator.Completed
                    (VArr [VObj [("generated_text"%string, VStr (js "<s>"))]]) |} in
  let g := ContentGenerator.new (Some (js "hf_token")) in
  (exists formatted, ContentGenerator._formatMistralPrompt prompt = Ok formatted)
  /\ ContentGenerator.provider (fst (ContentGenerator.generate g w prompt)) = js "error"
  /\ ContentGenerator.text (fst (ContentGenerator.generate g w prompt)) = None.
Proof.
  intros prompt w g.
  destruct (ContentGenerator._formatMistralPrompt prompt) as [formatted|e] eqn:Ef;
    [|vm_compute in Ef; discriminate].
  split; [exists formatted; reflexivity|].
  apply (proj1 (generate_primary_path g w prompt
                  (VObj [("generated_text"%string, VStr (js "<s>"))]) [] 104%N
                  (js "f_token") formatted (js "<s>") eq_refl eq_refl)
           Ef eq_refl eq_refl ltac:(discriminate)).
Defined.



(** ** The queue of the publisher *)

Lemma queuePost_consistent p w c :
  Forall item_consistent (LinkedInPublisher.queue p) ->
  Forall item_consistent (LinkedInPublisher.queue (snd (LinkedInPublisher._queuePost p w c))).
Proof.
  intros H. unfold LinkedInPublisher._queuePost.
  destruct (JS.get c "metadata") as [meta|e]; [|exact H].
  cbn [snd LinkedInPublisher.queue]. apply Forall_app. split; [exact H|].
  constructor; [|constructor]. split; reflexivity.
Qed.

Lemma publish_try_state p w c :
  snd (LinkedInPublisher.publish_try p w c) = p
  \/ snd (LinkedInPublisher.publish_try p w c) = snd (LinkedInPublisher._queuePost p w c).
Proof.
  unfold LinkedInPublisher.publish_try.
  destruct (JS.get c "image"); [|left; reflexivity].
  destruct (negb (LinkedInPublisher._validateContent c)); [left; reflexivity|].
  destruct (_ || _); [|left; reflexivity].
  right. destruct (LinkedInPublisher._queuePost p w c) as [[r|e] p']; reflexivity.
Qed.

Lemma publish_state p w c :
  snd (LinkedInPublisher.publish p w c) = snd (LinkedInPublisher.publish_try p w c)
  \/ snd (LinkedInPublisher.publish p w c)
     = snd (LinkedInPublisher._queuePost (snd (LinkedInPublisher.publish_try p w c)) w c).
Proof.
  unfold LinkedInPublisher.publish.
  destruct (LinkedInPublisher.publish_try p w c) as [[o|e] p']; [left; reflexivity|].
  right. cbn [snd].
  destruct (LinkedInPublisher._queuePost p' w c) as [[r|e'] p'']; reflexivity.
Qed.

Lemma markPublished_consistent queueId at_ pid q :
  Forall item_consistent q ->
  Forall item_consistent (LinkedInPublisher.markPublished queueId at_ pid q).
Proof.
  induction 1 as [|item rest Hi Hr IH]; cbn [LinkedInPublisher.markPublished];
    [constructor|].
  destruct (jstring_eqb (LinkedInPublisher.id item) queueId).
  - constructor; [|exact Hr]. split; discriminate.
  - constructor; assumption.
Qed.

Lemma removeFirst_consistent queueId q :
  Forall item_consistent q ->
  Forall item_consistent (LinkedInPublisher.removeFirst queueId q).
Proof.
  induction 1 as [|item rest Hi Hr IH]; cbn [LinkedInPublisher.removeFirst];
    [constructor|].
  destruct (jstring_eqb (LinkedInPublisher.id item) queueId);
    [exact Hr|constructor; assumption].
Qed.

(** X22: in every publisher a program can reach from the constructor by
    [publish], [publishFromQueue], [removeFromQueue] and [_queuePost], each
    queue item is consistent: a pending item has neither a publication time
    nor a post id, and a published item has both fields set. *)
Theorem reachable_consistent (p : LinkedInPublisher.Publisher) :
  reachable p -> Forall item_consistent (LinkedInPublisher.queue p).
Proof.
  induction 1 as [token urn auto|p w c Hp IH|p w c Hp IH|p w queueId Hp IH|p queueId Hp IH].
  - constructor.
  - apply queuePost_consistent, IH.
  - assert (Forall item_consistent
              (LinkedInPublisher.queue (snd (LinkedInPublisher.publish_try p w c)))) as Ht.
    { destruct (publish_try_state p w c) as [-> | ->];
        [exact IH|apply queuePost_consistent, IH]. }
    destruct (publish_state p w c) as [-> | ->];
      [exact Ht|apply queuePost_consistent, Ht].
  - unfold LinkedInPublisher.publishFromQueue.
    destruct (LinkedInPublisher.findItem queueId (LinkedInPublisher.queue p)) as [item|];
      [|exact IH].
    destruct (LinkedInPublisher.status item); [|exact IH].
    destruct (LinkedInPublisher._attemptAutoPublish p w (LinkedInPublisher.content item));
      [|exact IH].
    apply markPublished_consistent, IH.
  - unfold LinkedInPublisher.removeFromQueue.
    destruct (LinkedInPublisher.findItem queueId (LinkedInPublisher.queue p));
      [|exact IH].
    apply removeFirst_consistent, IH.
Qed.

(** X22 after a post was queued and approved. *)
Lemma reachable_consistent_witness :
  let w :=
    {| LinkedInPublisher.now := 1700000000000;
       LinkedInPublisher.random36 := js "0.k3j5h1x9q2m";
       LinkedInPublisher.timestamp := js "2023-11-14T22:13:20.000Z";
       LinkedInPublisher.timestamp_after := js "2023-11-14T22:13:21.000Z";
       LinkedInPublisher.post :=
         fun _ => LinkedInPublisher.Responded
                    (VObj [("id"%string, VStr (js "urn:li:share:1"))]) (VObj []) |} in
  let p0 := LinkedInPublisher.new (Some (js "token")) (Some (js "urn:li:person:1")) None in
  let p1 := snd (LinkedInPublisher.publish p0 w (VObj [("text"%string, VStr (js "hello"))])) in
  let p2 := snd (LinkedInPublisher.publishFromQueue p1 w (js "queue_1700000000000_k3j5h1x9q")) in
  Forall item_consistent (LinkedInPublisher.queue p2)
  /\ List.map LinkedInPublisher.status (LinkedInPublisher.queue p2)
     = [LinkedInPublisher.published].
Proof.
  intros w p0 p1 p2. split; [|reflexivity].
  apply (reachable_consistent p2).
  apply reach_publishFromQueue, reach_publish, reach_new.
Defined.

Lemma findItem_none queueId q :
  Forall (fun x => LinkedInPublisher.id x <> queueId) q ->
  LinkedInPublisher.findItem queueId q = None.
Proof.
  induction 1 as [|x rest Hx Hr IH]; [reflexivity|].
  unfold LinkedInPublisher.findItem in *. cbn [List.find].
  unfold jstring_eqb at 1. rewrite bool_decide_eq_false_2 by exact Hx. exact IH.
Qed.

(** X23: [removeFromQueue] removes the first item that has the id, no other
    item, and returns [true]; the items before and after stay where they are,
    a later item under the same id included. When no item has the id it
    returns [false] and changes nothing. *)
Theorem removeFromQueue_removes_first (p : LinkedInPublisher.Publisher) (queueId : list N) :
  (forall before item after,
     LinkedInPublisher.queue p = before ++ item :: after ->
     LinkedInPublisher.id item = queueId ->
     Forall (fun x => LinkedInPublisher.id x <> queueId) before ->
     LinkedInPublisher.removeFromQueue p queueId
     = (true, {| LinkedInPublisher.config := LinkedInPublisher.config p;
                 LinkedInPublisher.queue := before ++ after |}))
  /\ (Forall (fun x => LinkedInPublisher.id x <> queueId) (LinkedInPublisher.queue p) ->
      LinkedInPublisher.removeFromQueue p queueId = (false, p)).
Proof.
  split.
  - intros before item after Hq Hid Hb. unfold LinkedInPublisher.removeFromQueue.
    rewrite Hq. clear Hq.
    assert (LinkedInPublisher.findItem queueId (before ++ item :: after) = Some item
            /\ LinkedInPublisher.removeFirst queueId (before ++ item :: after)
               = before ++ after) as [-> ->]; [|reflexivity].
    induction Hb as [|x rest Hx Hr IH]; unfold LinkedInPublisher.findItem in *;
      cbn [app List.find LinkedInPublisher.removeFirst].
    + unfold jstring_eqb. rewrite !bool_decide_eq_true_2 by exact Hid. split; reflexivity.
    + unfold jstring_eqb at 1 3. rewrite !bool_decide_eq_false_2 by exact Hx.
      destruct IH as [-> ->]. split; reflexivity.
  - intros H. unfold LinkedInPublisher.removeFromQueue.
    rewrite (findItem_none _ _ H). reflexivity.
Qed.

(** X23 on a queue that holds two items under one id. *)
Lemma removeFromQueue_removes_first_witness :
  let item text :=
    {| LinkedInPublisher.id := js "queue_1700000000000_k3j5h1x9q";
       LinkedInPublisher.content := VObj [("text"%string, VStr text)];
       LinkedInPublisher.status := LinkedInPublisher.pending;
       LinkedInPublisher.createdAt := js "2023-11-14T22:13:20.000Z";
       LinkedInPublisher.metadata_topic := VUndefined;
       LinkedInPublisher.metadata_signalType := VUndefined;
       LinkedInPublisher.publishedAt := None;
       LinkedInPublisher.postId := None |} in
  let p :=
    {| LinkedInPublisher.config :=
         LinkedInPublisher.config (LinkedInPublisher.new None None None);
       LinkedInPublisher.queue := [item (js "first post"); item (js "second post")] |} in
  LinkedInPublisher.removeFromQueue p (js "queue_1700000000000_k3j5h1x9q")
  = (true, {| LinkedInPublisher.config := LinkedInPublisher.config p;
              LinkedInPublisher.queue := [item (js "second post")] |}).
Proof.
  intros item p.
  apply (proj1 (removeFromQueue_removes_first p (js "queue_1700000000000_k3j5h1x9q"))
           [] (item (js "first post")) [item (js "second post")]).
  - reflexivity.
  - reflexivity.
  - constructor.
Defined.

Lemma markPublished_views queueId at_ pid q item :
  LinkedInPublisher.findItem queueId q = Some item ->
  LinkedInPublisher.status item = LinkedInPublisher.pending ->
  let shows wanted :=
    List.filter (fun x => jstring_eqb (LinkedInPublisher.status_name
                                         (LinkedInPublisher.status x)) wanted) in
  (exists before after,
     shows (js "pending") q = before ++ item :: after
     /\ shows (js "pending") (LinkedInPublisher.markPublished queueId at_ pid q)
        = before ++ after
     /\ Forall (fun x => LinkedInPublisher.id x <> queueId) before)
  /\ length (shows (js "published") (LinkedInPublisher.markPublished queueId at_ pid q))
     = S (length (shows (js "published") q))
  /\ exists item',
       In item' (shows (js "published") (LinkedInPublisher.markPublished queueId at_ pid q))
       /\ LinkedInPublisher.id item' = queueId
       /\ LinkedInPublisher.content item' = LinkedInPublisher.content item
       /\ LinkedInPublisher.publishedAt item' = Some at_
       /\ LinkedInPublisher.postId item' = Some pid.
Proof.
  intros Hf Hs shows. subst shows. cbv beta. revert Hf.
  unfold LinkedInPublisher.findItem.
  induction q as [|x rest IH]; [discriminate|].
  cbn [List.find LinkedInPublisher.markPublished].
  destruct (jstring_eqb (LinkedInPublisher.id x) queueId) eqn:E.
  - intros [= ->]. unfold jstring_eqb in E. apply bool_decide_eq_true in E.
    cbn [List.filter LinkedInPublisher.status]. rewrite Hs.
    change (jstring_eqb (LinkedInPublisher.status_name LinkedInPublisher.pending)
              (js "pending")) with true.
    change (jstring_eqb (LinkedInPublisher.status_name LinkedInPublisher.pending)
              (js "published")) with false.
    change (jstring_eqb (LinkedInPublisher.status_name LinkedInPublisher.published)
              (js "pending")) with false.
    change (jstring_eqb (LinkedInPublisher.status_name LinkedInPublisher.published)
              (js "published")) with true.
    cbv iota. split; [|split].
    + exists [], (List.filter
                    (fun x => jstring_eqb (LinkedInPublisher.status_name
                                             (LinkedInPublisher.status x)) (js "pending"))
                    rest).
      split; [reflexivity|]. split; [reflexivity|constructor].
    + reflexivity.
    + eexists. split; [left; reflexivity|]. cbn. auto.
  - intros Hf. destruct (IH Hf) as ((before & after & H1 & H2 & H3) & H4 & item' & H5).
    unfold jstring_eqb in E. apply bool_decide_eq_false in E.
    cbn [List.filter].
    destruct (LinkedInPublisher.status x).
    + change (jstring_eqb (LinkedInPublisher.status_name LinkedInPublisher.pending)
                (js "pending")) with true.
      change (jstring_eqb (LinkedInPublisher.status_name LinkedInPublisher.pending)
                (js "published")) with false.
      cbv iota. split; [|split; [exact H4|exists item'; exact H5]].
      exists (x :: before), after. rewrite H1, H2.
      split; [reflexivity|]. split; [reflexivity|]. constructor; assumption.
    + change (jstring_eqb (LinkedInPublisher.status_name LinkedInPublisher.published)
                (js "pending")) with false.
      change (jstring_eqb (LinkedInPublisher.status_name LinkedInPublisher.published)
                (js "published")) with true.
      cbv iota. split; [exists before, after; auto|]. split.
      * cbn [length]. rewrite H4. reflexivity.
      * exists item'. destruct H5 as (H5 & H6). split; [right; exact H5|exact H6].
Qed.

(** X24: an approval moves one item from the pending view to the published
    view. When [publishFromQueue] returns, [getQueue('pending')] has lost the
    first item under the id and nothing else, [getQueue('published')] has one
    item more, and it holds an item under the id with the content of the
    approved one and the post id of the result. *)
Theorem approval_moves_item (p p' : LinkedInPublisher.Publisher)
    (w : LinkedInPublisher.World) (queueId : list N) (o : LinkedInPublisher.Outcome) :
  LinkedInPublisher.publishFromQueue p w queueId = (Ok o, p') ->
  exists before item after,
    LinkedInPublisher.getQueue p (js "pending") = before ++ item :: after
    /\ LinkedInPublisher.getQueue p' (js "pending") = before ++ after
    /\ LinkedInPublisher.id item = queueId
    /\ Forall (fun x => LinkedInPublisher.id x <> queueId) before
    /\ length (LinkedInPublisher.getQueue p' (js "published"))
       = S (length (LinkedInPublisher.getQueue p (js "published")))
    /\ exists item',
         In item' (LinkedInPublisher.getQueue p' (js "published"))
         /\ LinkedInPublisher.id item' = queueId
         /\ LinkedInPublisher.content item' = LinkedInPublisher.content item
         /\ LinkedInPublisher.postId item' = Some (LinkedInPublisher.outcome_postId o).
Proof.
  unfold LinkedInPublisher.publishFromQueue.
  destruct (LinkedInPublisher.findItem queueId (LinkedInPublisher.queue p)) as [item|] eqn:Ef;
    [|discriminate].
  destruct (LinkedInPublisher.status item) eqn:Es; [|discriminate].
  destruct (LinkedInPublisher._attemptAutoPublish p w (LinkedInPublisher.content item))
    as [r|e]; [|discriminate].
  intros [= <- <-].
  destruct (markPublished_views queueId (LinkedInPublisher.timestamp_after w)
              (LinkedInPublisher.outcome_postId r) _ item Ef Es)
    as ((before & after & H1 & H2 & H3) & H4 & item' & H5 & H6 & H7 & _ & H8).
  exists before, item, after.
  unfold LinkedInPublisher.getQueue.
  change (jstring_eqb (js "pending") (js "all")) with false.
  change (jstring_eqb (js "published") (js "all")) with false.
  cbv iota. cbn [LinkedInPublisher.queue].
  split; [exact H1|]. split; [exact H2|]. split.
  - unfold LinkedInPublisher.findItem in Ef. apply find_some in Ef as [_ E].
    unfold jstring_eqb in E. apply bool_decide_eq_true in E. exact E.
  - split; [exact H3|]. split; [exact H4|]. exists item'. auto.
Qed.

(** X24 on a queue of two pending posts, the second of which is approved. *)
Lemma approval_moves_item_witness :
  let item n text :=
    {| LinkedInPublisher.id := js "queue_170000000000" ++ dec n ++ js "_k3j5h1x9q";
       LinkedInPublisher.content := VObj [("text"%string, VStr text)];
       LinkedInPublisher.status := LinkedInPublisher.pending;
       LinkedInPublisher.createdAt := js "2023-11-14T22:13:20.000Z";
       LinkedInPublisher.metadata_topic := VUndefined;
       LinkedInPublisher.metadata_signalType := VUndefined;
       LinkedInPublisher.publishedAt := None;
       LinkedInPublisher.postId := None |} in
  let p :=
    {| LinkedInPublisher.config :=
         LinkedInPublisher.config
           (LinkedInPublisher.new (Some (js "token")) (Some (js "urn:li:person:1")) None);
       LinkedInPublisher.queue := [item 1 (js "first post"); item 2 (js "second post")] |} in
  let w :=
    {| LinkedInPublisher.now := 1700000000003;
       LinkedInPublisher.random36 := js "0.k3j5h1x9q2m";
       LinkedInPublisher.timestamp := js "2023-11-14T22:13:20.000Z";
       LinkedInPublisher.timestamp_after := js "2023-11-14T22:13:21.000Z";
       LinkedInPublisher.post :=
         fun _ => LinkedInPublisher.Responded
                    (VObj [("id"%string, VStr (js "urn:li:share:1"))]) (VObj []) |} in
  let p' := snd (LinkedInPublisher.publishFromQueue p w (js "queue_1700000000002_k3j5h1x9q")) in
  LinkedInPublisher.getQueue p (js "pending") = [item 1 (js "first post"); item 2 (js "second post")]
  /\ LinkedInPublisher.getQueue p' (js "pending") = [item 1 (js "first post")]
  /\ length (LinkedInPublisher.getQueue p' (js "published")) = 1%nat.
Proof.
  intros item p w p'.
  assert (exists o,
            LinkedInPublisher.publishFromQueue p w (js "queue_1700000000002_k3j5h1x9q")
            = (Ok o, p')) as [o Ho] by (eexists; reflexivity).
  destruct (approval_moves_item p p' w (js "queue_1700000000002_k3j5h1x9q") o Ho)
    as (before & found & after & H1 & H2 & _ & _ & H3 & _).
  split; [reflexivity|]. split; [reflexivity|exact H3].
Defined.

(** X25: what [publish] does to the queue, by its outcome. It never
    removes or changes an item and never changes the configuration. When it
    returns status ["published"], and when it throws, the queue is what it
    was; when it returns status ["queued"] or ["error"], exactly one item was
    appended: pending, holding the content, under the id of the receipt. *)
Theorem publish_queue_effect (p : LinkedInPublisher.Publisher)
    (w : LinkedInPublisher.World) (c : value) :
  LinkedInPublisher.config (snd (LinkedInPublisher.publish p w c))
  = LinkedInPublisher.config p
  /\ match fst (LinkedInPublisher.publish p w c) with
     | Ok (LinkedInPublisher.Published _ _ _) | Throw _ =>
         LinkedInPublisher.queue (snd (LinkedInPublisher.publish p w c))
         = LinkedInPublisher.queue p
     | Ok (LinkedInPublisher.Queued r) | Ok (LinkedInPublisher.Failed _ _ r) =>
         exists item,
           LinkedInPublisher.queue (snd (LinkedInPublisher.publish p w c))
           = LinkedInPublisher.queue p ++ [item]
           /\ LinkedInPublisher.id item = LinkedInPublisher.receipt_queueId r
           /\ LinkedInPublisher.status item = LinkedInPublisher.pending
           /\ LinkedInPublisher.content item = c
     end.
Proof.
  assert (Hq : forall q r q',
             LinkedInPublisher._queuePost q w c = (Ok r, q') ->
             LinkedInPublisher.config q' = LinkedInPublisher.config q
             /\ exists item,
                  LinkedInPublisher.queue q' = LinkedInPublisher.queue q ++ [item]
                  /\ LinkedInPublisher.id item = LinkedInPublisher.receipt_queueId r
                  /\ LinkedInPublisher.status item = LinkedInPublisher.pending
                  /\ LinkedInPublisher.content item = c).
  { intros q r q' H. apply queuePost_returns in H as (item & H1 & H2 & H3 & _ & H4 & H5).
    split; [exact H2|]. exists item. auto. }
  assert (Hcatch : forall e,
             LinkedInPublisher.publish_try p w c = (Throw e, p) ->
             LinkedInPublisher.config (snd (LinkedInPublisher.publish p w c))
             = LinkedInPublisher.config p
             /\ match fst (LinkedInPublisher.publish p w c) with
                | Ok (LinkedInPublisher.Published _ _ _) | Throw _ =>
                    LinkedInPublisher.queue (snd (LinkedInPublisher.publish p w c))
                    = LinkedInPublisher.queue p
                | Ok (LinkedInPublisher.Queued r) | Ok (LinkedInPublisher.Failed _ _ r) =>
                    exists item,
                      LinkedInPublisher.queue (snd (LinkedInPublisher.publish p w c))
                      = LinkedInPublisher.queue p ++ [item]
                      /\ LinkedInPublisher.id item = LinkedInPublisher.receipt_queueId r
                      /\ LinkedInPublisher.status item = LinkedInPublisher.pending
                      /\ LinkedInPublisher.content item = c
                end).
  { intros e He. unfold LinkedInPublisher.publish. rewrite He.
    destruct (LinkedInPublisher._queuePost p w c) as [[r|e'] p''] eqn:E; cbn [fst snd].
    - apply Hq in E. exact E.
    - apply queuePost_throws in E as ->. split; reflexivity. }
  destruct (LinkedInPublisher.publish_try p w c) as [[o|e] p'] eqn:Etry.
  - unfold LinkedInPublisher.publish. rewrite Etry. cbn [fst snd].
    revert Etry. unfold LinkedInPublisher.publish_try.
    destruct (JS.get c "image"); [|discriminate].
    destruct (negb (LinkedInPublisher._validateContent c)); [discriminate|].
    destruct (_ || _).
    + destruct (LinkedInPublisher._queuePost p w c) as [[r|e'] p''] eqn:E; [|discriminate].
      intros [= <- <-]. apply Hq in E. exact E.
    + destruct (LinkedInPublisher._attemptAutoPublish p w c) as [o'|e'] eqn:E;
        [|discriminate].
      intros [= <- <-]. apply attemptAutoPublish_published in E as (pid & at_ & url & ->).
      split; reflexivity.
  - apply (Hcatch e). f_equal.
    revert Etry. unfold LinkedInPublisher.publish_try.
    destruct (JS.get c "image"); [|intros [= _ <-]; reflexivity].
    destruct (negb (LinkedInPublisher._validateContent c)); [intros [= _ <-]; reflexivity|].
    destruct (_ || _).
    + destruct (LinkedInPublisher._queuePost p w c) as [[r|e'] p''] eqn:E; [discriminate|].
      intros [= _ <-]. apply queuePost_throws in E. exact E.
    + intros [= _ <-]. reflexivity.
Qed.

Lemma markPublished_changes queueId at_ pid q item :
  LinkedInPublisher.findItem queueId q = Some item ->
  LinkedInPublisher.status item = LinkedInPublisher.pending ->
  Forall2 (fun old new =>
             new = old
             \/ (LinkedInPublisher.id old = queueId
                 /\ LinkedInPublisher.status old = LinkedInPublisher.pending
                 /\ LinkedInPublisher.status new = LinkedInPublisher.published
                 /\ LinkedInPublisher.id new = LinkedInPublisher.id old
                 /\ LinkedInPublisher.content new = LinkedInPublisher.content old))
          q (LinkedInPublisher.markPublished queueId at_ pid q).
Proof.
  unfold LinkedInPublisher.findItem.
  induction q as [|x rest IH]; [discriminate|].
  cbn [List.find LinkedInPublisher.markPublished].
  destruct (jstring_eqb (LinkedInPublisher.id x) queueId) eqn:E.
  - intros [= ->] Hs. constructor.
    + right. unfold jstring_eqb in E. apply bool_decide_eq_true in E. auto.
    + clear. induction rest; constructor; auto.
  - intros Hf Hs. constructor; [left; reflexivity|apply IH; assumption].
Qed.

(** X26: [publishFromQueue] changes at most one item, however it ends: the
    queue keeps its length and its order and every item is what it was,
    except that a pending item under the given id may have become published,
    with the same id and content. A published item is never touched. *)
Theorem publishFromQueue_frame (p : LinkedInPublisher.Publisher)
    (w : LinkedInPublisher.World) (queueId : list N) :
  LinkedInPublisher.config (snd (LinkedInPublisher.publishFromQueue p w queueId))
  = LinkedInPublisher.config p
  /\ Forall2 (fun old new =>
                new = old
                \/ (LinkedInPublisher.id old = queueId
                    /\ LinkedInPublisher.status old = LinkedInPublisher.pending
                    /\ LinkedInPublisher.status new = LinkedInPublisher.published
                    /\ LinkedInPublisher.id new = LinkedInPublisher.id old
                    /\ LinkedInPublisher.content new = LinkedInPublisher.content old))
             (LinkedInPublisher.queue p)
             (LinkedInPublisher.queue (snd (LinkedInPublisher.publishFromQueue p w queueId))).
Proof.
  assert (Hsame : forall q : list LinkedInPublisher.QueueItem,
             Forall2 (fun old new =>
                new = old
                \/ (LinkedInPublisher.id old = queueId
                    /\ LinkedInPublisher.status old = LinkedInPublisher.pending
                    /\ LinkedInPublisher.status new = LinkedInPublisher.published
                    /\ LinkedInPublisher.id new = LinkedInPublisher.id old
                    /\ LinkedInPublisher.content new = LinkedInPublisher.content old)) q q).
  { induction q; constructor; auto. }
  unfold LinkedInPublisher.publishFromQueue.
  destruct (LinkedInPublisher.findItem queueId (LinkedInPublisher.queue p)) as [item|] eqn:Ef;
    [|split; [reflexivity|apply Hsame]].
  destruct (LinkedInPublisher.status item) eqn:Es; [|split; [reflexivity|apply Hsame]].
  destruct (LinkedInPublisher._attemptAutoPublish p w (LinkedInPublisher.content item));
    [|split; [reflexivity|apply Hsame]].
  split; [reflexivity|]. cbn [snd LinkedInPublisher.queue].
  apply (markPublished_changes _ _ _ _ item Ef Es).
Qed.
